(** * Meeting-analysis bot: a shallow embedding of [main.py]

    The script polls Drive folders, transcribes each recording, asks a
    language model for a JSON record, appends the record to a spreadsheet and
    moves the file to a processed folder.  Every step is a call to an outside
    service wrapped in [try]/[except]; what there is to verify is the control
    flow between those calls.

    The embedding keeps that shape.  Python values are an inductive type
    ([pyval]); the outside world (Drive, the worksheet, the temporary
    directory) is an explicit state ([world]); whatever an outside service
    answers is read from an oracle ([env]); exceptions and the trace of
    observable actions are threaded by a small monad ([M]) with
    [try_except] and [try_finally] combinators.

    What is left abstract:
    - an exception is its message; only [Exception] and its subclasses are
      meant, which is what [except Exception] catches;
    - a log line is its level and its message as written in the source, with
      the placeholders of the f-string not filled in;
    - the prompt sent to the language model is given by the two values it is
      built from, the transcript and the owner name;
    - calls that only assemble objects ([genai.configure], building the
      request, [io.BytesIO], [fh.seek]) are taken not to fail; the calls
      that do I/O can fail, each one where the oracle says so, and among
      them creating the temporary file and writing it;
    - a character of a [str] is a code point below 256. *)

From Stdlib Require Import ZArith Ascii String Floats.SpecFloat.
From stdpp Require Import gmap strings list fin_maps.

Local Set Warnings "-register-all".
Local Open Scope string_scope.
Local Open Scope list_scope.

(** ** Python values *)

(** What [json.loads] can return, which is also everything the script passes
    around as "analysis data".  Floats are IEEE binary64 values. *)
Inductive pyval : Type :=
| PNone
| PBool (b : bool)
| PInt (z : Z)
| PFloat (x : spec_float)
| PStr (s : string)
| PList (l : list pyval)
| PDict (d : gmap string pyval).

(** Python truth value testing, as used by [if x:] and [if not x:]. *)
Definition truthy (v : pyval) : bool :=
  match v with
  | PNone => false
  | PBool b => b
  | PInt z => negb (Z.eqb z 0)
  | PFloat (S754_zero _) => false
  | PFloat _ => true
  | PStr s => negb (String.eqb s "")
  | PList l => negb (Nat.eqb (length l) 0)
  | PDict d => negb (Nat.eqb (size d) 0)
  end.

(** Truth value of a [str] and of an optional [str] ([None] or a string). *)
Definition str_truthy (s : string) : bool := negb (String.eqb s "").

Definition opt_str_truthy (o : option string) : bool :=
  match o with
  | None => false
  | Some s => str_truthy s
  end.

(** ** String helpers: [str.split], [str.join], [str.strip] *)

Module PyStr.

(** [s.split(sep)] for a one-character separator: never returns the empty
    list. *)
Fixpoint split (sep : ascii) (s : string) : list string :=
  match s with
  | EmptyString => [EmptyString]
  | String c s' =>
      if Ascii.eqb c sep then EmptyString :: split sep s'
      else match split sep s' with
           | [] => [String c EmptyString]
           | x :: xs => String c x :: xs
           end
  end.

(** [sep.join(parts)]. *)
Fixpoint join (sep : string) (parts : list string) : string :=
  match parts with
  | [] => ""
  | [p] => p
  | p :: ps => (p ++ sep ++ join sep ps)%string
  end.

(** [str.isspace] on one character.  A character is a code point below 256
    here; these are the ones Python counts as whitespace in that range. *)
Definition is_space (c : ascii) : bool :=
  let n := nat_of_ascii c in
  (Nat.leb 9 n && Nat.leb n 13) || (Nat.leb 28 n && Nat.leb n 32)
  || Nat.eqb n 133 || Nat.eqb n 160.

Fixpoint lstrip (s : string) : string :=
  match s with
  | EmptyString => EmptyString
  | String c s' => if is_space c then lstrip s' else s
  end.

(** Right strip, by recursion from the right end: a character is dropped
    when it is whitespace and everything after it was dropped too. *)
Fixpoint rstrip (s : string) : string :=
  match s with
  | EmptyString => EmptyString
  | String c s' =>
      match rstrip s' with
      | EmptyString => if is_space c then EmptyString else String c EmptyString
      | r => String c r
      end
  end.

(** [s.strip()] with no argument. *)
Definition strip (s : string) : string := rstrip (lstrip s).

(** All characters of [s] are whitespace. *)
Fixpoint all_space (s : string) : bool :=
  match s with
  | EmptyString => true
  | String c s' => is_space c && all_space s'
  end.

(** First and last character, when there is one. *)
Definition first_char (s : string) : option ascii :=
  match s with
  | EmptyString => None
  | String c _ => Some c
  end.

Fixpoint last_char (s : string) : option ascii :=
  match s with
  | EmptyString => None
  | String c EmptyString => Some c
  | String _ s' => last_char s'
  end.

End PyStr.

(** ** JSON texts

    What "valid JSON" means: the grammar of RFC 8259, as a recogniser.
    Each function takes the text that is left and returns what is left
    after the part it recognised. *)

Module JSON.

Definition code (c : ascii) : nat := nat_of_ascii c.

(** ws = *( %x20 / %x09 / %x0A / %x0D ) *)
Definition is_ws (c : ascii) : bool :=
  Nat.eqb (code c) 32 || Nat.eqb (code c) 9 || Nat.eqb (code c) 10
  || Nat.eqb (code c) 13.

Fixpoint skip_ws (s : string) : string :=
  match s with
  | String c s' => if is_ws c then skip_ws s' else s
  | EmptyString => s
  end.

Definition is_digit (c : ascii) : bool :=
  Nat.leb 48 (code c) && Nat.leb (code c) 57.

Definition is_hex (c : ascii) : bool :=
  is_digit c || (Nat.leb 65 (code c) && Nat.leb (code c) 70)
  || (Nat.leb 97 (code c) && Nat.leb (code c) 102).

(** The rest of [s] after the literal [p]. *)
Fixpoint expect (p s : string) : option string :=
  match p, s with
  | EmptyString, _ => Some s
  | String a p', String b s' => if Ascii.eqb a b then expect p' s' else None
  | String _ _, EmptyString => None
  end.

Fixpoint digits (s : string) : string :=
  match s with
  | String c s' => if is_digit c then digits s' else s
  | EmptyString => s
  end.

Definition digits1 (s : string) : option string :=
  match s with
  | String c s' => if is_digit c then Some (digits s') else None
  | EmptyString => None
  end.

Definition opt_char (p : ascii -> bool) (s : string) : string :=
  match s with
  | String c s' => if p c then s' else s
  | EmptyString => s
  end.

(** number = [ minus ] int [ frac ] [ exp ], where int is zero or a digit
    from 1 to 9 followed by digits. *)
Definition number (s : string) : option string :=
  s ← match opt_char (Ascii.eqb "-") s with
      | String c s' =>
          if Ascii.eqb c "0" then Some s'
          else if is_digit c then Some (digits s') else None
      | EmptyString => None
      end;
  s ← match s with
      | String c s' => if Ascii.eqb c "." then digits1 s' else Some s
      | EmptyString => Some s
      end;
  match s with
  | String c s' =>
      if Ascii.eqb c "e" || Ascii.eqb c "E"
      then digits1 (opt_char (fun d => Ascii.eqb d "+" || Ascii.eqb d "-") s')
      else Some s
  | EmptyString => Some s
  end.

(** The characters of a string and its closing quotation mark: unescaped
    characters from %x20 on, and the escapes. *)
Fixpoint chars (s : string) : option string :=
  match s with
  | EmptyString => None
  | String c s' =>
      if Ascii.eqb c "034" then Some s'
      else if Ascii.eqb c "\" then
        match s' with
        | String d s'' =>
            if existsb (Ascii.eqb d) ["034"; "\"; "/"; "b"; "f"; "n"; "r"; "t"]%char
            then chars s''
            else if Ascii.eqb d "u" then
              match s'' with
              | String h1 (String h2 (String h3 (String h4 rest))) =>
                  if is_hex h1 && is_hex h2 && is_hex h3 && is_hex h4
                  then chars rest else None
              | _ => None
              end
            else None
        | EmptyString => None
        end
      else if Nat.ltb (code c) 32 then None
      else chars s'
  end.

(** value = false / null / true / object / array / number / string.
    [members] and [elements] start at a member or an element and end after
    the closing bracket.  The fuel bounds the nesting. *)
Fixpoint value (fuel : nat) (s : string) : option string :=
  match fuel with
  | 0 => None
  | S fuel =>
      match s with
      | EmptyString => None
      | String c s' =>
          if Ascii.eqb c "{" then
            match skip_ws s' with
            | String d rest =>
                if Ascii.eqb d "}" then Some rest else members fuel (skip_ws s')
            | EmptyString => None
            end
          else if Ascii.eqb c "[" then
            match skip_ws s' with
            | String d rest =>
                if Ascii.eqb d "]" then Some rest else elements fuel (skip_ws s')
            | EmptyString => None
            end
          else if Ascii.eqb c "034" then chars s'
          else if Ascii.eqb c "t" then expect "rue" s'
          else if Ascii.eqb c "f" then expect "alse" s'
          else if Ascii.eqb c "n" then expect "ull" s'
          else number s
      end
  end
with members (fuel : nat) (s : string) : option string :=
  match fuel with
  | 0 => None
  | S fuel =>
      match s with
      | String c s' =>
          if Ascii.eqb c "034" then
            after_name ← chars s';
            match skip_ws after_name with
            | String d rest =>
                if Ascii.eqb d ":" then
                  after_value ← value fuel (skip_ws rest);
                  match skip_ws after_value with
                  | String e rest' =>
                      if Ascii.eqb e "," then members fuel (skip_ws rest')
                      else if Ascii.eqb e "}" then Some rest' else None
                  | EmptyString => None
                  end
                else None
            | EmptyString => None
            end
          else None
      | EmptyString => None
      end
  end
with elements (fuel : nat) (s : string) : option string :=
  match fuel with
  | 0 => None
  | S fuel =>
      after_value ← value fuel s;
      match skip_ws after_value with
      | String e rest' =>
          if Ascii.eqb e "," then elements fuel (skip_ws rest')
          else if Ascii.eqb e "]" then Some rest' else None
      | EmptyString => None
      end
  end.

(** JSON-text = ws value ws.  Two calls at most go by without a character
    being consumed, so twice the length is fuel enough. *)
Definition valid (s : string) : bool :=
  match value (2 * String.length s + 2) (skip_ws s) with
  | Some rest => String.eqb (skip_ws rest) ""
  | None => false
  end.

End JSON.

(** ** Configuration constants *)

Definition GOOGLE_SHEET_ID : string := "12vuVG0jTs5GUFaywj3piz6zk44X92JeB".
Definition PROCESSED_FOLDER_ID : string := "1fI7QAr1MwJlh4FTJGezb5LTXGDqMpmXT".

(** [url.split('/')[-1].split('?')[0]] *)
Definition get_id_from_url (url : string) : string :=
  hd "" (PyStr.split "?"%char (List.last (PyStr.split "/"%char url) "")).

(** The dict literal, in insertion order (which is the order [.items()]
    iterates in). *)
Definition TEAM_FOLDERS : list (string * string) :=
  Eval vm_compute in
  [ ("Sharath", get_id_from_url "https://drive.google.com/drive/folders/1Ddvswz50pgniX3WTQdV-gd2wEz56di5H?usp=sharing");
    ("Tavish", get_id_from_url "https://drive.google.com/drive/folders/1ug6CVE96qLJNfmwLdC631Zz5KSyVO9FK?usp=sharing");
    ("Sripal", get_id_from_url "https://drive.google.com/drive/folders/19F77ZKyCQgEb43HidnmFMrPxT9Z6NqcW?usp=sharing");
    ("Musthafa", get_id_from_url "https://drive.google.com/drive/folders/1kwg9bnZq_CgKE0YKXfDqnMvJHVz7VI3e?usp=sharing");
    ("Hemanth", get_id_from_url "https://drive.google.com/drive/folders/148aNehlAkHFL_gpX73Ko61ftg0XgE_ye?usp=sharing");
    ("Darshan", get_id_from_url "https://drive.google.com/drive/folders/1BciBnzjxbeCnPlPsTCVVhv1NH2BxmIGl?usp=sharing");
    ("Vishal", get_id_from_url "https://drive.google.com/drive/folders/1ZFE5sAVMOlJcHC5r3LEVZzbEnZzOvY-G?usp=sharing");
    ("Rahul", get_id_from_url "https://drive.google.com/drive/folders/1kxThyuSLuMUmM3GFF4H7PcVx8yUzasix?usp=sharing");
    ("Akshay", get_id_from_url "https://drive.google.com/drive/folders/13gXYRgpi4xzhLMWppa8ZI2Ljr_wZHAQF?usp=sharing") ].

(** The canonical header row written to an empty sheet (line 216). *)
Definition header_keys : list string :=
  [ "Date"; "POC Name"; "Society Name"; "Visit Type"; "Meeting Type";
    "Amount Value"; "Months"; "Deal Status"; "Vendor Leads"; "Society Leads";
    "Opening Pitch Score"; "Product Pitch Score";
    "Cross-Sell / Opportunity Handling"; "Closing Effectiveness";
    "Negotiation Strength"; "Overall Sentiment"; "Total Score"; "% Score";
    "Risks / Unresolved Issues"; "Improvements Needed"; "Owner"; "Email Id";
    "Kibana ID"; "Manager"; "Product Pitch"; "Team"; "Media Link"; "Doc Link";
    "Suggestions & Missed Topics"; "Pre-meeting brief";
    "Meeting duration (min)"; "Rebuttal Handling"; "Rapport Building";
    "Improvement Areas"; "Product Knowledge Displayed";
    "Call Effectiveness and Control"; "Next Step Clarity and Commitment";
    "Missed Opportunities"; "Key Discussion Points"; "Key Questions";
    "Competition Discussion"; "Action items"; "Positive Factors";
    "Negative Factors"; "Customer Needs"; "Overall Client Sentiment";
    "Feature Checklist Coverage" ].

(** [os.path.splitext(p)[1]] on a POSIX path: the extension starts at the
    last dot of the last path component, unless only dots precede it. *)
Definition splitext_ext (p : string) : string :=
  let base := List.last (PyStr.split "/"%char p) "" in
  let parts := PyStr.split "."%char base in
  if existsb str_truthy (removelast parts)
  then ("." ++ List.last parts "")%string
  else "".

(** ** The outside world *)

(** One entry of a Drive listing, [files(id, name)]. *)
Record file := File { file_id : string; file_name : string }.

Inductive level := INFO | WARNING | ERROR.

(** Observable actions, in the order they happen.  [Log] carries the message
    as written in the source, placeholders unexpanded.  The events named
    after a function are emitted when that function is entered;
    [HeaderWritten] and [RowAppended] when the worksheet accepted the row. *)
Inductive event :=
| Log (lvl : level) (msg : string)
| Authenticate
| FilesList (folder_id : string)
| Download (fid : string)
| Transcribe (original_filename : string)
| Analyze (transcript : pyval) (owner_name : string)
| WriteSheet (data : pyval)
| HeaderWritten (keys : list string)
| RowAppended (row : list pyval)
| MoveFile (fid source_folder_id : string)
| Sleep (seconds : nat).

(** The state the script reads and changes:
    - the first worksheet of the spreadsheet, as the list of its rows, a row
      being what [row_values] returns for it;
    - Drive folder membership: file id to the set of its parent folders;
    - the temporary directory: a serial number to suffix and content. *)
Record world := World {
  sheet : list (list string);
  parents : gmap string (gset string);
  tmpdir : gmap nat (string * list Byte.byte)
}.

Definition exn := string.

Inductive result (A : Type) :=
| Ok (a : A)
| Raise (e : exn).
Arguments Ok {A} a.
Arguments Raise {A} e.

(** Calls on the spreadsheet client that go over the network. *)
Inductive sheets_op := OpenByKey | GetWorksheet | RowValues | AppendRow.

(** Client handles returned by authentication. *)
Inductive drive_handle : Set := DriveService.
Inductive sheets_handle : Set := GspreadClient.

(** What the environment and the outside services answer.  Nothing is
    assumed about these answers: every statement below holds for all of
    them.  A service call either returns or raises. *)
Record env := Env {
  (* os.environ.get("GCP_SA_KEY") and os.environ.get("GEMINI_API_KEY") *)
  GCP_SERVICE_ACCOUNT_KEY : option string;
  GEMINI_API_KEY : option string;
  (* json.loads *)
  json_loads : string -> result pyval;
  (* Credentials.from_service_account_info, build, gspread.authorize *)
  build_clients : pyval -> result unit;
  (* drive_service.files().list(q=...).execute().get("files", []) *)
  files_list : gmap string (gset string) -> string -> result (list file);
  (* the chunks MediaIoBaseDownload.next_chunk delivers until done *)
  get_media : string -> result (list (list Byte.byte));
  (* whether tempfile.NamedTemporaryFile(suffix=..., delete=False) fails *)
  tmp_create : string -> option exn;
  (* temp_file.write, and the close that ends the with block *)
  tmp_write : list Byte.byte -> result unit;
  (* how many bytes had reached the file when the write failed *)
  tmp_written : list Byte.byte -> nat;
  (* WhisperModel("tiny.en", ...) *)
  whisper_load : result unit;
  (* the texts of the segments model.transcribe yields for a file *)
  whisper_transcribe : string -> list Byte.byte -> result (list string);
  (* model.generate_content(prompt).text for the prompt built from a
     transcript and an owner name *)
  generate_content : pyval -> string -> result string;
  (* whether a spreadsheet call fails, given the sheet as it is *)
  sheets_fault : sheets_op -> list (list string) -> option exn;
  (* the text a cell shows for a value entered as USER_ENTERED *)
  cell_text : pyval -> string;
  (* whether files().update(...).execute() fails *)
  files_update_fault : string -> string -> option exn
}.

(** ** The monad: state, exceptions and a trace *)

Definition M (A : Type) : Type := world -> result A * world * list event.

Global Instance M_ret : MRet M := fun A a w => (Ok a, w, []).

Global Instance M_bind : MBind M := fun A B k m w =>
  match m w with
  | (Ok a, w1, t1) => let '(r, w2, t2) := k a w1 in (r, w2, t1 ++ t2)
  | (Raise e, w1, t1) => (Raise e, w1, t1)
  end.

Definition raise {A} (e : exn) : M A := fun w => (Raise e, w, []).

Definition emit (ev : event) : M unit := fun w => (Ok tt, w, [ev]).

Definition log (lvl : level) (msg : string) : M unit := emit (Log lvl msg).

Definition lift {A} (r : result A) : M A := fun w => (r, w, []).

Definition fail_when (o : option exn) : M unit :=
  match o with
  | Some e => raise e
  | None => mret tt
  end.

Definition get_world : M world := fun w => (Ok w, w, []).

Definition put_world (w' : world) : M unit := fun _ => (Ok tt, w', []).

(** [try: body except Exception as e: handler e] *)
Definition try_except {A} (body : M A) (handler : exn -> M A) : M A := fun w =>
  match body w with
  | (Ok a, w1, t1) => (Ok a, w1, t1)
  | (Raise e, w1, t1) => let '(r, w2, t2) := handler e w1 in (r, w2, t1 ++ t2)
  end.

(** [try: body finally: final]: [final] always runs; the outcome is that of
    [body] unless [final] itself raises. *)
Definition try_finally {A} (body : M A) (final : M unit) : M A := fun w =>
  let '(r, w1, t1) := body w in
  match final w1 with
  | (Ok _, w2, t2) => (r, w2, t1 ++ t2)
  | (Raise e, w2, t2) => (Raise e, w2, t1 ++ t2)
  end.

(** [for x in l: body x] *)
Fixpoint for_each {A} (l : list A) (body : A -> M unit) : M unit :=
  match l with
  | [] => mret tt
  | x :: l' => body x ;; for_each l' body
  end.

(** Projections of a run. *)
Definition outcome {A} (r : result A * world * list event) : result A := r.1.1.
Definition final {A} (r : result A * world * list event) : world := r.1.2.
Definition trace {A} (r : result A * world * list event) : list event := r.2.

(** ** The script *)

Section Script.

Variable E : env.

(** *** Primitive operations on the world *)

(** [worksheet.row_values(1)] *)
Definition row1 (rows : list (list string)) : list string :=
  default [] (rows !! 0).

Definition sheets_call (op : sheets_op) : M unit :=
  w ← get_world; fail_when (sheets_fault E op (sheet w)).

Definition row_values_1 : M (list string) :=
  sheets_call RowValues;; w ← get_world; mret (row1 (sheet w)).

(** [worksheet.append_row(values, value_input_option="USER_ENTERED")]: a new
    trailing row; a failed call leaves the sheet as it was. *)
Definition append_row (values : list pyval) : M unit :=
  sheets_call AppendRow;;
  w ← get_world;
  put_world (World (sheet w ++ [map (cell_text E) values]) (parents w) (tmpdir w)).

(** [tempfile.NamedTemporaryFile(suffix=..., delete=False)]: a new, empty
    file under a name not in use; when the call fails there is no file. *)
Definition NamedTemporaryFile (suffix : string) : M nat :=
  fail_when (tmp_create E suffix);;
  w ← get_world;
  let path := fresh (dom (tmpdir w)) in
  put_world (World (sheet w) (parents w) (<[path := (suffix, [])]> (tmpdir w)));;
  mret path.

(** [temp_file.write(content)], with the close at the end of the [with]
    block: a write that fails leaves in the file the bytes that had reached
    it. *)
Definition temp_file_write (path : nat) (content : list Byte.byte) : M unit :=
  w ← get_world;
  match tmp_write E content with
  | Ok _ =>
      put_world (World (sheet w) (parents w)
                   (alter (fun f => (f.1, f.2 ++ content)) path (tmpdir w)))
  | Raise e =>
      put_world (World (sheet w) (parents w)
                   (alter (fun f => (f.1, f.2 ++ take (tmp_written E content) content))
                      path (tmpdir w)));;
      raise e
  end.

(** [os.remove(path)] *)
Definition os_remove (path : nat) : M unit :=
  w ← get_world;
  match tmpdir w !! path with
  | Some _ => put_world (World (sheet w) (parents w) (delete path (tmpdir w)))
  | None => raise "FileNotFoundError"
  end.

(** [model.transcribe(path, beam_size=5)] with the segments consumed. *)
Definition model_transcribe (path : nat) : M (list string) :=
  w ← get_world;
  match tmpdir w !! path with
  | Some (suffix, content) => lift (whisper_transcribe E suffix content)
  | None => raise "FileNotFoundError"
  end.

(** [files().update(fileId, addParents, removeParents).execute()] *)
Definition files_update (fid add_parents remove_parents : string) : M unit :=
  fail_when (files_update_fault E fid remove_parents);;
  w ← get_world;
  match parents w !! fid with
  | Some ps =>
      put_world (World (sheet w)
                   (<[fid := ({[add_parents]} ∪ ps) ∖ {[remove_parents]}]> (parents w))
                   (tmpdir w))
  | None => raise "HttpError 404"
  end.

(** [data.get(key, default)]: only a dict has [get]. *)
Definition dict_get (data : pyval) (key : string) (dflt : pyval) : result pyval :=
  match data with
  | PDict d => Ok (default dflt (d !! key))
  | _ => Raise "AttributeError"
  end.

(** [[data.get(header, "N/A") for header in headers]] *)
Fixpoint row_for (data : pyval) (headers : list string) : result (list pyval) :=
  match headers with
  | [] => Ok []
  | header :: rest =>
      match dict_get data header (PStr "N/A") with
      | Raise e => Raise e
      | Ok v =>
          match row_for data rest with
          | Raise e => Raise e
          | Ok vs => Ok (v :: vs)
          end
      end
  end.

(** *** Functions of [main.py] *)

Definition authenticate_google_services
  : M (option drive_handle * option sheets_handle) :=
  emit Authenticate;;
  log INFO "Attempting to authenticate with Google services...";;
  try_except
    (if negb (opt_str_truthy (GCP_SERVICE_ACCOUNT_KEY E)) then
       log ERROR "CRITICAL: GCP_SA_KEY environment variable not found.";;
       mret (None, None)
     else
       creds_info ← lift (json_loads E (default "" (GCP_SERVICE_ACCOUNT_KEY E)));
       lift (build_clients E creds_info);;
       log INFO "SUCCESS: Authentication with Google services complete.";;
       mret (Some DriveService, Some GspreadClient))
    (fun e =>
       log ERROR "CRITICAL: Authentication failed: {e}";;
       mret (None, None)).

(** The [while not done] loop runs once per chunk the transfer delivers. *)
Definition download_file (drive_service : drive_handle) (fid : string)
  : M (list Byte.byte) :=
  emit (Download fid);;
  log INFO "Starting download for file ID: {file_id}";;
  chunks ← lift (get_media E fid);
  for_each chunks (fun _ =>
    log INFO "Download progress: {int(status.progress() * 100)}%");;
  log INFO "SUCCESS: File download complete.";;
  mret (concat chunks).

(** The [with] block that creates and fills the temporary file comes
    first, outside the [try]; the [try] has both an [except] and a
    [finally]. *)
Definition transcribe_audio (file_content : list Byte.byte)
    (original_filename : string) : M pyval :=
  emit (Transcribe original_filename);;
  log INFO "Starting transcription process...";;
  temp_file_path ← NamedTemporaryFile (splitext_ext original_filename);
  temp_file_write temp_file_path file_content;;
  try_finally
    (try_except
       (log INFO "Initializing Whisper model (tiny.en)...";;
        lift (whisper_load E);;
        log INFO "Transcribing {temp_file_path}...";;
        segments ← model_transcribe temp_file_path;
        let transcript := PyStr.join " " segments in
        log INFO "SUCCESS: Transcription completed. Transcript length: {len(transcript)} characters.";;
        mret (PStr (PyStr.strip transcript)))
       (fun e =>
          log ERROR "ERROR: Transcription failed: {e}";;
          mret PNone))
    (os_remove temp_file_path;;
     log INFO "Cleaned up temporary file: {temp_file_path}").

(** The log line that reports success comes before [json.loads], as in the
    source. *)
Definition analyze_transcript_with_gemini (transcript : pyval)
    (owner_name : string) : M pyval :=
  emit (Analyze transcript owner_name);;
  log INFO "Starting analysis with Gemini...";;
  if negb (opt_str_truthy (GEMINI_API_KEY E)) then
    log ERROR "CRITICAL: GEMINI_API_KEY environment variable not found.";;
    mret PNone
  else
    try_except
      (response_text ← lift (generate_content E transcript owner_name);
       log INFO "SUCCESS: Analysis with Gemini complete.";;
       lift (json_loads E response_text))
      (fun e =>
         log ERROR "ERROR: Gemini API analysis failed: {e}";;
         mret PNone).

(** The whole body is one [try]; [headers] is rebound to [header_keys] after
    these were appended. *)
Definition write_to_google_sheets (gsheets_client : sheets_handle)
    (data : pyval) : M unit :=
  emit (WriteSheet data);;
  log INFO "Attempting to write data to Google Sheets...";;
  try_except
    (sheets_call OpenByKey;;
     sheets_call GetWorksheet;;
     headers ← row_values_1;
     headers ← (if bool_decide (headers = []) then
                  log WARNING "No headers found in the Google Sheet. Writing data keys as headers first.";;
                  append_row (map PStr header_keys);;
                  emit (HeaderWritten header_keys);;
                  mret header_keys
                else mret headers);
     row_to_insert ← lift (row_for data headers);
     append_row row_to_insert;;
     emit (RowAppended row_to_insert);;
     log INFO "SUCCESS: Data for '{data.get('Society Name', 'N/A')}' written to Google Sheets.")
    (fun e => log ERROR "ERROR: Failed to write to Google Sheets: {e}").

Definition move_file_to_processed (drive_service : drive_handle)
    (fid source_folder_id : string) : M unit :=
  emit (MoveFile fid source_folder_id);;
  log INFO "Attempting to move file {file_id} to processed folder...";;
  try_except
    (files_update fid PROCESSED_FOLDER_ID source_folder_id;;
     log INFO "SUCCESS: File {file_id} moved to processed folder.")
    (fun e => log ERROR "ERROR: Failed to move file {file_id}: {e}").

(** The body of [for file in files:]. *)
Definition process_file (drive_service : drive_handle)
    (gsheets_client : sheets_handle) (member_name folder_id : string)
    (f : file) : M unit :=
  log INFO "--- Processing file: {file_name} (ID: {file_id}) ---";;
  try_except
    (file_content ← download_file drive_service (file_id f);
     transcript ← transcribe_audio file_content (file_name f);
     if truthy transcript then
       analysis_data ← analyze_transcript_with_gemini transcript member_name;
       (if truthy analysis_data then
          write_to_google_sheets gsheets_client analysis_data;;
          move_file_to_processed drive_service (file_id f) folder_id
        else mret tt);;
       emit (Sleep 20)
     else mret tt)
    (fun e => log ERROR "ERROR processing file {file_name}: {e}").

(** The body of [for member_name, folder_id in TEAM_FOLDERS.items():]. *)
Definition process_folder (drive_service : drive_handle)
    (gsheets_client : sheets_handle) (member : string * string) : M unit :=
  let '(member_name, folder_id) := member in
  log INFO "--- Checking folder for team member: {member_name} (Folder ID: {folder_id}) ---";;
  try_except
    (log INFO "Executing Drive search query: {query}";;
     emit (FilesList folder_id);;
     w ← get_world;
     files ← lift (files_list E (parents w) folder_id);
     log INFO "Found {len(files)} new file(s) for {member_name}.";;
     match files with
     | [] => mret tt
     | _ => for_each files
              (process_file drive_service gsheets_client member_name folder_id)
     end)
    (fun e => log ERROR "CRITICAL ERROR while processing {member_name}'s folder: {e}").

(** The two early [return]s are the two [log ERROR] branches. *)
Definition main : M unit :=
  log INFO "--- Starting main execution ---";;
  if negb (str_truthy GOOGLE_SHEET_ID) || negb (str_truthy PROCESSED_FOLDER_ID) then
    log ERROR "CRITICAL: GOOGLE_SHEET_ID or PROCESSED_FOLDER_ID not set in the script."
  else
    '(drive_service, gsheets_client) ← authenticate_google_services;
    match drive_service, gsheets_client with
    | Some drive_service, Some gsheets_client =>
        log INFO "Starting to check team folders...";;
        for_each TEAM_FOLDERS (process_folder drive_service gsheets_client);;
        log INFO "--- Main execution finished ---"
    | _, _ => log ERROR "CRITICAL: Exiting due to authentication failure."
    end.

End Script.

(** ** Vocabulary for the statements *)

(** The postcondition of a run: [wp m w Q] says that running [m] from [w]
    ends with an outcome, a world and a trace that satisfy [Q]. *)
Definition wp {A} (m : M A) (w : world)
    (Q : result A -> world -> list event -> Prop) : Prop :=
  Q (outcome (m w)) (final (m w)) (trace (m w)).

(** *** Traces *)

(** How often an event of a given kind occurs in a trace; that none occurs;
    that nothing else occurs. *)
Definition count (P : event -> bool) (t : list event) : nat :=
  length (List.filter P t).

Definition none (P : event -> bool) (t : list event) : Prop :=
  Forall (fun ev => P ev = false) t.

Definition only (P : event -> bool) (t : list event) : Prop :=
  Forall (fun ev => P ev = true) t.

(** Single kinds of event. *)
Definition is_log (ev : event) : bool :=
  match ev with
  | Log _ _ => true
  | _ => false
  end.

Definition is_transcribe (ev : event) : bool :=
  match ev with
  | Transcribe _ => true
  | _ => false
  end.

Definition is_header_written (ev : event) : bool :=
  match ev with
  | HeaderWritten _ => true
  | _ => false
  end.

Definition is_row_appended (ev : event) : bool :=
  match ev with
  | RowAppended _ => true
  | _ => false
  end.

Definition is_sheet_event (ev : event) : bool :=
  is_header_written ev || is_row_appended ev.

Definition is_sleep (ev : event) : bool :=
  match ev with
  | Sleep _ => true
  | _ => false
  end.

(** The kinds of event each function of the script emits by itself. *)
Definition of_authenticate (ev : event) : bool :=
  match ev with
  | Log _ _ | Authenticate => true
  | _ => false
  end.

Definition of_download (ev : event) : bool :=
  match ev with
  | Log _ _ | Download _ => true
  | _ => false
  end.

Definition of_transcribe (ev : event) : bool :=
  match ev with
  | Log _ _ | Transcribe _ => true
  | _ => false
  end.

Definition of_analyze (ev : event) : bool :=
  match ev with
  | Log _ _ | Analyze _ _ => true
  | _ => false
  end.

Definition of_write (ev : event) : bool :=
  match ev with
  | Log _ _ | WriteSheet _ | HeaderWritten _ | RowAppended _ => true
  | _ => false
  end.

Definition of_move (ev : event) : bool :=
  match ev with
  | Log _ _ | MoveFile _ _ => true
  | _ => false
  end.

(** Events of the first two statements of the loop body. *)
Definition of_fetch (ev : event) : bool :=
  match ev with
  | Log _ _ | Download _ | Transcribe _ => true
  | _ => false
  end.

(** Events of the Sheet Writer and of the Archiver. *)
Definition is_write_or_move (ev : event) : bool :=
  match ev with
  | WriteSheet _ | HeaderWritten _ | RowAppended _ | MoveFile _ _ => true
  | _ => false
  end.

(** Events of everything that follows transcription in the loop body. *)
Definition is_downstream (ev : event) : bool :=
  match ev with
  | Analyze _ _ | WriteSheet _ | HeaderWritten _ | RowAppended _
  | MoveFile _ _ | Sleep _ => true
  | _ => false
  end.

(** Events of folder listing and per-file processing: all but logging and
    the authentication attempt. *)
Definition is_processing (ev : event) : bool :=
  match ev with
  | Log _ _ | Authenticate => false
  | _ => true
  end.

(** *** The Sheet Writer *)

(** The header list a call of the Sheet Writer works with: row 1 as read
    or, when that is empty, the canonical headers it writes first. *)
Definition headers_in_use (w : world) : list string :=
  if bool_decide (row1 (sheet w) = []) then header_keys else row1 (sheet w).

(** The row the sheet holds once the canonical headers were appended. *)
Definition header_row (E : env) : list string :=
  map (cell_text E) (map PStr header_keys).

(** The sheet is entirely empty, or its first row is not. *)
Definition headed_or_empty (rows : list (list string)) : Prop :=
  rows = [] \/ row1 rows <> [].

(** No spreadsheet call fails, whatever the sheet holds. *)
Definition sheets_up (E : env) : Prop :=
  forall op rows, sheets_fault E op rows = None.

(** A sequence of Sheet Writer invocations, each with its own environment
    and record. *)
Definition write_all (gc : sheets_handle) (calls : list (env * pyval)) : M unit :=
  for_each calls (fun c => write_to_google_sheets c.1 gc c.2).

(** What one call of the Sheet Writer can do to the worksheet: the rows it
    got accepted, in order, and the sheet afterwards.  A failed call stops
    the writer wherever it is, so a header row may stand alone. *)
Inductive write_effect (E : env) (data : pyval) (rows : list (list string))
  : list event -> list (list string) -> Prop :=
| write_nothing :
    write_effect E data rows [] rows
| write_header_only :
    row1 rows = [] ->
    write_effect E data rows [HeaderWritten header_keys] (rows ++ [header_row E])
| write_header_and_row row :
    row1 rows = [] ->
    row_for data header_keys = Ok row ->
    write_effect E data rows [HeaderWritten header_keys; RowAppended row]
      (rows ++ [header_row E; map (cell_text E) row])
| write_row row :
    row1 rows <> [] ->
    row_for data (row1 rows) = Ok row ->
    write_effect E data rows [RowAppended row] (rows ++ [map (cell_text E) row]).

(** *** The loop body, in two halves *)

(** The first two statements of the loop body: download, then transcribe. *)
Definition fetch_transcript (E : env) (ds : drive_handle) (f : file) : M pyval :=
  file_content ← download_file E ds (file_id f);
  transcribe_audio E file_content (file_name f).

(** What the loop body does once it holds a transcript. *)
Definition after_transcription (E : env) (ds : drive_handle) (gc : sheets_handle)
    (member_name folder_id : string) (f : file) (transcript : pyval) : M unit :=
  if truthy transcript then
    analysis_data ← analyze_transcript_with_gemini E transcript member_name;
    (if truthy analysis_data then
       write_to_google_sheets E gc analysis_data;;
       move_file_to_processed E ds (file_id f) folder_id
     else mret tt);;
    emit (Sleep 20)
  else mret tt.

(** *** Return values, read off the environment

    What the Credential Provider, the Transcriber and the Analyzer return,
    as functions of the oracle alone.  That the code returns these values is
    proved below ([authenticate_google_services_spec],
    [transcribe_audio_spec], [analyze_transcript_with_gemini_spec]). *)

Definition clients_of (E : env) : option drive_handle * option sheets_handle :=
  if negb (opt_str_truthy (GCP_SERVICE_ACCOUNT_KEY E)) then (None, None)
  else match json_loads E (default "" (GCP_SERVICE_ACCOUNT_KEY E)) with
       | Raise _ => (None, None)
       | Ok creds_info =>
           match build_clients E creds_info with
           | Raise _ => (None, None)
           | Ok _ => (Some DriveService, Some GspreadClient)
           end
       end.

(** For the Transcriber: when it could write its temporary file. *)
Definition transcript_of (E : env) (content : list Byte.byte) (name : string) : pyval :=
  match whisper_load E, whisper_transcribe E (splitext_ext name) content with
  | Ok _, Ok segments => PStr (PyStr.strip (PyStr.join " " segments))
  | _, _ => PNone
  end.

Definition analysis_of (E : env) (transcript : pyval) (owner_name : string) : pyval :=
  if negb (opt_str_truthy (GEMINI_API_KEY E)) then PNone
  else match generate_content E transcript owner_name with
       | Raise _ => PNone
       | Ok text =>
           match json_loads E text with
           | Raise _ => PNone
           | Ok v => v
           end
       end.

(** ** Sample environments and worlds

    Concrete answers for the outside services, used to run the script on
    explicit inputs. *)

Module Sample.

Definition quote : string := String "034"%char EmptyString.

(** [{"Society Name": "Acme"}] and [{"type": "service_account"}] *)
Definition acme_json : string :=
  ("{" ++ quote ++ "Society Name" ++ quote ++ ": "
       ++ quote ++ "Acme" ++ quote ++ "}")%string.

Definition sa_json : string :=
  ("{" ++ quote ++ "type" ++ quote ++ ": "
       ++ quote ++ "service_account" ++ quote ++ "}")%string.

Definition acme : gmap string pyval := {[ "Society Name" := PStr "Acme" ]}.

(** [json.loads] on the handful of texts the samples use; everything else is
    rejected.  [NaN] is among the texts Python's parser accepts: it returns
    the float nan. *)
Definition loads (s : string) : result pyval :=
  if String.eqb s acme_json then Ok (PDict acme)
  else if String.eqb s sa_json then Ok (PDict {[ "type" := PStr "service_account" ]})
  else if String.eqb s "{}" then Ok (PDict ∅)
  else if String.eqb s "[1]" then Ok (PList [PInt 1])
  else if String.eqb s "null" then Ok PNone
  else if String.eqb s "NaN" then Ok (PFloat S754_nan)
  else Raise "JSONDecodeError".

Definition text_of (v : pyval) : string :=
  match v with
  | PStr s => s
  | PNone => ""
  | PBool true => "TRUE"
  | PBool false => "FALSE"
  | _ => "#"
  end.

Definition sharath_folder : string := "1Ddvswz50pgniX3WTQdV-gd2wEz56di5H".

Definition recording : file := File "f1" "rec.mp3".

(** An environment in which Sharath's folder holds one recording, given by
    what the varying services answer. *)
Definition sample_env (sa_key : option string) (write : result unit)
    (segments : result (list string)) (response : result string)
    (sheets : sheets_op -> option exn) : env :=
  {| GCP_SERVICE_ACCOUNT_KEY := sa_key;
     GEMINI_API_KEY := Some "key";
     json_loads := loads;
     build_clients := fun _ => Ok tt;
     files_list := fun _ folder_id =>
       if String.eqb folder_id sharath_folder then Ok [recording] else Ok [];
     get_media := fun _ => Ok [[Byte.x49; Byte.x44]; [Byte.x33]];
     tmp_create := fun _ => None;
     tmp_write := fun _ => write;
     tmp_written := fun _ => 0;
     whisper_load := Ok tt;
     whisper_transcribe := fun _ _ => segments;
     generate_content := fun _ _ => response;
     sheets_fault := fun op _ => sheets op;
     cell_text := text_of;
     files_update_fault := fun _ _ => None |}.

Definition no_fault : sheets_op -> option exn := fun _ => None.

(** Everything works. *)
Definition E_ok : env :=
  sample_env (Some sa_json) (Ok tt) (Ok [" hello"; "world "]) (Ok acme_json) no_fault.

(** Writing the temporary file fails (the disk is full). *)
Definition E_disk_full : env :=
  sample_env (Some sa_json) (Raise "OSError: [Errno 28] No space left on device")
    (Ok [" hello"; "world "]) (Ok acme_json) no_fault.

(** The speech model fails on the recording. *)
Definition E_whisper_fails : env :=
  sample_env (Some sa_json) (Ok tt) (Raise "RuntimeError") (Ok acme_json) no_fault.

(** The recording holds no speech: no segments. *)
Definition E_silence : env :=
  sample_env (Some sa_json) (Ok tt) (Ok []) (Ok acme_json) no_fault.

(** The language model answers with text that is not JSON. *)
Definition E_not_json : env :=
  sample_env (Some sa_json) (Ok tt) (Ok [" hello"; "world "])
    (Ok "Sorry, I cannot help with that.") no_fault.

(** The spreadsheet cannot be opened. *)
Definition E_sheet_down : env :=
  sample_env (Some sa_json) (Ok tt) (Ok [" hello"; "world "]) (Ok acme_json)
    (fun op => match op with OpenByKey => Some "APIError" | _ => None end).

(** The service-account secret is not set, or does not parse. *)
Definition E_no_secret : env :=
  sample_env None (Ok tt) (Ok [" hello"; "world "]) (Ok acme_json) no_fault.

Definition E_bad_secret : env :=
  sample_env (Some "{type: service_account") (Ok tt) (Ok [" hello"; "world "])
    (Ok acme_json) no_fault.

(** Worlds: the recording sits in Sharath's folder, there are no temporary
    files, and the sheet is empty, headed, or has a blank first row above
    other content. *)
Definition drive0 : gmap string (gset string) := {[ "f1" := {[ sharath_folder ]} ]}.

Definition w_empty : world := World [] drive0 ∅.
Definition w_headed : world := World [["Society Name"; "Owner"]] drive0 ∅.
Definition w_blank_row1 : world := World [[]; ["notes"]] drive0 ∅.

End Sample.

(** ** Vocabulary for the run as a whole *)

(** More single kinds of event. *)
Definition is_files_list (ev : event) : bool :=
  match ev with
  | FilesList _ => true
  | _ => false
  end.

Definition is_download (ev : event) : bool :=
  match ev with
  | Download _ => true
  | _ => false
  end.

Definition is_analyze (ev : event) : bool :=
  match ev with
  | Analyze _ _ => true
  | _ => false
  end.

Definition is_write_sheet (ev : event) : bool :=
  match ev with
  | WriteSheet _ => true
  | _ => false
  end.

Definition is_move_file (ev : event) : bool :=
  match ev with
  | MoveFile _ _ => true
  | _ => false
  end.

(** A trace without its log lines: the calls and effects alone. *)
Definition skeleton (t : list event) : list event :=
  List.filter (fun ev => negb (is_log ev)) t.

(** Whether a character occurs in a string. *)
Fixpoint has_char (c : ascii) (s : string) : bool :=
  match s with
  | EmptyString => false
  | String c' s' => Ascii.eqb c' c || has_char c s'
  end.

Definition is_dict (v : pyval) : bool :=
  match v with
  | PDict _ => true
  | _ => false
  end.

(** What the Transcriber hands back for a buffer and a file name: the
    exception of the temporary-file step when the file could not be created
    or written, and else what the speech model made of the file. *)
Definition transcribed (E : env) (content : list Byte.byte) (name : string)
  : result pyval :=
  match tmp_create E (splitext_ext name), tmp_write E content with
  | Some e, _ => Raise e
  | None, Raise e => Raise e
  | None, Ok _ => Ok (transcript_of E content name)
  end.

(** The steps one file goes through, log lines left out, and the sheet
    afterwards, each with what makes the run take it.  The pipeline runs in
    order and stops early at one of three points: after the download when
    it raised; after the transcription when it raised or returned a falsy
    transcript; after the analysis, and the wait, when the result is falsy.
    The wait closes every run that reached the Analyzer; only a run that
    reached the Sheet Writer can have changed the sheet. *)
Inductive pipeline (E : env) (member_name folder_id : string) (f : file)
    (rows : list (list string)) : list event -> list (list string) -> Prop :=
| stops_at_download e :
    get_media E (file_id f) = Raise e ->
    pipeline E member_name folder_id f rows [Download (file_id f)] rows
| stops_at_temp_file chunks e :
    get_media E (file_id f) = Ok chunks ->
    transcribed E (concat chunks) (file_name f) = Raise e ->
    pipeline E member_name folder_id f rows
      [Download (file_id f); Transcribe (file_name f)] rows
| stops_at_transcription chunks transcript :
    get_media E (file_id f) = Ok chunks ->
    transcribed E (concat chunks) (file_name f) = Ok transcript ->
    truthy transcript = false ->
    pipeline E member_name folder_id f rows
      [Download (file_id f); Transcribe (file_name f)] rows
| stops_at_analysis chunks transcript :
    get_media E (file_id f) = Ok chunks ->
    transcribed E (concat chunks) (file_name f) = Ok transcript ->
    truthy transcript = true ->
    truthy (analysis_of E transcript member_name) = false ->
    pipeline E member_name folder_id f rows
      [Download (file_id f); Transcribe (file_name f);
       Analyze transcript member_name; Sleep 20] rows
| runs_through chunks transcript sheet_events rows' :
    get_media E (file_id f) = Ok chunks ->
    transcribed E (concat chunks) (file_name f) = Ok transcript ->
    truthy transcript = true ->
    truthy (analysis_of E transcript member_name) = true ->
    write_effect E (analysis_of E transcript member_name) rows sheet_events rows' ->
    pipeline E member_name folder_id f rows
      ([Download (file_id f); Transcribe (file_name f);
        Analyze transcript member_name;
        WriteSheet (analysis_of E transcript member_name)]
       ++ sheet_events
       ++ [MoveFile (file_id f) folder_id; Sleep 20]) rows'.

(** How the world may differ after part of a run: rows are only added at
    the end of the sheet; temporary files present before are still there,
    unchanged; Drive holds the same files, and a file has no parent it did
    not have before, the processed folder apart. *)
Definition evolves (w w' : world) : Prop :=
  sheet w `prefix_of` sheet w' /\
  tmpdir w ⊆ tmpdir w' /\
  dom (parents w') = dom (parents w) /\
  forall fid ps ps',
    parents w !! fid = Some ps -> parents w' !! fid = Some ps' ->
    ps' ⊆ {[PROCESSED_FOLDER_ID]} ∪ ps.

(** How the events of a run add up: one wait per analysis, one Archiver
    call per Sheet Writer call, and no stage entered more often than the
    stage before it. *)
Definition tallies (t : list event) : Prop :=
  count is_sleep t = count is_analyze t /\
  count is_move_file t = count is_write_sheet t /\
  count is_transcribe t <= count is_download t /\
  count is_analyze t <= count is_transcribe t /\
  count is_write_sheet t <= count is_analyze t /\
  count is_header_written t <= count is_write_sheet t /\
  count is_row_appended t <= count is_write_sheet t.

(** A part of a run, from [w] to [w'] with trace [t], is in order: the
    world evolved, the events add up, and every row the sheet gained is
    accounted for by an event. *)
Definition in_order (w w' : world) (t : list event) : Prop :=
  evolves w w' /\ tallies t /\
  length (sheet w') = length (sheet w) + count is_sheet_event t.

(** The Drive update the Archiver asks for, on the parents of one file. *)
Definition relabel (source_folder_id : string) (ps : gset string) : gset string :=
  ({[PROCESSED_FOLDER_ID]} ∪ ps) ∖ {[source_folder_id]}.

(** The files a folder's listing gives the loop: those Drive returned, none
    when the listing call raised. *)
Definition listed (E : env) (w : world) (folder_id : string) : list file :=
  match files_list E (parents w) folder_id with
  | Ok files => files
  | Raise _ => []
  end.

(** ** More sample environments *)

Module Cases.

(** Overriding one answer of an environment. *)
Definition with_get_media (E : env)
    (g : string -> result (list (list Byte.byte))) : env :=
  Env (GCP_SERVICE_ACCOUNT_KEY E) (GEMINI_API_KEY E) (json_loads E)
    (build_clients E) (files_list E) g (tmp_create E) (tmp_write E)
    (tmp_written E) (whisper_load E)
    (whisper_transcribe E) (generate_content E) (sheets_fault E) (cell_text E)
    (files_update_fault E).

Definition with_files_list (E : env)
    (l : gmap string (gset string) -> string -> result (list file)) : env :=
  Env (GCP_SERVICE_ACCOUNT_KEY E) (GEMINI_API_KEY E) (json_loads E)
    (build_clients E) l (get_media E) (tmp_create E) (tmp_write E)
    (tmp_written E) (whisper_load E)
    (whisper_transcribe E) (generate_content E) (sheets_fault E) (cell_text E)
    (files_update_fault E).

Definition with_build_clients (E : env) (b : pyval -> result unit) : env :=
  Env (GCP_SERVICE_ACCOUNT_KEY E) (GEMINI_API_KEY E) (json_loads E)
    b (files_list E) (get_media E) (tmp_create E) (tmp_write E)
    (tmp_written E) (whisper_load E)
    (whisper_transcribe E) (generate_content E) (sheets_fault E) (cell_text E)
    (files_update_fault E).

Definition with_gemini_key (E : env) (k : option string) : env :=
  Env (GCP_SERVICE_ACCOUNT_KEY E) k (json_loads E)
    (build_clients E) (files_list E) (get_media E) (tmp_create E) (tmp_write E)
    (tmp_written E) (whisper_load E)
    (whisper_transcribe E) (generate_content E) (sheets_fault E) (cell_text E)
    (files_update_fault E).

Definition with_tmp_create (E : env) (c : string -> option exn) : env :=
  Env (GCP_SERVICE_ACCOUNT_KEY E) (GEMINI_API_KEY E) (json_loads E)
    (build_clients E) (files_list E) (get_media E) c (tmp_write E)
    (tmp_written E) (whisper_load E)
    (whisper_transcribe E) (generate_content E) (sheets_fault E) (cell_text E)
    (files_update_fault E).

Definition with_tmp_written (E : env) (n : list Byte.byte -> nat) : env :=
  Env (GCP_SERVICE_ACCOUNT_KEY E) (GEMINI_API_KEY E) (json_loads E)
    (build_clients E) (files_list E) (get_media E) (tmp_create E) (tmp_write E)
    n (whisper_load E)
    (whisper_transcribe E) (generate_content E) (sheets_fault E) (cell_text E)
    (files_update_fault E).

Definition with_files_update_fault (E : env)
    (u : string -> string -> option exn) : env :=
  Env (GCP_SERVICE_ACCOUNT_KEY E) (GEMINI_API_KEY E) (json_loads E)
    (build_clients E) (files_list E) (get_media E) (tmp_create E) (tmp_write E)
    (tmp_written E) (whisper_load E)
    (whisper_transcribe E) (generate_content E) (sheets_fault E) (cell_text E) u.

(** The language model answers with the empty JSON object, or with a JSON
    list. *)
Definition E_empty_object : env :=
  Sample.sample_env (Some Sample.sa_json) (Ok tt) (Ok [" hello"; "world "])
    (Ok "{}") Sample.no_fault.

Definition E_json_list : env :=
  Sample.sample_env (Some Sample.sa_json) (Ok tt) (Ok [" hello"; "world "])
    (Ok "[1]") Sample.no_fault.

(** The language model answers [NaN]. *)
Definition E_nan : env :=
  Sample.sample_env (Some Sample.sa_json) (Ok tt) (Ok [" hello"; "world "])
    (Ok "NaN") Sample.no_fault.

(** The recording yields segments that hold whitespace only. *)
Definition E_blank : env :=
  Sample.sample_env (Some Sample.sa_json) (Ok tt) (Ok ["  "; " "])
    (Ok Sample.acme_json) Sample.no_fault.

(** The download fails; the listing fails; the listing is empty; the
    credentials are rejected; the model key is not set; the model call
    fails; the Drive update fails. *)
Definition E_download_fails : env :=
  with_get_media Sample.E_ok (fun _ => Raise "HttpError 500").

Definition E_listing_fails : env :=
  with_files_list Sample.E_ok (fun _ _ => Raise "HttpError 403").

Definition E_no_files : env :=
  with_files_list Sample.E_ok (fun _ _ => Ok []).

Definition E_rejected : env :=
  with_build_clients Sample.E_ok (fun _ => Raise "ValueError").

Definition E_no_model_key : env := with_gemini_key Sample.E_ok None.

Definition E_model_fails : env :=
  Sample.sample_env (Some Sample.sa_json) (Ok tt) (Ok [" hello"; "world "])
    (Raise "ResourceExhausted") Sample.no_fault.

Definition E_move_fails : env :=
  with_files_update_fault Sample.E_ok (fun _ _ => Some "HttpError 403").

(** The disk fills up after two bytes of the buffer; the temporary file
    cannot be created. *)
Definition E_partial_write : env :=
  with_tmp_written Sample.E_disk_full (fun _ => 2).

Definition E_name_too_long : env :=
  with_tmp_create Sample.E_ok
    (fun _ => Some "OSError: [Errno 36] File name too long").

(** Two recordings in one folder. *)
Definition second : file := File "f2" "call.wav".

Definition E_two_files : env :=
  with_files_list Sample.E_ok (fun _ folder_id =>
    if String.eqb folder_id Sample.sharath_folder
    then Ok [Sample.recording; second] else Ok []).

Definition w_two : world :=
  World [] {[ "f1" := {[ Sample.sharath_folder ]};
              "f2" := {[ Sample.sharath_folder ]} ]} ∅.

End Cases.

(** * Reasoning about runs *)

Arguments header_keys : simpl never.

Section Rules.

Context {A B : Type}.
Implicit Types (w : world) (t : list event).

Lemma wp_ret (a : A) w Q : Q (Ok a) w [] -> wp (mret a) w Q.
Proof. done. Qed.

Lemma wp_raise (e : exn) w (Q : result A -> _) : Q (Raise e) w [] -> wp (raise e) w Q.
Proof. done. Qed.

Lemma wp_lift (r : result A) w Q : Q r w [] -> wp (lift r) w Q.
Proof. done. Qed.

Lemma wp_bind (m : M A) (k : A -> M B) w Q :
  wp m w (fun r w1 t1 =>
    match r with
    | Ok a => wp (k a) w1 (fun r2 w2 t2 => Q r2 w2 (t1 ++ t2))
    | Raise e => Q (Raise e) w1 t1
    end) ->
  wp (m ≫= k) w Q.
Proof.
  unfold wp, outcome, final, trace, mbind, M_bind.
  destruct (m w) as [[[a|e] w1] t1]; simpl; [|done].
  by destruct (k a w1) as [[r2 w2] t2].
Qed.

Lemma wp_try_except (body : M A) (handler : exn -> M A) w Q :
  wp body w (fun r w1 t1 =>
    match r with
    | Ok a => Q (Ok a) w1 t1
    | Raise e => wp (handler e) w1 (fun r2 w2 t2 => Q r2 w2 (t1 ++ t2))
    end) ->
  wp (try_except body handler) w Q.
Proof.
  unfold wp, outcome, final, trace, try_except.
  destruct (body w) as [[[a|e] w1] t1]; simpl; [done|].
  by destruct (handler e w1) as [[r2 w2] t2].
Qed.

Lemma wp_try_finally (body : M A) (fin : M unit) w Q :
  wp body w (fun r w1 t1 =>
    wp fin w1 (fun r2 w2 t2 =>
      match r2 with
      | Ok _ => Q r w2 (t1 ++ t2)
      | Raise e => Q (Raise e) w2 (t1 ++ t2)
      end)) ->
  wp (try_finally body fin) w Q.
Proof.
  unfold wp, outcome, final, trace, try_finally.
  destruct (body w) as [[r w1] t1]; simpl.
  by destruct (fin w1) as [[[[]|e] w2] t2].
Qed.

Lemma wp_mono (m : M A) w (Q Q' : result A -> world -> list event -> Prop) :
  wp m w Q -> (forall r w' t, Q r w' t -> Q' r w' t) -> wp m w Q'.
Proof. unfold wp. auto. Qed.

(** A run that is known, as an equation. *)
Lemma wp_run (m : M A) w r w' t Q : m w = (r, w', t) -> Q r w' t -> wp m w Q.
Proof. unfold wp. by intros ->. Qed.

End Rules.

Lemma wp_emit ev w Q : Q (Ok tt) w [ev] -> wp (emit ev) w Q.
Proof. done. Qed.

Lemma wp_log lvl msg w Q : Q (Ok tt) w [Log lvl msg] -> wp (log lvl msg) w Q.
Proof. done. Qed.

Lemma wp_get_world w Q : Q (Ok w) w [] -> wp get_world w Q.
Proof. done. Qed.

Lemma wp_put_world w' w Q : Q (Ok tt) w' [] -> wp (put_world w') w Q.
Proof. done. Qed.

Lemma wp_fail_when o w Q :
  match o with
  | Some e => Q (Raise e) w []
  | None => Q (Ok tt) w []
  end ->
  wp (fail_when o) w Q.
Proof. by destruct o. Qed.

(** One step of symbolic execution: peel the head of the computation. *)
Ltac wp_step :=
  lazymatch goal with
  | |- wp (mbind _ _) _ _ => apply wp_bind
  | |- wp (mret _) _ _ => apply wp_ret
  | |- wp (raise _) _ _ => apply wp_raise
  | |- wp (lift _) _ _ => apply wp_lift
  | |- wp (emit _) _ _ => apply wp_emit
  | |- wp (log _ _) _ _ => apply wp_log
  | |- wp get_world _ _ => apply wp_get_world
  | |- wp (put_world _) _ _ => apply wp_put_world
  | |- wp (fail_when _) _ _ => apply wp_fail_when
  | |- wp (try_except _ _) _ _ => apply wp_try_except
  | |- wp (try_finally _ _) _ _ => apply wp_try_finally
  end; cbv beta iota.

Ltac wp_steps := repeat wp_step.

(** Facts about traces. *)

Lemma only_nil P : only P [].
Proof. constructor. Qed.

Lemma only_cons P ev t : P ev = true -> only P t -> only P (ev :: t).
Proof. by constructor. Qed.

Lemma only_app P t1 t2 : only P t1 -> only P t2 -> only P (t1 ++ t2).
Proof. apply Forall_app_2. Qed.

Lemma only_weaken (P P' : event -> bool) t :
  (forall ev, P ev = true -> P' ev = true) -> only P t -> only P' t.
Proof. intros H Ht. eapply Forall_impl; [exact Ht|]. auto. Qed.

(** Kinds that exclude each other: a trace made of one holds none of the
    other. *)
Lemma only_none (P P' : event -> bool) t :
  (forall ev, P ev = true -> P' ev = false) -> only P t -> none P' t.
Proof. intros H Ht. eapply Forall_impl; [exact Ht|]. auto. Qed.

Lemma none_nil P : none P [].
Proof. constructor. Qed.

Lemma none_cons P ev t : P ev = false -> none P t -> none P (ev :: t).
Proof. by constructor. Qed.

Lemma none_app P t1 t2 : none P t1 -> none P t2 -> none P (t1 ++ t2).
Proof. apply Forall_app_2. Qed.

Lemma none_count P t : none P t <-> count P t = 0.
Proof.
  unfold none, count. induction t as [|ev t IH]; simpl.
  - split; [done|constructor].
  - destruct (P ev) eqn:Hev; simpl.
    + split; [|done]. intros H. apply Forall_cons in H as [H _]. congruence.
    + rewrite <- IH. split; [by intros [_ ?]%Forall_cons|by constructor].
Qed.

Lemma count_app P t1 t2 : count P (t1 ++ t2) = count P t1 + count P t2.
Proof. unfold count. by rewrite List.filter_app, length_app. Qed.

Create HintDb trace discriminated.
#[local] Hint Resolve only_nil only_cons only_app none_nil none_cons none_app : trace.
#[local] Hint Extern 1 (_ = true) => reflexivity : trace.
#[local] Hint Extern 1 (_ = false) => reflexivity : trace.

(** * The primitive operations *)

Section Primitives.

Variable E : env.

Lemma wp_sheets_call op w Q :
  match sheets_fault E op (sheet w) with
  | Some e => Q (Raise e) w []
  | None => Q (Ok tt) w []
  end ->
  wp (sheets_call E op) w Q.
Proof. intros H. unfold sheets_call. wp_steps. exact H. Qed.

Lemma wp_row_values_1 w Q :
  match sheets_fault E RowValues (sheet w) with
  | Some e => Q (Raise e) w []
  | None => Q (Ok (row1 (sheet w))) w []
  end ->
  wp (row_values_1 E) w Q.
Proof.
  intros H. unfold row_values_1. wp_step. apply wp_sheets_call.
  destruct (sheets_fault E RowValues (sheet w)); [done|]. by wp_steps.
Qed.

Lemma wp_append_row values w Q :
  match sheets_fault E AppendRow (sheet w) with
  | Some e => Q (Raise e) w []
  | None => Q (Ok tt) (World (sheet w ++ [map (cell_text E) values])
                         (parents w) (tmpdir w)) []
  end ->
  wp (append_row E values) w Q.
Proof.
  intros H. unfold append_row. wp_step. apply wp_sheets_call.
  destruct (sheets_fault E AppendRow (sheet w)); [done|]. by wp_steps.
Qed.

Lemma wp_for_each_log {A} (l : list A) lvl msg w Q :
  (forall t, only is_log t -> Q (Ok tt) w t) ->
  wp (for_each l (fun _ => log lvl msg)) w Q.
Proof.
  revert Q. induction l as [|x l IH]; intros Q H; simpl.
  - wp_step. apply H. constructor.
  - wp_steps. apply IH. intros t Ht. apply H. by constructor.
Qed.

End Primitives.

(** * What each function does *)

Section Functions.

Variable E : env.

Lemma is_log_of_download ev : is_log ev = true -> of_download ev = true.
Proof. by destruct ev. Qed.

(** The Downloader leaves the world alone, and its first event is the
    download of the file it was asked for. *)
Lemma download_file_spec ds fid w :
  wp (download_file E ds fid) w (fun r w' t =>
    w' = w /\ only of_download t /\ head t = Some (Download fid)).
Proof.
  unfold download_file. wp_steps.
  destruct (get_media E fid) as [chunks|e];
    [|split_and!; [done| |done]; simpl; auto with trace].
  wp_step. apply wp_for_each_log. intros t Ht. wp_steps.
  split; [done|]. simpl. split; [|done].
  apply only_cons, only_cons, only_app; auto with trace.
  eapply only_weaken; [apply is_log_of_download|done].
Qed.

(** Creating, filling and removing a temporary file restores the
    directory. *)
Lemma tmpdir_restored (m : gmap nat (string * list Byte.byte)) f x :
  delete (fresh (dom m)) (alter f (fresh (dom m)) (<[fresh (dom m) := x]> m)) = m.
Proof.
  assert (m !! fresh (dom m) = None) as Hfresh.
  { apply not_elem_of_dom, is_fresh. }
  apply map_eq. intros i. destruct (decide (i = fresh (dom m))) as [->|Hne].
  - by rewrite lookup_delete_eq.
  - by rewrite lookup_delete_ne, lookup_alter_ne, lookup_insert_ne.
Qed.

(** The Transcriber, case by case.  It touches neither the sheet nor Drive.
    When the temporary file cannot be created, the exception leaves the
    function and the directory is as before.  When the file cannot be
    written, the exception leaves the function and the file stays, with the
    bytes that had reached it; otherwise the function returns, the
    directory is as before, and the value is the stripped, space-joined
    text of the segments or [None]. *)
Lemma transcribe_audio_spec content name w :
  wp (transcribe_audio E content name) w (fun r w' t =>
    sheet w' = sheet w /\ parents w' = parents w /\ only of_transcribe t /\
    match tmp_create E (splitext_ext name), tmp_write E content with
    | Some e, _ => r = Raise e /\ tmpdir w' = tmpdir w
    | None, Raise e =>
        r = Raise e /\
        tmpdir w'
        = <[fresh (dom (tmpdir w))
            := (splitext_ext name, take (tmp_written E content) content)]> (tmpdir w)
    | None, Ok _ => r = Ok (transcript_of E content name) /\ tmpdir w' = tmpdir w
    end).
Proof.
  unfold transcribe_audio, NamedTemporaryFile, temp_file_write, os_remove,
    model_transcribe, transcript_of.
  wp_steps.
  destruct (tmp_create E (splitext_ext name)) as [e0|];
    [wp_steps; by auto 10 with trace|].
  wp_steps. cbn [sheet parents tmpdir].
  destruct (tmp_write E content) as [[]|e].
  2: { wp_steps. cbn [sheet parents tmpdir].
       rewrite alter_insert_eq. by auto 10 with trace. }
  wp_steps. cbn [sheet parents tmpdir].
  destruct (whisper_load E) as [[]|e1].
  - wp_steps. cbn [sheet parents tmpdir].
    rewrite lookup_alter_eq, lookup_insert_eq. cbn [fmap option_fmap option_map fst snd app].
    wp_step.
    destruct (whisper_transcribe E (splitext_ext name) content) as [segments|e2].
    + wp_steps. cbn [sheet parents tmpdir].
      rewrite lookup_alter_eq, lookup_insert_eq. cbn [fmap option_fmap option_map].
      wp_steps. cbn [sheet parents tmpdir]. rewrite tmpdir_restored.
      simpl. by auto 20 with trace.
    + wp_steps. cbn [sheet parents tmpdir].
      rewrite lookup_alter_eq, lookup_insert_eq. cbn [fmap option_fmap option_map].
      wp_steps. cbn [sheet parents tmpdir]. rewrite tmpdir_restored.
      simpl. by auto 20 with trace.
  - wp_steps. cbn [sheet parents tmpdir].
    rewrite lookup_alter_eq, lookup_insert_eq. cbn [fmap option_fmap option_map].
    wp_steps. cbn [sheet parents tmpdir]. rewrite tmpdir_restored.
    simpl. by auto 20 with trace.
Qed.

(** The Analyzer returns, never raises, and leaves the world alone. *)
Lemma analyze_transcript_with_gemini_spec transcript owner_name w :
  wp (analyze_transcript_with_gemini E transcript owner_name) w (fun r w' t =>
    r = Ok (analysis_of E transcript owner_name) /\ w' = w /\ only of_analyze t).
Proof.
  unfold analyze_transcript_with_gemini, analysis_of. wp_steps.
  destruct (negb (opt_str_truthy (GEMINI_API_KEY E))).
  { wp_steps. by auto 10 with trace. }
  wp_steps. destruct (generate_content E transcript owner_name) as [text|e].
  - wp_steps. destruct (json_loads E text) as [v|e]; [by auto 10 with trace|].
    wp_steps. by auto 10 with trace.
  - wp_steps. by auto 10 with trace.
Qed.

Lemma row_for_dict (d : gmap string pyval) headers :
  row_for (PDict d) headers
  = Ok (map (fun header => default (PStr "N/A") (d !! header)) headers).
Proof. induction headers as [|h hs IH]; simpl; [done|]. by rewrite IH. Qed.

(** The Sheet Writer returns, never raises, touches only the sheet, and
    does to the sheet one of the four things [write_effect] lists. *)
Lemma write_to_google_sheets_spec gc data w :
  wp (write_to_google_sheets E gc data) w (fun r w' t =>
    r = Ok tt /\ parents w' = parents w /\ tmpdir w' = tmpdir w /\
    only of_write t /\
    write_effect E data (sheet w) (List.filter is_sheet_event t) (sheet w')).
Proof.
  unfold write_to_google_sheets. wp_steps.
  apply wp_sheets_call.
  destruct (sheets_fault E OpenByKey (sheet w)).
  { wp_steps. simpl. split_and!; auto 10 with trace. constructor. }
  wp_step. apply wp_sheets_call.
  destruct (sheets_fault E GetWorksheet (sheet w)).
  { wp_steps. simpl. split_and!; auto 10 with trace. constructor. }
  wp_steps. apply wp_row_values_1.
  destruct (sheets_fault E RowValues (sheet w)).
  { wp_steps. simpl. split_and!; auto 10 with trace. constructor. }
  wp_step. case_bool_decide as Hrow.
  - wp_steps. apply wp_append_row.
    destruct (sheets_fault E AppendRow (sheet w)).
    { wp_steps. simpl. split_and!; auto 10 with trace. constructor. }
    wp_steps. destruct (row_for data header_keys) as [row|e] eqn:Hfor.
    + wp_steps. apply wp_append_row. cbn [sheet parents tmpdir].
      destruct (sheets_fault E AppendRow _).
      * wp_steps. simpl. split_and!; auto 10 with trace. by constructor.
      * wp_steps. simpl. split_and!; auto 20 with trace.
        rewrite <- app_assoc. by constructor.
    + wp_steps. simpl. split_and!; auto 10 with trace. by constructor.
  - wp_steps. destruct (row_for data (row1 (sheet w))) as [row|e] eqn:Hfor.
    + wp_steps. apply wp_append_row.
      destruct (sheets_fault E AppendRow (sheet w)).
      * wp_steps. simpl. split_and!; auto 10 with trace. constructor.
      * wp_steps. simpl. split_and!; auto 20 with trace. by constructor.
    + wp_steps. simpl. split_and!; auto 10 with trace. constructor.
Qed.

(** When the spreadsheet cannot be opened the Sheet Writer changes
    nothing, and still returns. *)
Lemma write_to_google_sheets_down gc data w e :
  sheets_fault E OpenByKey (sheet w) = Some e ->
  wp (write_to_google_sheets E gc data) w (fun r w' t =>
    r = Ok tt /\ w' = w /\ none is_row_appended t).
Proof.
  intros Hdown. unfold write_to_google_sheets. wp_steps.
  apply wp_sheets_call. rewrite Hdown. wp_steps. simpl. by auto 10 with trace.
Qed.

(** With the spreadsheet service up, a call on a sheet with an empty first
    row writes the headers. *)
Lemma write_to_google_sheets_up gc data w :
  sheets_up E -> row1 (sheet w) = [] ->
  wp (write_to_google_sheets E gc data) w (fun r w' t =>
    count is_header_written t = 1).
Proof.
  intros Hup Hrow. unfold write_to_google_sheets. wp_steps.
  apply wp_sheets_call. rewrite Hup. wp_step.
  apply wp_sheets_call. rewrite Hup. wp_steps.
  apply wp_row_values_1. rewrite Hup. wp_step.
  rewrite bool_decide_eq_true_2 by done. wp_steps.
  apply wp_append_row. rewrite Hup. wp_steps.
  destruct (row_for data header_keys) as [row|e]; [|by wp_steps].
  wp_steps. apply wp_append_row. rewrite Hup. by wp_steps.
Qed.

(** The Archiver returns, never raises, and changes at most the parents of
    the one file: it relabels the file when the update call goes through
    and the file exists, and changes nothing otherwise. *)
Lemma move_file_to_processed_spec ds fid source_folder_id w :
  wp (move_file_to_processed E ds fid source_folder_id) w (fun r w' t =>
    r = Ok tt /\ sheet w' = sheet w /\ tmpdir w' = tmpdir w /\
    only of_move t /\ In (MoveFile fid source_folder_id) t /\
    parents w' =
      match files_update_fault E fid source_folder_id, parents w !! fid with
      | None, Some ps =>
          <[fid := ({[PROCESSED_FOLDER_ID]} ∪ ps) ∖ {[source_folder_id]}]> (parents w)
      | _, _ => parents w
      end).
Proof.
  unfold move_file_to_processed, files_update. wp_steps.
  destruct (files_update_fault E fid source_folder_id).
  { wp_steps. simpl. by auto 10 with trace. }
  wp_steps. destruct (parents w !! fid) as [ps|].
  - wp_steps. simpl. by auto 10 with trace.
  - wp_steps. simpl. by auto 10 with trace.
Qed.

End Functions.

(** * The loop body *)

Section LoopBody.

Variable E : env.
Variables (ds : drive_handle) (gc : sheets_handle).

Lemma bind_assoc_run {A B C} (m : M A) (k : A -> M B) (k' : B -> M C) w :
  ((m ≫= k) ≫= k') w = (m ≫= (fun a => k a ≫= k')) w.
Proof.
  unfold mbind, M_bind. destruct (m w) as [[[a|e] w1] t1]; [|done].
  destruct (k a w1) as [[[b|e] w2] t2]; [|done].
  destruct (k' b w2) as [[r w3] t3]. by rewrite app_assoc.
Qed.

Lemma try_except_ext {A} (body body' : M A) handler w :
  body w = body' w -> try_except body handler w = try_except body' handler w.
Proof. unfold try_except. by intros ->. Qed.

Lemma bind_ext_run {A B} (m : M A) (k k' : A -> M B) w :
  (forall a w', k a w' = k' a w') -> (m ≫= k) w = (m ≫= k') w.
Proof.
  intros H. unfold mbind, M_bind. destruct (m w) as [[[a|e] w1] t1]; [|done].
  by rewrite H.
Qed.

(** The loop body is: fetch the transcript, then act on it. *)
Lemma process_file_unfold member_name folder_id f w :
  process_file E ds gc member_name folder_id f w
  = (log INFO "--- Processing file: {file_name} (ID: {file_id}) ---";;
     try_except
       (transcript ← fetch_transcript E ds f;
        after_transcription E ds gc member_name folder_id f transcript)
       (fun e => log ERROR "ERROR processing file {file_name}: {e}")) w.
Proof.
  unfold process_file. apply bind_ext_run. intros _ w'.
  apply try_except_ext. unfold fetch_transcript. by rewrite bind_assoc_run.
Qed.

Lemma wp_process_file member_name folder_id f w Q :
  wp (fetch_transcript E ds f) w (fun r w1 t1 =>
    match r with
    | Ok transcript =>
        wp (after_transcription E ds gc member_name folder_id f transcript) w1
          (fun r2 w2 t2 =>
             match r2 with
             | Ok _ =>
                 Q (Ok tt) w2
                   (Log INFO "--- Processing file: {file_name} (ID: {file_id}) ---"
                    :: t1 ++ t2)
             | Raise _ =>
                 Q (Ok tt) w2
                   (Log INFO "--- Processing file: {file_name} (ID: {file_id}) ---"
                    :: (t1 ++ t2) ++ [Log ERROR "ERROR processing file {file_name}: {e}"])
             end)
    | Raise _ =>
        Q (Ok tt) w1
          (Log INFO "--- Processing file: {file_name} (ID: {file_id}) ---"
           :: t1 ++ [Log ERROR "ERROR processing file {file_name}: {e}"])
    end) ->
  wp (process_file E ds gc member_name folder_id f) w Q.
Proof.
  intros H. unfold wp at 1. rewrite process_file_unfold.
  change (wp (log INFO "--- Processing file: {file_name} (ID: {file_id}) ---";;
     try_except
       (transcript ← fetch_transcript E ds f;
        after_transcription E ds gc member_name folder_id f transcript)
       (fun e => log ERROR "ERROR processing file {file_name}: {e}")) w Q).
  wp_steps. eapply wp_mono; [exact H|]. cbv beta.
  intros [transcript|e] w1 t1 H1.
  - eapply wp_mono; [exact H1|]. cbv beta. intros [[]|e] w2 t2 H2; [done|].
    by wp_steps.
  - by wp_steps.
Qed.

(** The first two statements touch neither the sheet nor Drive, and emit
    nothing but their own events, the download of the file first. *)
Lemma fetch_transcript_spec f w :
  wp (fetch_transcript E ds f) w (fun r w' t =>
    sheet w' = sheet w /\ parents w' = parents w /\ only of_fetch t /\
    head t = Some (Download (file_id f))).
Proof.
  unfold fetch_transcript. wp_step.
  eapply wp_mono; [apply download_file_spec|]. cbv beta.
  intros [content|e] w1 t1 (-> & Ht1 & Hhead).
  - eapply wp_mono; [apply transcribe_audio_spec|]. cbv beta.
    intros r w2 t2 (Hs & Hp & Ht2 & _). split_and!; [done..| |].
    + apply only_app; (eapply only_weaken; [|eassumption]); by intros [].
    + destruct t1; [done|]. exact Hhead.
  - split_and!; [done..| |done].
    eapply only_weaken; [|eassumption]. by intros [].
Qed.

(** Acting on a transcript: nothing at all for a falsy one; otherwise the
    Analyzer, then, for a truthy result, the Sheet Writer and the Archiver
    one after the other, and in either case the wait at the end. *)
Lemma after_transcription_spec member_name folder_id f transcript w :
  wp (after_transcription E ds gc member_name folder_id f transcript) w
    (fun r w' t =>
       r = Ok tt /\
       if truthy transcript then
         exists ta, only of_analyze ta /\
           outcome (analyze_transcript_with_gemini E transcript member_name w)
             = Ok (analysis_of E transcript member_name) /\
           if truthy (analysis_of E transcript member_name) then
             exists ww tw tm,
               write_to_google_sheets E gc (analysis_of E transcript member_name) w
                 = (Ok tt, ww, tw) /\
               move_file_to_processed E ds (file_id f) folder_id ww
                 = (Ok tt, w', tm) /\
               t = ta ++ tw ++ tm ++ [Sleep 20]
           else w' = w /\ t = ta ++ [Sleep 20]
       else w' = w /\ t = []).
Proof.
  unfold after_transcription. destruct (truthy transcript); [|by wp_steps].
  wp_step.
  pose proof (analyze_transcript_with_gemini_spec E transcript member_name w) as Ha.
  eapply wp_mono; [exact Ha|]. cbv beta. intros r w1 ta (-> & -> & Hta).
  destruct Ha as (Hout & _).
  destruct (truthy (analysis_of E transcript member_name)).
  - wp_steps.
    pose proof (write_to_google_sheets_spec E gc (analysis_of E transcript member_name) w)
      as Hw. unfold wp in Hw.
    destruct (write_to_google_sheets E gc _ w) as [[rw ww] tw] eqn:Hwrite.
    unfold outcome in Hw; simpl in Hw. destruct Hw as (-> & _).
    eapply wp_run; [exact Hwrite|]. cbv beta iota.
    pose proof (move_file_to_processed_spec E ds (file_id f) folder_id ww) as Hm.
    unfold wp in Hm.
    destruct (move_file_to_processed E ds (file_id f) folder_id ww)
      as [[rm wm] tm] eqn:Hmove.
    unfold outcome in Hm; simpl in Hm. destruct Hm as (-> & _).
    eapply wp_run; [exact Hmove|]. cbv beta iota. wp_steps.
    split; [done|]. exists ta. split_and!; [done..|].
    exists ww, tw, tm. split_and!; try done.
    by rewrite <- app_assoc.
  - wp_steps. split; [done|]. exists ta. by split_and!.
Qed.

(** The loop body never raises: whatever happens to a file, the loop goes
    on to the next one. *)
Lemma process_file_total member_name folder_id f w :
  outcome (process_file E ds gc member_name folder_id f w) = Ok tt.
Proof.
  change (wp (process_file E ds gc member_name folder_id f) w
            (fun r _ _ => r = Ok tt)).
  apply wp_process_file. unfold wp.
  destruct (outcome (fetch_transcript E ds f w)); [|done].
  by destruct (outcome (after_transcription _ _ _ _ _ _ _ _)).
Qed.

End LoopBody.

(** * The Sheet Writer (C1, C2) *)

Section SheetWriter.

Variable gc : sheets_handle.

Lemma In_sheet_events ev t :
  is_sheet_event ev = true -> In ev t -> In ev (List.filter is_sheet_event t).
Proof. intros Hev Hin. apply filter_In. by split. Qed.

Lemma count_header_sheet_events t :
  count is_header_written (List.filter is_sheet_event t) = count is_header_written t.
Proof.
  unfold count. induction t as [|ev t IH]; [done|].
  destruct ev; simpl; auto.
Qed.

Lemma row1_app rows more : row1 rows <> [] -> row1 (rows ++ more) = row1 rows.
Proof. by destruct rows. Qed.

(** One call, seen from the header row. *)
Lemma write_headers_summary E data w :
  let r := write_to_google_sheets E gc data w in
  outcome r = Ok tt /\
  (forall keys, In (HeaderWritten keys) (trace r) ->
     row1 (sheet w) = [] /\ keys = header_keys) /\
  (row1 (sheet w) <> [] ->
     count is_header_written (trace r) = 0 /\
     row1 (sheet (final r)) = row1 (sheet w)) /\
  (sheet w = [] ->
     (count is_header_written (trace r) = 0 /\ sheet (final r) = []) \/
     (count is_header_written (trace r) = 1 /\ row1 (sheet (final r)) <> [])).
Proof.
  intros r. subst r.
  destruct (write_to_google_sheets_spec E gc data w) as (Hout & _ & _ & _ & Heff).
  split; [done|].
  rewrite <- count_header_sheet_events.
  split; [|split].
  - intros keys Hin. apply In_sheet_events in Hin; [|done].
    inversion Heff as [Ht|Hrow Ht|row Hrow Hfor Ht|row Hrow Hfor Ht];
      rewrite <- Ht in Hin; simpl in Hin; intuition congruence.
  - intros Hrow1.
    inversion Heff as [Ht Hs|Hrow Ht|row Hrow Hfor Ht|row Hrow Hfor Ht Hs];
      try done.
    split; [done|]. by rewrite row1_app.
  - intros Hs. rewrite Hs in Heff.
    inversion Heff as [Ht Hs'|Hrow Ht Hs'|row Hrow Hfor Ht Hs'|row Hrow Hfor Ht Hs'];
      try done; [by left|right..]; split; try done.
Qed.

(** Over a sequence of calls on a sheet with a non-empty first row, no
    header is written. *)
Lemma write_all_headed calls : forall w,
  row1 (sheet w) <> [] ->
  count is_header_written (trace (write_all gc calls w)) = 0.
Proof.
  induction calls as [|[E data] calls IH]; intros w Hrow; [done|].
  destruct (write_headers_summary E data w) as (Hout & _ & Hheaded & _).
  destruct (Hheaded Hrow) as [Hcount Hrow'].
  specialize (IH (final (write_to_google_sheets E gc data w))).
  rewrite Hrow' in IH. specialize (IH Hrow).
  unfold write_all in *. simpl. unfold mbind, M_bind.
  unfold outcome, final, trace in *.
  destruct (write_to_google_sheets E gc data w) as [[r w1] t1]. simpl in *. subst r.
  destruct (for_each calls _ w1) as [[r2 w2] t2]. simpl in *.
  rewrite count_app. lia.
Qed.

Lemma write_all_at_most_once calls : forall w,
  headed_or_empty (sheet w) ->
  count is_header_written (trace (write_all gc calls w)) <= 1.
Proof.
  induction calls as [|[E data] calls IH]; intros w Hw; [unfold count; simpl; lia|].
  destruct Hw as [Hempty|Hrow]; [|rewrite write_all_headed by done; lia].
  destruct (write_headers_summary E data w) as (Hout & _ & _ & Hfresh).
  specialize (Hfresh Hempty).
  pose proof (write_all_headed calls (final (write_to_google_sheets E gc data w)))
    as Hrest.
  specialize (IH (final (write_to_google_sheets E gc data w))).
  unfold write_all in *. simpl. unfold mbind, M_bind.
  unfold outcome, final, trace in *.
  destruct (write_to_google_sheets E gc data w) as [[r w1] t1]. simpl in *. subst r.
  destruct (for_each calls _ w1) as [[r2 w2] t2]. simpl in *.
  rewrite count_app.
  destruct Hfresh as [[-> Hs]|[-> Hrow]].
  - apply IH. by left.
  - rewrite Hrest by done. lia.
Qed.

Lemma write_all_exactly_once E data calls w :
  sheet w = [] -> sheets_up E ->
  count is_header_written (trace (write_all gc ((E, data) :: calls) w)) = 1.
Proof.
  intros Hempty Hup.
  destruct (write_headers_summary E data w) as (Hout & _ & _ & Hfresh).
  specialize (Hfresh Hempty).
  assert (count is_header_written (trace (write_to_google_sheets E gc data w)) = 1)
    as Hone.
  { apply (write_to_google_sheets_up E gc data w Hup). by rewrite Hempty. }
  pose proof (write_all_headed calls (final (write_to_google_sheets E gc data w)))
    as Hrest.
  unfold write_all in *. simpl. unfold mbind, M_bind.
  unfold outcome, final, trace in *.
  destruct (write_to_google_sheets E gc data w) as [[r w1] t1]. simpl in *. subst r.
  destruct (for_each calls _ w1) as [[r2 w2] t2]. simpl in *.
  rewrite count_app.
  destruct Hfresh as [[H0 _]|[_ Hrow]]; [congruence|].
  rewrite Hrest by done. lia.
Qed.

End SheetWriter.

(** C1.  Whenever the Sheet Writer appends a record's row, the row has one
    cell per header of the header list in use (row 1 as read, or the
    canonical headers just written to an empty sheet), in header order; the
    cell under a header is the record's value for that name, or the string
    "N/A" when the record has no such key.  That row is then the last row
    of the sheet. *)
Theorem C1_row_follows_headers E gc (d : gmap string pyval) w row :
  In (RowAppended row) (trace (write_to_google_sheets E gc (PDict d) w)) ->
  length row = length (headers_in_use w) /\
  (forall i header,
     headers_in_use w !! i = Some header ->
     row !! i = Some (match d !! header with
                      | Some v => v
                      | None => PStr "N/A"
                      end)) /\
  last (sheet (final (write_to_google_sheets E gc (PDict d) w)))
  = Some (map (cell_text E) row).
Proof.
  intros Hin. apply In_sheet_events in Hin; [|done].
  destruct (write_to_google_sheets_spec E gc (PDict d) w) as (_ & _ & _ & _ & Heff).
  assert (row_for (PDict d) (headers_in_use w) = Ok row /\
          exists rows, sheet (final (write_to_google_sheets E gc (PDict d) w))
                       = rows ++ [map (cell_text E) row]) as [Hfor Hlast].
  { unfold headers_in_use.
    inversion Heff as [Ht|Hrow Ht|row' Hrow Hfor Ht Hs|row' Hrow Hfor Ht Hs];
      rewrite <- Ht in Hin; simpl in Hin.
    - done.
    - by destruct Hin as [?|[]].
    - destruct Hin as [?|[[= <-]|[]]]; [done|].
      rewrite bool_decide_eq_true_2 by done. split; [done|].
      exists (sheet w ++ [header_row E]). by rewrite <- app_assoc.
    - destruct Hin as [[= <-]|[]].
      rewrite bool_decide_eq_false_2 by done. split; [done|]. by eexists. }
  rewrite row_for_dict in Hfor. injection Hfor as <-.
  split; [by rewrite length_map|]. split.
  - intros i header Hi. rewrite list_lookup_fmap, Hi. simpl.
    by destruct (d !! header).
  - destruct Hlast as [rows ->]. by rewrite last_snoc.
Qed.

(** The row appended for the record [{"Society Name": "Acme"}] on an empty
    sheet. *)
Lemma C1_row_follows_headers_witness :
  let row := map (fun h => default (PStr "N/A") (Sample.acme !! h)) header_keys in
  In (RowAppended row)
    (trace (write_to_google_sheets Sample.E_ok GspreadClient (PDict Sample.acme)
              Sample.w_empty)) /\
  length row = length (headers_in_use Sample.w_empty) /\
  (forall i header,
     headers_in_use Sample.w_empty !! i = Some header ->
     row !! i = Some (match Sample.acme !! header with
                      | Some v => v
                      | None => PStr "N/A"
                      end)) /\
  last (sheet (final (write_to_google_sheets Sample.E_ok GspreadClient
                        (PDict Sample.acme) Sample.w_empty)))
  = Some (map (cell_text Sample.E_ok) row).
Proof.
  intros row.
  assert (In (RowAppended row)
            (trace (write_to_google_sheets Sample.E_ok GspreadClient
                      (PDict Sample.acme) Sample.w_empty))) as Hin.
  { vm_compute. do 4 right. left. reflexivity. }
  split; [exact Hin|].
  exact (C1_row_follows_headers Sample.E_ok GspreadClient Sample.acme
           Sample.w_empty row Hin).
Defined.

(** C2, as the code has it.  The Sheet Writer writes the canonical header
    row only when row 1 reads empty; against a sheet whose row 1 is not
    empty it writes no header row and leaves row 1 as it is.  Hence, over
    any sequence of invocations on a sheet that starts out entirely empty
    or with a non-empty row 1, headers are written at most once; and exactly
    once when the sequence starts on an entirely empty sheet with an
    invocation during which the spreadsheet service does not fail. *)
Theorem C2_headers_written_at_most_once gc :
  (forall E data w keys,
     In (HeaderWritten keys) (trace (write_to_google_sheets E gc data w)) ->
     row1 (sheet w) = [] /\ keys = header_keys) /\
  (forall E data w,
     row1 (sheet w) <> [] ->
     none is_header_written (trace (write_to_google_sheets E gc data w)) /\
     row1 (sheet (final (write_to_google_sheets E gc data w))) = row1 (sheet w)) /\
  (forall calls w,
     headed_or_empty (sheet w) ->
     count is_header_written (trace (write_all gc calls w)) <= 1) /\
  (forall E data calls w,
     sheet w = [] -> sheets_up E ->
     count is_header_written (trace (write_all gc ((E, data) :: calls) w)) = 1).
Proof.
  split_and!.
  - intros E data w keys. apply write_headers_summary.
  - intros E data w Hrow.
    destruct (write_headers_summary gc E data w) as (_ & _ & Hheaded & _).
    destruct (Hheaded Hrow) as [Hcount Hrow']. by rewrite none_count.
  - apply write_all_at_most_once.
  - apply write_all_exactly_once.
Qed.

(** Each part of C2 at a sample: an empty sheet, a headed sheet, and
    sequences of calls some of which fail. *)
Lemma C2_headers_written_at_most_once_witness :
  (In (HeaderWritten header_keys)
     (trace (write_to_google_sheets Sample.E_ok GspreadClient (PDict Sample.acme)
               Sample.w_empty)) /\
   row1 (sheet Sample.w_empty) = []) /\
  (row1 (sheet Sample.w_headed) <> [] /\
   none is_header_written
     (trace (write_to_google_sheets Sample.E_ok GspreadClient (PDict Sample.acme)
               Sample.w_headed)) /\
   row1 (sheet (final (write_to_google_sheets Sample.E_ok GspreadClient
                         (PDict Sample.acme) Sample.w_headed)))
   = ["Society Name"; "Owner"]) /\
  (headed_or_empty (sheet Sample.w_headed) /\
   count is_header_written
     (trace (write_all GspreadClient
               [(Sample.E_sheet_down, PDict Sample.acme);
                (Sample.E_ok, PDict Sample.acme)] Sample.w_headed)) <= 1) /\
  (sheets_up Sample.E_ok /\
   count is_header_written
     (trace (write_all GspreadClient
               [(Sample.E_ok, PDict Sample.acme);
                (Sample.E_sheet_down, PDict ∅);
                (Sample.E_ok, PList [PInt 1])] Sample.w_empty)) = 1).
Proof.
  destruct (C2_headers_written_at_most_once GspreadClient)
    as (Honly & Hheaded & Hmost & Honce).
  assert (In (HeaderWritten header_keys)
            (trace (write_to_google_sheets Sample.E_ok GspreadClient
                      (PDict Sample.acme) Sample.w_empty))) as Hin.
  { vm_compute. do 3 right. left. reflexivity. }
  assert (row1 (sheet Sample.w_headed) <> []) as Hrow by discriminate.
  assert (sheets_up Sample.E_ok) as Hup by (intros op rows; reflexivity).
  split_and!.
  - exact Hin.
  - exact (proj1 (Honly _ _ _ _ Hin)).
  - exact Hrow.
  - exact (proj1 (Hheaded Sample.E_ok (PDict Sample.acme) Sample.w_headed Hrow)).
  - exact (proj2 (Hheaded Sample.E_ok (PDict Sample.acme) Sample.w_headed Hrow)).
  - right. exact Hrow.
  - apply Hmost. right. exact Hrow.
  - exact Hup.
  - apply Honce; [reflexivity|exact Hup].
Defined.

(** C2 as stated fails: a sequence of invocations on a sheet that already
    has its headers writes them zero times, not once; and on a sheet whose
    first row is blank above other content, every invocation appends the
    headers again below, since row 1 stays blank. *)
Lemma C2_counterexample :
  count is_header_written
    (trace (write_all GspreadClient [(Sample.E_ok, PDict Sample.acme)]
              Sample.w_headed)) = 0 /\
  count is_header_written
    (trace (write_all GspreadClient
              [(Sample.E_ok, PDict Sample.acme); (Sample.E_ok, PDict Sample.acme)]
              Sample.w_blank_row1)) = 2.
Proof. split; vm_compute; reflexivity. Qed.

(** * The Transcriber (C3, C6, C8) *)

Section Strings.

Import PyStr.

Lemma append_cons c a b : (String c a ++ b)%string = String c (a ++ b)%string.
Proof. reflexivity. Qed.

Lemma length_append a b :
  String.length (a ++ b)%string = String.length a + String.length b.
Proof. induction a as [|c a IH]; [done|]. rewrite append_cons. simpl. by rewrite IH. Qed.

(** [join] keeps every character of every part and puts one separator
    between neighbours. *)
Lemma join_length sep parts :
  String.length (join sep parts)
  = sum_list (map String.length parts) + (length parts - 1) * String.length sep.
Proof.
  induction parts as [|p ps IH]; [done|].
  destruct ps as [|q ps]; [simpl; lia|].
  change (join sep (p :: q :: ps)) with (p ++ sep ++ join sep (q :: ps))%string.
  rewrite !length_append, IH. simpl. lia.
Qed.

Lemma lstrip_spec s :
  exists lead, s = (lead ++ lstrip s)%string /\ all_space lead = true /\
    forall c, first_char (lstrip s) = Some c -> is_space c = false.
Proof.
  induction s as [|c s (lead & Hs & Hlead & Hfirst)]; simpl.
  - by exists "".
  - destruct (is_space c) eqn:Hc.
    + exists (String c lead). split_and!; [rewrite append_cons; congruence|simpl; by rewrite Hc|done].
    + exists "". split_and!; [done..|]. simpl. by intros ? [= <-].
Qed.

Lemma rstrip_spec s :
  exists tail, s = (rstrip s ++ tail)%string /\ all_space tail = true /\
    forall c, last_char (rstrip s) = Some c -> is_space c = false.
Proof.
  induction s as [|c s (tail & Hs & Htail & Hlast)]; simpl.
  - by exists "".
  - destruct (rstrip s) as [|c' r] eqn:Hr; simpl in *.
    + destruct (is_space c) eqn:Hc.
      * exists (String c s). split_and!; [done|simpl; by rewrite Hc, Hs|done].
      * exists s. split_and!; [done|by rewrite Hs|]. by intros ? [= <-].
    + exists tail. split_and!; [rewrite append_cons; congruence|done..].
Qed.

(** Stripping on the right keeps the first character. *)
Lemma first_char_rstrip s c :
  first_char (rstrip s) = Some c -> first_char s = Some c.
Proof.
  destruct s as [|c0 s]; simpl; [done|].
  destruct (rstrip s); [destruct (is_space c0)|]; simpl; congruence.
Qed.

(** [strip] removes a run of whitespace at each end and nothing else, and
    what is left neither starts nor ends with whitespace. *)
Lemma strip_spec s :
  exists lead tail,
    s = (lead ++ strip s ++ tail)%string /\
    all_space lead = true /\ all_space tail = true /\
    (forall c, first_char (strip s) = Some c -> is_space c = false) /\
    (forall c, last_char (strip s) = Some c -> is_space c = false).
Proof.
  unfold strip.
  destruct (lstrip_spec s) as (lead & Hs & Hlead & Hfirst).
  destruct (rstrip_spec (lstrip s)) as (tail & Hl & Htail & Hlast).
  exists lead, tail. split_and!; try done.
  - by rewrite <- Hl.
  - intros c Hc. by apply Hfirst, first_char_rstrip.
Qed.

End Strings.

Section Transcriber.

Variable E : env.

(** When the temporary file could be created and written, the Transcriber
    returns (it does not raise) and the temporary directory is as it was
    before: the file is gone, on the successful and on the failing path
    alike. *)
Lemma transcribe_audio_cleans_up content name w :
  tmp_create E (splitext_ext name) = None ->
  tmp_write E content = Ok tt ->
  outcome (transcribe_audio E content name w) = Ok (transcript_of E content name) /\
  tmpdir (final (transcribe_audio E content name w)) = tmpdir w.
Proof.
  intros Hcreate Hwrite.
  destruct (transcribe_audio_spec E content name w) as (_ & _ & _ & H).
  by rewrite Hcreate, Hwrite in H.
Qed.

(** When the temporary file cannot be created, the exception leaves the
    Transcriber; there is no file to remove and the directory is as it
    was. *)
Lemma transcribe_audio_create_failure content name w e :
  tmp_create E (splitext_ext name) = Some e ->
  outcome (transcribe_audio E content name w) = Raise e /\
  tmpdir (final (transcribe_audio E content name w)) = tmpdir w.
Proof.
  intros Hcreate.
  destruct (transcribe_audio_spec E content name w) as (_ & _ & _ & H).
  by rewrite Hcreate in H.
Qed.

(** What the Transcriber hands back, whatever the world. *)
Lemma transcribe_audio_outcome content name w :
  outcome (transcribe_audio E content name w) = transcribed E content name.
Proof.
  destruct (transcribe_audio_spec E content name w) as (_ & _ & _ & H).
  unfold transcribed.
  destruct (tmp_create E (splitext_ext name)); [by destruct H|].
  by destruct (tmp_write E content); destruct H.
Qed.

(** When the speech model fails, at loading or while transcribing, the
    Transcriber returns [None]. *)
Lemma transcribe_audio_model_failure content name w :
  tmp_create E (splitext_ext name) = None ->
  tmp_write E content = Ok tt ->
  (exists e, whisper_load E = Raise e) \/
  (exists e, whisper_transcribe E (splitext_ext name) content = Raise e) ->
  outcome (transcribe_audio E content name w) = Ok PNone.
Proof.
  intros Hcreate Hwrite Hfail.
  destruct (transcribe_audio_cleans_up content name w Hcreate Hwrite) as [-> _].
  unfold transcript_of. destruct Hfail as [[e ->]|[e ->]]; [done|].
  by destruct (whisper_load E).
Qed.

(** When the temporary file cannot be written, the exception leaves the
    Transcriber and the file it created stays behind, holding the bytes
    that had reached it. *)
Lemma transcribe_audio_write_failure content name w e :
  tmp_create E (splitext_ext name) = None ->
  tmp_write E content = Raise e ->
  let path := fresh (dom (tmpdir w)) in
  outcome (transcribe_audio E content name w) = Raise e /\
  tmpdir w !! path = None /\
  tmpdir (final (transcribe_audio E content name w)) !! path
  = Some (splitext_ext name, take (tmp_written E content) content).
Proof.
  intros Hcreate Hwrite path.
  destruct (transcribe_audio_spec E content name w) as (_ & _ & _ & H).
  rewrite Hcreate, Hwrite in H. destruct H as [-> ->]. split_and!; [done| |].
  - apply not_elem_of_dom, is_fresh.
  - apply lookup_insert_eq.
Qed.

End Transcriber.

(** C3, at the failing input.  The disk is full: the Transcriber creates
    its temporary file, fails to write the buffer into it, and leaves with
    the exception; the file it created is still there. *)
Lemma C3_temp_file_left_behind :
  let r := transcribe_audio Sample.E_disk_full [Byte.x49; Byte.x44; Byte.x33]
             "rec.mp3" Sample.w_empty in
  outcome r = Raise "OSError: [Errno 28] No space left on device" /\
  tmpdir Sample.w_empty !! 0 = None /\
  tmpdir (final r) !! 0 = Some (".mp3", []).
Proof. vm_compute. by split_and!. Qed.

(** C6, at the failing input.  With the disk full the Transcriber fails by
    raising, not by returning [None].  The Orchestrator catches the
    exception, so nothing downstream runs and the loop goes on. *)
Lemma C6_write_failure_raises :
  let content := [Byte.x49; Byte.x44; Byte.x33] in
  outcome (transcribe_audio Sample.E_disk_full content "rec.mp3" Sample.w_empty)
  = Raise "OSError: [Errno 28] No space left on device" /\
  outcome (transcribe_audio Sample.E_disk_full content "rec.mp3" Sample.w_empty)
  <> Ok PNone /\
  let r := process_file Sample.E_disk_full DriveService GspreadClient "Sharath"
             Sample.sharath_folder Sample.recording Sample.w_empty in
  outcome r = Ok tt /\ count is_downstream (trace r) = 0.
Proof. vm_compute. by split_and!. Qed.

(** The join of the script is the concatenation with separators of the
    Standard Library. *)
Lemma join_concat sep parts : PyStr.join sep parts = String.concat sep parts.
Proof.
  induction parts as [|p parts IH]; [done|].
  destruct parts as [|q parts]; [done|].
  change (PyStr.join sep (p :: q :: parts))
    with (p ++ sep ++ PyStr.join sep (q :: parts))%string.
  by rewrite IH.
Qed.

(** C8.  Whenever the speech model returns segments (the temporary file
    was created and written, the model loaded), the Transcriber returns a
    transcript, and it is the segments' texts concatenated with single
    spaces between them and then stripped: the concatenation, taken from
    the Standard Library and not from the script's own join, is the
    transcript between two runs of whitespace, and the transcript neither
    starts nor ends with whitespace. *)
Theorem C8_transcript_joined_and_stripped E content name w segments :
  tmp_create E (splitext_ext name) = None ->
  tmp_write E content = Ok tt ->
  whisper_load E = Ok tt ->
  whisper_transcribe E (splitext_ext name) content = Ok segments ->
  exists transcript lead tail,
    outcome (transcribe_audio E content name w) = Ok (PStr transcript) /\
    String.concat " " segments = (lead ++ transcript ++ tail)%string /\
    PyStr.all_space lead = true /\ PyStr.all_space tail = true /\
    (forall c, PyStr.first_char transcript = Some c -> PyStr.is_space c = false) /\
    (forall c, PyStr.last_char transcript = Some c -> PyStr.is_space c = false).
Proof.
  intros Hcreate Hwrite Hload Hsegments.
  destruct (strip_spec (PyStr.join " " segments)) as (lead & tail & Hparts).
  exists (PyStr.strip (PyStr.join " " segments)), lead, tail.
  split.
  - destruct (transcribe_audio_cleans_up E content name w Hcreate Hwrite) as [-> _].
    unfold transcript_of. by rewrite Hload, Hsegments.
  - rewrite <- (join_concat " " segments). exact Hparts.
Qed.

(** Two segments, with whitespace at both ends of the concatenation. *)
Lemma C8_transcript_joined_and_stripped_witness :
  exists transcript lead tail,
    outcome (transcribe_audio Sample.E_ok [Byte.x49; Byte.x44; Byte.x33] "rec.mp3"
               Sample.w_empty)
    = Ok (PStr transcript) /\
    " hello world " = (lead ++ transcript ++ tail)%string /\
    PyStr.all_space lead = true /\ PyStr.all_space tail = true /\
    (forall c, PyStr.first_char transcript = Some c -> PyStr.is_space c = false) /\
    (forall c, PyStr.last_char transcript = Some c -> PyStr.is_space c = false).
Proof.
  exact (C8_transcript_joined_and_stripped Sample.E_ok
           [Byte.x49; Byte.x44; Byte.x33] "rec.mp3" Sample.w_empty
           [" hello"; "world "] eq_refl eq_refl eq_refl eq_refl).
Defined.

(** * The Orchestrator (C4, C5, C7, C9, C10) *)

Section Orchestrator.

Variable E : env.
Variables (ds : drive_handle) (gc : sheets_handle).

(** What acting on a transcript leaves in the trace.  For a truthy
    transcript the wait is the last event and the only wait; a falsy
    analysis result means no write and no move and an unchanged world; a
    truthy one means the Archiver is invoked.  Drive changes at most at the
    file at hand, and the temporary directory not at all. *)
Lemma after_transcription_events member_name folder_id f transcript w :
  let r := after_transcription E ds gc member_name folder_id f transcript w in
  outcome r = Ok tt /\
  if truthy transcript then
    exists t0, trace r = t0 ++ [Sleep 20] /\ none is_sleep t0 /\
      if truthy (analysis_of E transcript member_name) then
        In (MoveFile (file_id f) folder_id) t0
      else none is_write_or_move t0 /\ final r = w
  else trace r = [] /\ final r = w.
Proof.
  intros r. subst r.
  destruct (after_transcription_spec E ds gc member_name folder_id f transcript w)
    as [Hout H].
  split; [done|]. destruct (truthy transcript); [|by destruct H].
  destruct H as (ta & Hta & _ & H).
  destruct (truthy (analysis_of E transcript member_name)).
  - destruct H as (ww & tw & tm & Hwrite & Hmove & ->).
    pose proof (write_to_google_sheets_spec E gc
                  (analysis_of E transcript member_name) w) as Hw.
    pose proof (move_file_to_processed_spec E ds (file_id f) folder_id ww) as Hm.
    unfold wp in Hw, Hm. rewrite Hwrite in Hw. rewrite Hmove in Hm.
    unfold outcome, final, trace in Hw, Hm. simpl in Hw, Hm.
    destruct Hw as (_ & _ & _ & Htw & _).
    destruct Hm as (_ & _ & _ & Htm & Hin & _).
    exists (ta ++ tw ++ tm). split; [by rewrite <- !app_assoc|]. split.
    + repeat apply none_app; (eapply only_none; [|eassumption]); by intros [].
    + apply in_or_app. right. apply in_or_app. by right.
  - destruct H as [-> ->]. exists ta. split; [done|]. split_and!; [..|done].
    + eapply only_none; [|eassumption]. by intros [].
    + eapply only_none; [|eassumption]. by intros [].
Qed.

(** The run of the loop body, from the run of its two halves. *)
Lemma process_file_run member_name folder_id f w :
  let r := process_file E ds gc member_name folder_id f w in
  let r1 := fetch_transcript E ds f w in
  let start := Log INFO "--- Processing file: {file_name} (ID: {file_id}) ---" in
  match outcome r1 with
  | Ok transcript =>
      let r2 := after_transcription E ds gc member_name folder_id f transcript
                  (final r1) in
      outcome r = Ok tt /\ final r = final r2 /\
      trace r = start :: trace r1 ++ trace r2
  | Raise _ =>
      outcome r = Ok tt /\ final r = final r1 /\
      trace r = start :: trace r1
                  ++ [Log ERROR "ERROR processing file {file_name}: {e}"]
  end.
Proof.
  intros r r1 start. subst r r1 start.
  change (wp (process_file E ds gc member_name folder_id f) w
    (fun r w' t =>
       match outcome (fetch_transcript E ds f w) with
       | Ok transcript =>
           r = Ok tt /\
           w' = final (after_transcription E ds gc member_name folder_id f
                         transcript (final (fetch_transcript E ds f w))) /\
           t = Log INFO "--- Processing file: {file_name} (ID: {file_id}) ---"
               :: trace (fetch_transcript E ds f w)
               ++ trace (after_transcription E ds gc member_name folder_id f
                           transcript (final (fetch_transcript E ds f w)))
       | Raise _ =>
           r = Ok tt /\ w' = final (fetch_transcript E ds f w) /\
           t = Log INFO "--- Processing file: {file_name} (ID: {file_id}) ---"
               :: trace (fetch_transcript E ds f w)
               ++ [Log ERROR "ERROR processing file {file_name}: {e}"]
       end)).
  apply wp_process_file. unfold wp.
  destruct (outcome (fetch_transcript E ds f w)) as [transcript|e]; [|done].
  destruct (after_transcription_events member_name folder_id f transcript
              (final (fetch_transcript E ds f w))) as [-> _].
  done.
Qed.

(** Without a truthy transcript — [None], the empty string, or an exception
    out of download or transcription — nothing downstream runs, no wait
    included, the world is as fetching left it, and the body returns. *)
Lemma process_file_without_transcript member_name folder_id f w :
  match outcome (fetch_transcript E ds f w) with
  | Ok transcript => truthy transcript = false
  | Raise _ => True
  end ->
  let r := process_file E ds gc member_name folder_id f w in
  outcome r = Ok tt /\ none is_downstream (trace r) /\
  final r = final (fetch_transcript E ds f w) /\
  exists handled,
    trace r = Log INFO "--- Processing file: {file_name} (ID: {file_id}) ---"
              :: trace (fetch_transcript E ds f w) ++ handled /\
    only is_log handled.
Proof.
  intros Hfalsy r. subst r.
  pose proof (process_file_run member_name folder_id f w) as Hrun.
  destruct (fetch_transcript_spec E ds f w) as (_ & _ & Hfetch & _).
  assert (none is_downstream (trace (fetch_transcript E ds f w))) as Hnone.
  { eapply only_none; [|eassumption]. by intros []. }
  cbv zeta in Hrun.
  destruct (outcome (fetch_transcript E ds f w)) as [transcript|e].
  - destruct Hrun as (-> & -> & ->).
    destruct (after_transcription_events member_name folder_id f transcript
                (final (fetch_transcript E ds f w))) as [_ Hafter].
    rewrite Hfalsy in Hafter. destruct Hafter as [-> ->].
    split_and!; [done| |done|].
    + apply none_cons; [done|]. by apply none_app; [|constructor].
    + exists []. split; [done|constructor].
  - destruct Hrun as (-> & -> & ->). split_and!; [done| |done|].
    + apply none_cons; [done|]. apply none_app; [done|]. by repeat constructor.
    + eexists. split; [done|]. by repeat constructor.
Qed.

(** The loop over the files of a folder never raises and reaches every
    file of the listing, whatever happened to the files before it. *)
Lemma files_loop_visits_all member_name folder_id files : forall w,
  let r := for_each files (process_file E ds gc member_name folder_id) w in
  outcome r = Ok tt /\
  forall f, In f files -> In (Download (file_id f)) (trace r).
Proof.
  induction files as [|f0 files IH]; intros w; [by split|].
  pose proof (process_file_total E ds gc member_name folder_id f0 w) as Hout.
  pose proof (process_file_run member_name folder_id f0 w) as Hrun.
  destruct (fetch_transcript_spec E ds f0 w) as (_ & _ & _ & Hhead).
  assert (In (Download (file_id f0))
            (trace (process_file E ds gc member_name folder_id f0 w))) as Hfirst.
  { cbv zeta in Hrun.
    destruct (trace (fetch_transcript E ds f0 w)) as [|ev t1]; [done|].
    injection Hhead as ->.
    destruct (outcome (fetch_transcript E ds f0 w));
      destruct Hrun as (_ & _ & ->); right; by left. }
  specialize (IH (final (process_file E ds gc member_name folder_id f0 w))).
  cbv zeta in IH. destruct IH as [IHout IHin].
  cbv zeta. simpl. unfold mbind, M_bind.
  unfold outcome, final, trace in *.
  destruct (process_file E ds gc member_name folder_id f0 w) as [[r1 w1] t1].
  simpl in *. subst r1.
  destruct (for_each files _ w1) as [[r2 w2] t2]. simpl in *.
  split; [done|]. intros f [<-|Hin]; apply in_or_app; [by left|].
  right. by apply IHin.
Qed.

End Orchestrator.

(** C9.  The loop body treats an empty transcript exactly as it treats
    [None]: what follows transcription is the same computation for both,
    and it does nothing.  So for a file whose transcription returns the
    empty string neither the Analyzer, the Sheet Writer nor the Archiver
    runs, and the wait is skipped too: the trace of the body is the start
    message followed by what download and transcription emitted. *)
Theorem C9_empty_transcript_skips E ds gc member_name folder_id f w transcript :
  outcome (fetch_transcript E ds f w) = Ok transcript ->
  transcript = PStr "" \/ transcript = PNone ->
  let r := process_file E ds gc member_name folder_id f w in
  after_transcription E ds gc member_name folder_id f (PStr "")
  = after_transcription E ds gc member_name folder_id f PNone /\
  none is_downstream (trace r) /\
  trace r = Log INFO "--- Processing file: {file_name} (ID: {file_id}) ---"
            :: trace (fetch_transcript E ds f w) /\
  final r = final (fetch_transcript E ds f w) /\
  outcome r = Ok tt.
Proof.
  intros Hfetch Hfalsy r. subst r. split; [done|].
  assert (truthy transcript = false) as Htruthy by by destruct Hfalsy as [->| ->].
  pose proof (process_file_without_transcript E ds gc member_name folder_id f w)
    as Hskip.
  pose proof (process_file_run E ds gc member_name folder_id f w) as Hrun.
  cbv zeta in Hskip, Hrun. rewrite Hfetch in Hskip, Hrun.
  destruct (Hskip Htruthy) as (Hout & Hnone & Hfinal & _).
  destruct Hrun as (_ & _ & Htrace). split_and!; try done.
  rewrite Htrace. f_equal.
  destruct (after_transcription_events E ds gc member_name folder_id f transcript
              (final (fetch_transcript E ds f w))) as [_ Hafter].
  rewrite Htruthy in Hafter. destruct Hafter as [-> _]. apply app_nil_r.
Qed.

(** A recording without speech: no segments, hence the empty transcript. *)
Lemma C9_empty_transcript_skips_witness :
  let r := process_file Sample.E_silence DriveService GspreadClient "Sharath"
             Sample.sharath_folder Sample.recording Sample.w_empty in
  outcome (fetch_transcript Sample.E_silence DriveService Sample.recording
             Sample.w_empty) = Ok (PStr "") /\
  none is_downstream (trace r) /\
  final r = final (fetch_transcript Sample.E_silence DriveService Sample.recording
                     Sample.w_empty) /\
  outcome r = Ok tt.
Proof.
  intros r.
  assert (outcome (fetch_transcript Sample.E_silence DriveService Sample.recording
                     Sample.w_empty) = Ok (PStr "")) as Hfetch
    by (vm_compute; reflexivity).
  destruct (C9_empty_transcript_skips Sample.E_silence DriveService GspreadClient
              "Sharath" Sample.sharath_folder Sample.recording Sample.w_empty
              (PStr "") Hfetch (or_introl eq_refl))
    as (_ & Hnone & _ & Hfinal & Hout).
  exact (conj Hfetch (conj Hnone (conj Hfinal Hout))).
Defined.

(** C4, as the code has it.  After a file, the fixed 20-second wait is
    performed exactly when transcription returned a non-empty transcript:
    then it is the last thing the loop body does and it happens once,
    whatever the Analyzer, the Sheet Writer and the Archiver did (so also
    when the analysis produced nothing).  When transcription returned
    [None] or the empty string, or download or transcription raised, there
    is no wait. *)
Theorem C4_wait_follows_transcript E ds gc member_name folder_id f w :
  let r := process_file E ds gc member_name folder_id f w in
  match outcome (fetch_transcript E ds f w) with
  | Ok transcript =>
      if truthy transcript
      then count is_sleep (trace r) = 1 /\ last (trace r) = Some (Sleep 20)
      else count is_sleep (trace r) = 0
  | Raise _ => count is_sleep (trace r) = 0
  end.
Proof.
  intros r. subst r.
  pose proof (process_file_run E ds gc member_name folder_id f w) as Hrun.
  pose proof (process_file_without_transcript E ds gc member_name folder_id f w)
    as Hskip.
  destruct (fetch_transcript_spec E ds f w) as (_ & _ & Hfetch & _).
  assert (count is_sleep (trace (fetch_transcript E ds f w)) = 0) as Hquiet.
  { apply none_count. eapply only_none; [|eassumption]. by intros []. }
  assert (forall t, none is_downstream t -> count is_sleep t = 0) as Hdown.
  { intros t Ht. apply none_count. eapply Forall_impl; [exact Ht|]. by intros []. }
  cbv zeta in Hrun, Hskip.
  destruct (outcome (fetch_transcript E ds f w)) as [transcript|e];
    [|by apply Hdown, Hskip].
  destruct (truthy transcript) eqn:Htruthy; [|by apply Hdown, Hskip].
  destruct Hrun as (_ & _ & ->).
  destruct (after_transcription_events E ds gc member_name folder_id f transcript
              (final (fetch_transcript E ds f w))) as [_ Hafter].
  rewrite Htruthy in Hafter. destruct Hafter as (t0 & -> & Ht0 & _). split.
  - change (count is_sleep (?x :: ?t)) with (count is_sleep t).
    rewrite !count_app, Hquiet. apply none_count in Ht0. by rewrite Ht0.
  - rewrite app_assoc, app_comm_cons. apply last_snoc.
Qed.

(** C4 as stated fails: the speech model fails on the one recording in
    Sharath's folder; the file was downloaded and its transcription was
    attempted, and the run performs no wait at all. *)
Lemma C4_counterexample :
  let t := trace (main Sample.E_whisper_fails Sample.w_empty) in
  count is_transcribe t = 1 /\ count is_sleep t = 0.
Proof. vm_compute. by split. Qed.

(** C5, as the code has it.  Take a response of the language model.  When
    [json.loads] rejects its text the Analyzer returns [None]; the loop body
    then invokes neither the Sheet Writer nor the Archiver for that file,
    and the file's folders on Drive are what they were.  When [json.loads]
    accepts the text, the Analyzer returns the value it returned, itself.
    What [json.loads] accepts is up to the parser: the statement holds
    whatever it answers. *)
Theorem C5_analyzer_parses_or_returns_none E transcript owner_name text :
  opt_str_truthy (GEMINI_API_KEY E) = true ->
  generate_content E transcript owner_name = Ok text ->
  match json_loads E text with
  | Raise _ =>
      (forall w,
         outcome (analyze_transcript_with_gemini E transcript owner_name w)
         = Ok PNone) /\
      (forall ds gc folder_id f w,
         outcome (fetch_transcript E ds f w) = Ok transcript ->
         let r := process_file E ds gc owner_name folder_id f w in
         none is_write_or_move (trace r) /\ parents (final r) = parents w)
  | Ok v =>
      forall w,
        outcome (analyze_transcript_with_gemini E transcript owner_name w) = Ok v
  end.
Proof.
  intros Hkey Hresponse.
  assert (forall w,
            outcome (analyze_transcript_with_gemini E transcript owner_name w)
            = Ok (analysis_of E transcript owner_name)) as Hanalyze.
  { intros w. apply (analyze_transcript_with_gemini_spec E transcript owner_name w). }
  assert (analysis_of E transcript owner_name
          = match json_loads E text with Ok v => v | Raise _ => PNone end) as Hvalue.
  { unfold analysis_of. by rewrite Hkey, Hresponse. }
  destruct (json_loads E text) as [v|e]; [by rewrite <- Hvalue|].
  split; [by rewrite <- Hvalue|].
  intros ds gc folder_id f w Hfetch r. subst r.
  pose proof (process_file_run E ds gc owner_name folder_id f w) as Hrun.
  destruct (fetch_transcript_spec E ds f w) as (_ & Hparents & Hevents & _).
  cbv zeta in Hrun. rewrite Hfetch in Hrun. destruct Hrun as (_ & -> & ->).
  destruct (after_transcription_events E ds gc owner_name folder_id f transcript
              (final (fetch_transcript E ds f w))) as [_ Hafter].
  assert (none is_write_or_move (trace (fetch_transcript E ds f w))) as Hquiet.
  { eapply only_none; [|eassumption]. by intros []. }
  rewrite Hvalue in Hafter. simpl in Hafter.
  destruct (truthy transcript).
  - destruct Hafter as (t0 & -> & _ & Ht0 & ->). split; [|done].
    apply none_cons; [done|]. repeat apply none_app; try done. by repeat constructor.
  - destruct Hafter as [-> ->]. split; [|done].
    apply none_cons; [done|]. apply none_app; [done|apply none_nil].
Qed.

(** A response that is prose, and a response that is a JSON object. *)
Lemma C5_analyzer_parses_or_returns_none_witness :
  (outcome (analyze_transcript_with_gemini Sample.E_not_json (PStr "hello world")
              "Sharath" Sample.w_empty) = Ok PNone /\
   let r := process_file Sample.E_not_json DriveService GspreadClient "Sharath"
              Sample.sharath_folder Sample.recording Sample.w_empty in
   none is_write_or_move (trace r) /\ parents (final r) = parents Sample.w_empty) /\
  outcome (analyze_transcript_with_gemini Sample.E_ok (PStr "hello world")
             "Sharath" Sample.w_empty) = Ok (PDict Sample.acme).
Proof.
  pose proof (C5_analyzer_parses_or_returns_none Sample.E_not_json
                (PStr "hello world") "Sharath" "Sorry, I cannot help with that."
                eq_refl eq_refl) as Hbad.
  pose proof (C5_analyzer_parses_or_returns_none Sample.E_ok
                (PStr "hello world") "Sharath" Sample.acme_json
                eq_refl eq_refl) as Hgood.
  assert (outcome (fetch_transcript Sample.E_not_json DriveService Sample.recording
                     Sample.w_empty) = Ok (PStr "hello world")) as Hfetch
    by (vm_compute; reflexivity).
  change (json_loads Sample.E_not_json "Sorry, I cannot help with that.")
    with (@Raise pyval "JSONDecodeError") in Hbad.
  change (json_loads Sample.E_ok Sample.acme_json)
    with (Ok (PDict Sample.acme)) in Hgood.
  destruct Hbad as [Hnone Hskip].
  split; [split|].
  - exact (Hnone Sample.w_empty).
  - exact (Hskip DriveService GspreadClient Sample.sharath_folder Sample.recording
             Sample.w_empty Hfetch).
  - exact (Hgood Sample.w_empty).
Defined.

(** The recogniser on the texts of the samples: the two objects, the list
    and [null] are JSON; the prose and the three constants Python's parser
    takes beyond the grammar are not. *)
Lemma json_valid_samples :
  map JSON.valid [Sample.acme_json; Sample.sa_json; "{}"; "[1]"; "null"]
  = [true; true; true; true; true] /\
  map JSON.valid ["Sorry, I cannot help with that."; "NaN"; "Infinity"; "-Infinity"]
  = [false; false; false; false].
Proof. by vm_compute. Qed.

(** C5 as stated fails: the text [NaN] is not valid JSON, and Python's
    [json.loads] accepts it all the same and returns the float nan, which
    is truthy.  So the Analyzer returns a value, not [None], for a response
    that is not valid JSON; the Sheet Writer and the Archiver are both
    invoked, no row is recorded (the value is no dict), and the file leaves
    its source folder. *)
Lemma C5_counterexample :
  let E := Cases.E_nan in
  let r := process_file E DriveService GspreadClient "Sharath"
             Sample.sharath_folder Sample.recording Sample.w_headed in
  generate_content E (PStr "hello world") "Sharath" = Ok "NaN" /\
  JSON.valid "NaN" = false /\
  json_loads E "NaN" = Ok (PFloat S754_nan) /\
  outcome (analyze_transcript_with_gemini E (PStr "hello world") "Sharath"
             Sample.w_headed) = Ok (PFloat S754_nan) /\
  skeleton (trace r)
  = [Download "f1"; Transcribe "rec.mp3"; Analyze (PStr "hello world") "Sharath";
     WriteSheet (PFloat S754_nan); MoveFile "f1" Sample.sharath_folder; Sleep 20] /\
  ~ none is_write_or_move (trace r) /\
  sheet (final r) = sheet Sample.w_headed /\
  parents (final r) !! "f1" = Some {[PROCESSED_FOLDER_ID]}.
Proof.
  cbv zeta. split_and!; try (vm_compute; reflexivity).
  intros Hnone. apply none_count in Hnone. vm_compute in Hnone. discriminate.
Qed.

Section Authentication.

Variable E : env.

(** The Credential Provider returns, never raises, and leaves the world
    alone. *)
Lemma authenticate_google_services_spec w :
  wp (authenticate_google_services E) w (fun r w' t =>
    r = Ok (clients_of E) /\ w' = w /\ only of_authenticate t).
Proof.
  unfold authenticate_google_services, clients_of. wp_steps.
  destruct (negb (opt_str_truthy (GCP_SERVICE_ACCOUNT_KEY E))).
  { wp_steps. by auto 10 with trace. }
  wp_steps.
  destruct (json_loads E (default "" (GCP_SERVICE_ACCOUNT_KEY E))) as [creds_info|e].
  - wp_steps. destruct (build_clients E creds_info) as [[]|e].
    + wp_steps. by auto 10 with trace.
    + wp_steps. by auto 10 with trace.
  - wp_steps. by auto 10 with trace.
Qed.

(** Without both client handles, [main] stops after authentication: no
    folder is listed, no file is touched, and the world is as it was. *)
Lemma main_without_clients w :
  clients_of E = (None, None) ->
  outcome (main E w) = Ok tt /\ final (main E w) = w /\
  none is_processing (trace (main E w)).
Proof.
  intros Hnone.
  change (wp (main E) w (fun r w' t =>
            r = Ok tt /\ w' = w /\ none is_processing t)).
  unfold main. wp_steps.
  change (negb (str_truthy GOOGLE_SHEET_ID) || negb (str_truthy PROCESSED_FOLDER_ID))
    with false. cbv iota. wp_step.
  eapply wp_mono; [apply authenticate_google_services_spec|]. cbv beta.
  intros r w' t (-> & -> & Ht). rewrite Hnone. wp_steps.
  split_and!; [done..|].
  apply none_cons; [done|]. apply none_app; [|by repeat constructor].
  eapply only_none; [|eassumption]. by intros [].
Qed.

End Authentication.

(** C7.  When the service-account secret is absent from the environment, or
    is there but does not parse, the Credential Provider returns the pair
    [(None, None)]; [main] then lists no folder and processes no file: its
    trace holds nothing but log lines and the authentication attempt, and it
    leaves the world as it found it. *)
Theorem C7_no_secret_no_run E w :
  GCP_SERVICE_ACCOUNT_KEY E = None \/
  (exists key e, GCP_SERVICE_ACCOUNT_KEY E = Some key /\ json_loads E key = Raise e) ->
  outcome (authenticate_google_services E w) = Ok (None, None) /\
  none is_processing (trace (main E w)) /\
  final (main E w) = w /\
  outcome (main E w) = Ok tt.
Proof.
  intros Hsecret.
  assert (clients_of E = (None, None)) as Hnone.
  { unfold clients_of. destruct Hsecret as [->|(key & e & -> & Hparse)]; [done|].
    simpl. rewrite Hparse. by destruct (negb (str_truthy key)). }
  destruct (authenticate_google_services_spec E w) as (Hauth & _).
  destruct (main_without_clients E w Hnone) as (Hout & Hfinal & Htrace).
  by rewrite Hauth, Hnone.
Qed.

(** The secret not set, and the secret set to text that is not JSON. *)
Lemma C7_no_secret_no_run_witness :
  (outcome (authenticate_google_services Sample.E_no_secret Sample.w_empty)
   = Ok (None, None) /\
   none is_processing (trace (main Sample.E_no_secret Sample.w_empty)) /\
   final (main Sample.E_no_secret Sample.w_empty) = Sample.w_empty /\
   outcome (main Sample.E_no_secret Sample.w_empty) = Ok tt) /\
  (outcome (authenticate_google_services Sample.E_bad_secret Sample.w_empty)
   = Ok (None, None) /\
   none is_processing (trace (main Sample.E_bad_secret Sample.w_empty)) /\
   final (main Sample.E_bad_secret Sample.w_empty) = Sample.w_empty /\
   outcome (main Sample.E_bad_secret Sample.w_empty) = Ok tt).
Proof.
  split.
  - exact (C7_no_secret_no_run Sample.E_no_secret Sample.w_empty
             (or_introl eq_refl)).
  - exact (C7_no_secret_no_run Sample.E_bad_secret Sample.w_empty
             (or_intror
                (ex_intro _ "{type: service_account"
                   (ex_intro _ "JSONDecodeError" (conj eq_refl eq_refl))))).
Defined.

(** C10.  The Sheet Writer never raises, whatever happens inside it.  So
    for every file whose analysis produced a truthy result the loop body
    goes on to invoke the Archiver, whether or not a row was appended.  In
    particular, when the spreadsheet cannot be opened while the Drive update
    goes through, the sheet is as it was, no row was appended, and the file
    has moved from its source folder to the processed folder. *)
Theorem C10_archiver_runs_whatever_the_writer_did
    E ds gc member_name folder_id f w transcript data :
  outcome (fetch_transcript E ds f w) = Ok transcript ->
  truthy transcript = true ->
  outcome (analyze_transcript_with_gemini E transcript member_name
             (final (fetch_transcript E ds f w))) = Ok data ->
  truthy data = true ->
  let r := process_file E ds gc member_name folder_id f w in
  (forall data' w', outcome (write_to_google_sheets E gc data' w') = Ok tt) /\
  In (MoveFile (file_id f) folder_id) (trace r) /\
  (forall e ps,
     sheets_fault E OpenByKey (sheet w) = Some e ->
     files_update_fault E (file_id f) folder_id = None ->
     parents w !! file_id f = Some ps ->
     sheet (final r) = sheet w /\
     none is_row_appended (trace r) /\
     parents (final r) !! file_id f
     = Some (({[PROCESSED_FOLDER_ID]} ∪ ps) ∖ {[folder_id]})).
Proof.
  intros Hfetch Htranscript Hanalyze Hdata r. subst r.
  split; [intros data' w'; apply (write_to_google_sheets_spec E gc data' w')|].
  pose proof (process_file_run E ds gc member_name folder_id f w) as Hrun.
  destruct (fetch_transcript_spec E ds f w) as (Hsheet & Hparents & Hevents & _).
  cbv zeta in Hrun. rewrite Hfetch in Hrun. destruct Hrun as (_ & -> & ->).
  set (w1 := final (fetch_transcript E ds f w)) in *.
  destruct (analyze_transcript_with_gemini_spec E transcript member_name w1)
    as (Hvalue & _).
  rewrite Hanalyze in Hvalue. injection Hvalue as Hvalue.
  destruct (after_transcription_events E ds gc member_name folder_id f transcript w1)
    as [_ Hafter].
  destruct (after_transcription_spec E ds gc member_name folder_id f transcript w1)
    as [_ Hspec].
  rewrite Htranscript in Hafter, Hspec. rewrite <- Hvalue, Hdata in Hafter, Hspec.
  split.
  - destruct Hafter as (t0 & -> & _ & Hin).
    right. apply in_or_app. right. apply in_or_app. by left.
  - intros e ps Hdown Hupdate Hps.
    set (w2 := final (after_transcription E ds gc member_name folder_id f
                        transcript w1)) in *.
    destruct Hspec as (ta & Hta & _ & ww & tw & tm & Hwrite & Hmove & ->).
    rewrite <- Hsheet in Hdown.
    pose proof (write_to_google_sheets_down E gc data w1 e Hdown) as Hw.
    pose proof (move_file_to_processed_spec E ds (file_id f) folder_id ww) as Hm.
    unfold wp in Hw, Hm. rewrite Hwrite in Hw. rewrite Hmove in Hm.
    unfold outcome, final, trace in Hw, Hm. simpl in Hw, Hm.
    destruct Hw as (_ & -> & Htw).
    destruct Hm as (_ & Hsheet' & _ & Htm & _ & Hparents').
    rewrite Hupdate, Hparents, Hps in Hparents'.
    split_and!.
    + by rewrite Hsheet'.
    + apply none_cons; [done|]. repeat apply none_app; try done.
      * eapply only_none; [|eassumption]. by intros [].
      * eapply only_none; [|eassumption]. by intros [].
      * eapply only_none; [|eassumption]. by intros [].
      * by repeat constructor.
    + rewrite Hparents'. apply lookup_insert_eq.
Qed.

(** The spreadsheet is down: the recording is moved and the sheet stays
    empty. *)
Lemma C10_archiver_runs_whatever_the_writer_did_witness :
  let r := process_file Sample.E_sheet_down DriveService GspreadClient "Sharath"
             Sample.sharath_folder Sample.recording Sample.w_empty in
  In (MoveFile "f1" Sample.sharath_folder) (trace r) /\
  sheet (final r) = [] /\
  none is_row_appended (trace r) /\
  parents (final r) !! "f1"
  = Some (({[PROCESSED_FOLDER_ID]} ∪ {[Sample.sharath_folder]})
            ∖ {[Sample.sharath_folder]}).
Proof.
  intros r.
  assert (outcome (fetch_transcript Sample.E_sheet_down DriveService
                     Sample.recording Sample.w_empty) = Ok (PStr "hello world"))
    as Hfetch by (vm_compute; reflexivity).
  assert (outcome (analyze_transcript_with_gemini Sample.E_sheet_down
                     (PStr "hello world") "Sharath"
                     (final (fetch_transcript Sample.E_sheet_down DriveService
                               Sample.recording Sample.w_empty)))
          = Ok (PDict Sample.acme)) as Hanalyze by (vm_compute; reflexivity).
  destruct (C10_archiver_runs_whatever_the_writer_did Sample.E_sheet_down
              DriveService GspreadClient "Sharath" Sample.sharath_folder
              Sample.recording Sample.w_empty (PStr "hello world")
              (PDict Sample.acme) Hfetch eq_refl Hanalyze eq_refl)
    as (_ & Hmove & Hdown).
  destruct (Hdown "APIError" {[Sample.sharath_folder]} eq_refl eq_refl eq_refl)
    as (Hsheet & Hrows & Hparents).
  exact (conj Hmove (conj Hsheet (conj Hrows Hparents))).
Defined.

(** * Folder ids from share links *)

Section FolderIds.

Import PyStr.

Lemma split_nonempty sep s : split sep s <> [].
Proof.
  destruct s as [|c s]; simpl; [done|].
  destruct (Ascii.eqb c sep); [done|]. by destruct (split sep s).
Qed.

(** Splitting distributes over a separator in the middle. *)
Lemma split_at sep a b :
  split sep (a ++ String sep b)%string = split sep a ++ split sep b.
Proof.
  induction a as [|c a IH]; rewrite ?append_cons; simpl.
  - by rewrite Ascii.eqb_refl.
  - rewrite IH. destruct (Ascii.eqb c sep); [done|].
    pose proof (split_nonempty sep a). by destruct (split sep a).
Qed.

Lemma split_without sep s : has_char sep s = false -> split sep s = [s].
Proof.
  induction s as [|c s IH]; simpl; [done|].
  intros [Hc Hs]%orb_false_elim. by rewrite Hc, IH.
Qed.

(** No piece holds the separator, and a character absent from the string
    is absent from every piece. *)
Lemma split_pieces_without_sep sep s :
  Forall (fun piece => has_char sep piece = false) (split sep s).
Proof.
  induction s as [|c s IH]; simpl; [by repeat constructor|].
  destruct (Ascii.eqb c sep) eqn:Hc; [by constructor|].
  pose proof (split_nonempty sep s).
  destruct (split sep s) as [|x xs]; [done|].
  apply Forall_cons in IH as [Hx Hxs]. constructor; [|done].
  simpl. by rewrite Hc.
Qed.

Lemma split_pieces_without c sep s :
  has_char c s = false ->
  Forall (fun piece => has_char c piece = false) (split sep s).
Proof.
  induction s as [|c' s IH]; simpl; [by repeat constructor|].
  intros [Hc Hs]%orb_false_elim. specialize (IH Hs).
  destruct (Ascii.eqb c' sep); [by constructor|].
  pose proof (split_nonempty sep s).
  destruct (split sep s) as [|x xs]; [done|].
  apply Forall_cons in IH as [Hx Hxs]. constructor; [|done].
  simpl. by rewrite Hc.
Qed.

Lemma Forall_last {A} (P : A -> Prop) (l : list A) d :
  l <> [] -> Forall P l -> P (List.last l d).
Proof.
  intros Hl Hall. induction Hall as [|x l Hx Hall IH]; [done|].
  destruct l as [|y l]; [done|]. by apply IH.
Qed.

Lemma last_app_singleton {A} (l : list A) x d : List.last (l ++ [x]) d = x.
Proof. apply last_last. Qed.

End FolderIds.

(** A share link ends in the folder id, with or without a query part after
    it: [get_id_from_url] returns that id, whatever precedes the last slash,
    as long as the id itself holds neither a slash nor a question mark and
    the query holds no slash. *)
Theorem get_id_from_url_extracts_id base id query :
  has_char "/" id = false ->
  has_char "?" id = false ->
  has_char "/" query = false ->
  get_id_from_url (base ++ "/" ++ id ++ "?" ++ query)%string = id /\
  get_id_from_url (base ++ "/" ++ id)%string = id.
Proof.
  intros Hslash Hquery Hq. unfold get_id_from_url. split.
  - change ("/" ++ id ++ "?" ++ query)%string
      with (String "/" (id ++ String "?" query)).
    rewrite split_at.
    assert (has_char "/" (id ++ String "?" query)%string = false) as Hrest.
    { clear Hquery. induction id as [|c id IH]; rewrite ?append_cons; simpl in *.
      - done.
      - apply orb_false_elim in Hslash as [-> Hid]. by apply IH. }
    rewrite (split_without _ _ Hrest), last_app_singleton.
    by rewrite split_at, (split_without _ _ Hquery).
  - change ("/" ++ id)%string with (String "/" id).
    rewrite split_at, (split_without _ _ Hslash), last_app_singleton.
    by rewrite (split_without _ _ Hquery).
Qed.

(** The link of the first team folder. *)
Lemma get_id_from_url_extracts_id_witness :
  get_id_from_url
    "https://drive.google.com/drive/folders/1Ddvswz50pgniX3WTQdV-gd2wEz56di5H?usp=sharing"
  = "1Ddvswz50pgniX3WTQdV-gd2wEz56di5H" /\
  get_id_from_url
    "https://drive.google.com/drive/folders/1Ddvswz50pgniX3WTQdV-gd2wEz56di5H"
  = "1Ddvswz50pgniX3WTQdV-gd2wEz56di5H".
Proof.
  exact (get_id_from_url_extracts_id "https://drive.google.com/drive/folders"
           "1Ddvswz50pgniX3WTQdV-gd2wEz56di5H" "usp=sharing"
           eq_refl eq_refl eq_refl).
Defined.

(** Whatever the text, the id [get_id_from_url] returns holds neither a
    slash nor a question mark, and asking again for the id of an id gives
    it back. *)
Theorem get_id_from_url_clean url :
  has_char "/" (get_id_from_url url) = false /\
  has_char "?" (get_id_from_url url) = false /\
  get_id_from_url (get_id_from_url url) = get_id_from_url url.
Proof.
  unfold get_id_from_url.
  set (tail := List.last (PyStr.split "/" url) "").
  assert (has_char "/" tail = false) as Htail.
  { apply (Forall_last (fun piece => has_char "/" piece = false));
      [apply split_nonempty|apply split_pieces_without_sep]. }
  pose proof (split_pieces_without "/" "?" tail Htail) as Hslash.
  pose proof (split_pieces_without_sep "?" tail) as Hquery.
  pose proof (split_nonempty "?" tail) as Hne.
  destruct (PyStr.split "?" tail) as [|id rest]; [done|]. simpl.
  apply Forall_cons in Hslash as [Hslash _].
  apply Forall_cons in Hquery as [Hquery _].
  split_and!; [done..|].
  rewrite (split_without _ _ Hslash). simpl.
  by rewrite (split_without _ _ Hquery).
Qed.

(** * Whole runs *)

Section Traces.

Implicit Types (t : list event) (P : event -> bool).

Lemma skeleton_app t1 t2 : skeleton (t1 ++ t2) = skeleton t1 ++ skeleton t2.
Proof. apply List.filter_app. Qed.

Lemma skeleton_logs t : only is_log t -> skeleton t = [].
Proof.
  induction 1 as [|ev t Hev _ IH]; [done|]. unfold skeleton in *. simpl.
  by rewrite Hev.
Qed.

(** Counting anything but log lines can be done on the skeleton. *)
Lemma count_skeleton P t :
  (forall lvl msg, P (Log lvl msg) = false) -> count P (skeleton t) = count P t.
Proof.
  intros Hlog. unfold count, skeleton. induction t as [|ev t IH]; [done|].
  destruct ev; simpl; rewrite ?Hlog; try done;
    match goal with |- context [P ?ev] => destruct (P ev) end; simpl; by rewrite IH.
Qed.

Lemma filter_skeleton P t :
  (forall lvl msg, P (Log lvl msg) = false) ->
  List.filter P (skeleton t) = List.filter P t.
Proof.
  intros Hlog. unfold skeleton. induction t as [|ev t IH]; [done|].
  destruct ev; simpl; rewrite ?Hlog; try done;
    match goal with |- context [P ?ev] => destruct (P ev) end; by rewrite IH.
Qed.

Lemma count_cons P ev t : count P (ev :: t) = (if P ev then 1 else 0) + count P t.
Proof. unfold count. simpl. by destruct (P ev). Qed.

Lemma tallies_nil : tallies [].
Proof. unfold tallies, count. simpl. lia. Qed.

Lemma tallies_app t1 t2 : tallies t1 -> tallies t2 -> tallies (t1 ++ t2).
Proof. unfold tallies. rewrite !count_app. lia. Qed.

(** The tallies of a trace are those of its skeleton. *)
Lemma tallies_skeleton t : tallies (skeleton t) -> tallies t.
Proof. unfold tallies. by rewrite !count_skeleton. Qed.

End Traces.

Section Worlds.

Lemma evolves_refl w : evolves w w.
Proof.
  split_and!; [done..|]. intros fid ps ps' H1 H2. simplify_eq.
  intros x Hx. apply elem_of_union. by right.
Qed.

Lemma evolves_trans a b c : evolves a b -> evolves b c -> evolves a c.
Proof.
  intros (Hs1 & Ht1 & Hd1 & Hp1) (Hs2 & Ht2 & Hd2 & Hp2). split_and!.
  - by etrans.
  - by etrans.
  - congruence.
  - intros fid ps ps'' Ha Hc.
    assert (is_Some (parents b !! fid)) as [ps' Hb].
    { apply elem_of_dom. rewrite Hd1. apply elem_of_dom. eauto. }
    specialize (Hp1 _ _ _ Ha Hb). specialize (Hp2 _ _ _ Hb Hc).
    intros x Hx. apply Hp2 in Hx.
    apply elem_of_union in Hx as [Hx|Hx]; [apply elem_of_union; by left|by apply Hp1].
Qed.

Lemma in_order_refl w : in_order w w [].
Proof.
  split_and!; [apply evolves_refl|apply tallies_nil|]. unfold count. simpl. lia.
Qed.

Lemma in_order_trans a b c t1 t2 :
  in_order a b t1 -> in_order b c t2 -> in_order a c (t1 ++ t2).
Proof.
  intros (He1 & Ht1 & Hl1) (He2 & Ht2 & Hl2). split_and!.
  - by eapply evolves_trans.
  - by apply tallies_app.
  - rewrite count_app. lia.
Qed.

(** A loop whose body never raises and keeps a relation that composes
    keeps it as a whole. *)
Lemma wp_for_each {A} (l : list A) (body : A -> M unit)
    (T : world -> world -> list event -> Prop) :
  (forall w, T w w []) ->
  (forall a b c t1 t2, T a b t1 -> T b c t2 -> T a c (t1 ++ t2)) ->
  (forall x w, wp (body x) w (fun r w' t => r = Ok tt /\ T w w' t)) ->
  forall w, wp (for_each l body) w (fun r w' t => r = Ok tt /\ T w w' t).
Proof.
  intros Hrefl Htrans Hbody. induction l as [|x l IH]; intros w; simpl.
  - by wp_step.
  - wp_step. eapply wp_mono; [apply Hbody|]. cbv beta.
    intros r w1 t1 [-> H1]. eapply wp_mono; [apply IH|]. cbv beta.
    intros r w2 t2 [-> H2]. split; [done|]. by eapply Htrans.
Qed.

(** What a loop leaves of one kind of event, when each round leaves a list
    that depends on the element alone. *)
Lemma for_each_filter {A} (P : event -> bool) (g : A -> list event)
    (l : list A) (body : A -> M unit) :
  (forall x w, outcome (body x w) = Ok tt /\ List.filter P (trace (body x w)) = g x) ->
  forall w, List.filter P (trace (for_each l body w)) = concat (map g l).
Proof.
  intros Hbody. induction l as [|x l IH]; intros w; [done|].
  destruct (Hbody x w) as [Hout Hx]. specialize (IH (final (body x w))).
  simpl. unfold mbind, M_bind. unfold outcome, final, trace in *.
  destruct (body x w) as [[r1 w1] t1]. simpl in *. subst r1.
  destruct (for_each l body w1) as [[r2 w2] t2]. simpl in *.
  by rewrite List.filter_app, Hx, IH.
Qed.

End Worlds.

Section Skeletons.

Variable E : env.

(** Each function of the pipeline, log lines left out, is one call. *)
Lemma download_file_skeleton ds fid w :
  wp (download_file E ds fid) w (fun r w' t =>
    skeleton t = [Download fid] /\
    r = match get_media E fid with
        | Ok chunks => Ok (concat chunks)
        | Raise e => Raise e
        end).
Proof.
  unfold download_file. wp_steps.
  destruct (get_media E fid) as [chunks|e]; [|done].
  wp_step. apply wp_for_each_log. intros t Ht. wp_steps. split; [|done].
  simpl. rewrite skeleton_app, (skeleton_logs t Ht). done.
Qed.

Lemma transcribe_audio_skeleton content name w :
  wp (transcribe_audio E content name) w (fun r w' t =>
    skeleton t = [Transcribe name]).
Proof.
  unfold transcribe_audio, NamedTemporaryFile, temp_file_write, os_remove,
    model_transcribe.
  wp_steps.
  destruct (tmp_create E (splitext_ext name)) as [e0|]; [by wp_steps|].
  wp_steps. cbn [sheet parents tmpdir].
  destruct (tmp_write E content) as [[]|e]; [|by wp_steps].
  wp_steps. cbn [sheet parents tmpdir].
  destruct (whisper_load E) as [[]|e1].
  - wp_steps. cbn [sheet parents tmpdir].
    rewrite lookup_alter_eq, lookup_insert_eq. cbn [fmap option_fmap option_map fst snd app].
    wp_step.
    destruct (whisper_transcribe E (splitext_ext name) content) as [segments|e2].
    + wp_steps. cbn [sheet parents tmpdir].
      rewrite lookup_alter_eq, lookup_insert_eq. cbn [fmap option_fmap option_map].
      by wp_steps.
    + wp_steps. cbn [sheet parents tmpdir].
      rewrite lookup_alter_eq, lookup_insert_eq. cbn [fmap option_fmap option_map].
      by wp_steps.
  - wp_steps. cbn [sheet parents tmpdir].
    rewrite lookup_alter_eq, lookup_insert_eq. cbn [fmap option_fmap option_map].
    by wp_steps.
Qed.

Lemma analyze_transcript_with_gemini_skeleton transcript owner_name w :
  wp (analyze_transcript_with_gemini E transcript owner_name) w (fun r w' t =>
    skeleton t = [Analyze transcript owner_name]).
Proof.
  unfold analyze_transcript_with_gemini. wp_steps.
  destruct (negb (opt_str_truthy (GEMINI_API_KEY E))); [by wp_steps|].
  wp_steps. destruct (generate_content E transcript owner_name) as [text|e].
  - wp_steps. destruct (json_loads E text) as [v|e]; [done|]. by wp_steps.
  - by wp_steps.
Qed.

Lemma write_to_google_sheets_skeleton gc data w :
  wp (write_to_google_sheets E gc data) w (fun r w' t =>
    skeleton t = WriteSheet data :: List.filter is_sheet_event t).
Proof.
  unfold write_to_google_sheets. wp_steps.
  apply wp_sheets_call.
  destruct (sheets_fault E OpenByKey (sheet w)); [by wp_steps|].
  wp_step. apply wp_sheets_call.
  destruct (sheets_fault E GetWorksheet (sheet w)); [by wp_steps|].
  wp_steps. apply wp_row_values_1.
  destruct (sheets_fault E RowValues (sheet w)); [by wp_steps|].
  wp_step. case_bool_decide as Hrow.
  - wp_steps. apply wp_append_row.
    destruct (sheets_fault E AppendRow (sheet w)); [by wp_steps|].
    wp_steps. destruct (row_for data header_keys) as [row|e] eqn:Hfor.
    + wp_steps. apply wp_append_row. cbn [sheet parents tmpdir].
      destruct (sheets_fault E AppendRow _); by wp_steps.
    + by wp_steps.
  - wp_steps. destruct (row_for data (row1 (sheet w))) as [row|e] eqn:Hfor.
    + wp_steps. apply wp_append_row.
      destruct (sheets_fault E AppendRow (sheet w)); by wp_steps.
    + by wp_steps.
Qed.

Lemma move_file_to_processed_skeleton ds fid source_folder_id w :
  wp (move_file_to_processed E ds fid source_folder_id) w (fun r w' t =>
    skeleton t = [MoveFile fid source_folder_id]).
Proof.
  unfold move_file_to_processed, files_update. wp_steps.
  destruct (files_update_fault E fid source_folder_id); [by wp_steps|].
  wp_steps. destruct (parents w !! fid) as [ps|]; by wp_steps.
Qed.

(** What a call of the Sheet Writer does to the sheet, in numbers. *)
Lemma write_effect_grows data rows sheet_events rows' :
  write_effect E data rows sheet_events rows' ->
  rows `prefix_of` rows' /\
  length rows' = length rows + length sheet_events /\
  count is_header_written sheet_events <= 1 /\
  count is_row_appended sheet_events <= 1 /\
  count is_header_written sheet_events + count is_row_appended sheet_events
  = length sheet_events.
Proof.
  intros [| | |]; unfold count; simpl; rewrite ?length_app; simpl;
    (split_and!; [first [done|by apply prefix_app_r]|lia..]).
Qed.

(** The Transcriber keeps every temporary file it did not create. *)
Lemma transcribe_audio_keeps_files content name w :
  tmpdir w ⊆ tmpdir (final (transcribe_audio E content name w)).
Proof.
  destruct (transcribe_audio_spec E content name w) as (_ & _ & _ & H).
  destruct (tmp_create E (splitext_ext name)); [by destruct H as [_ ->]|].
  destruct (tmp_write E content); destruct H as [_ ->]; [done|].
  apply insert_subseteq, not_elem_of_dom, is_fresh.
Qed.

End Skeletons.

Section OneFile.

Variable E : env.
Variables (ds : drive_handle) (gc : sheets_handle).

Lemma bind_run {A B} (m : M A) (k : A -> M B) w :
  (m ≫= k) w
  = match m w with
    | (Ok a, w1, t1) => let '(r, w2, t2) := k a w1 in (r, w2, t1 ++ t2)
    | (Raise e, w1, t1) => (Raise e, w1, t1)
    end.
Proof. reflexivity. Qed.

(** Fetching the transcript is the download followed, if it returned, by
    the transcription of what it returned. *)
Lemma fetch_transcript_run f w :
  match get_media E (file_id f) with
  | Ok chunks =>
      let rt := transcribe_audio E (concat chunks) (file_name f) w in
      outcome (fetch_transcript E ds f w) = outcome rt /\
      final (fetch_transcript E ds f w) = final rt /\
      trace (fetch_transcript E ds f w)
      = trace (download_file E ds (file_id f) w) ++ trace rt
  | Raise e =>
      outcome (fetch_transcript E ds f w) = Raise e /\
      final (fetch_transcript E ds f w) = w /\
      trace (fetch_transcript E ds f w) = trace (download_file E ds (file_id f) w)
  end.
Proof.
  destruct (download_file_spec E ds (file_id f) w) as (Hw & _).
  destruct (download_file_skeleton E ds (file_id f) w) as (_ & Hout).
  unfold fetch_transcript, mbind, M_bind. unfold outcome, final, trace in *.
  destruct (download_file E ds (file_id f) w) as [[rd wd] td]. simpl in *.
  subst wd. destruct (get_media E (file_id f)) as [chunks|e]; subst rd; [|done].
  by destruct (transcribe_audio E (concat chunks) (file_name f) w) as [[rt wt] tt].
Qed.

Lemma fetch_transcript_skeleton f w :
  skeleton (trace (fetch_transcript E ds f w))
  = match get_media E (file_id f) with
    | Ok _ => [Download (file_id f); Transcribe (file_name f)]
    | Raise _ => [Download (file_id f)]
    end.
Proof.
  pose proof (fetch_transcript_run f w) as Hrun.
  destruct (download_file_skeleton E ds (file_id f) w) as (Hd & _).
  destruct (get_media E (file_id f)) as [chunks|e].
  - destruct Hrun as (_ & _ & ->). rewrite skeleton_app, Hd.
    by rewrite (transcribe_audio_skeleton E (concat chunks) (file_name f) w).
  - destruct Hrun as (_ & _ & ->). done.
Qed.

(** When download fails there is no transcript. *)
Lemma fetch_transcript_download_fails f w e :
  get_media E (file_id f) = Raise e ->
  outcome (fetch_transcript E ds f w) = Raise e /\
  final (fetch_transcript E ds f w) = w.
Proof.
  intros Hfail. pose proof (fetch_transcript_run f w) as Hrun.
  rewrite Hfail in Hrun. by destruct Hrun as (? & ? & _).
Qed.

Lemma fetch_transcript_evolves f w :
  evolves w (final (fetch_transcript E ds f w)).
Proof.
  destruct (fetch_transcript_spec E ds f w) as (Hsheet & Hparents & _).
  pose proof (fetch_transcript_run f w) as Hrun.
  split_and!.
  - by rewrite Hsheet.
  - destruct (get_media E (file_id f)) as [chunks|e].
    + destruct Hrun as (_ & -> & _). apply transcribe_audio_keeps_files.
    + by destruct Hrun as (_ & -> & _).
  - by rewrite Hparents.
  - intros fid ps ps' Hps Hps'. rewrite Hparents in Hps'. simplify_eq.
    intros x Hx. apply elem_of_union. by right.
Qed.

(** Acting on a transcript, run by run. *)
Lemma after_transcription_run member_name folder_id f transcript w :
  let r := after_transcription E ds gc member_name folder_id f transcript w in
  let data := analysis_of E transcript member_name in
  let ta := trace (analyze_transcript_with_gemini E transcript member_name w) in
  outcome r = Ok tt /\
  if truthy transcript then
    if truthy data then
      let rw := write_to_google_sheets E gc data w in
      let rm := move_file_to_processed E ds (file_id f) folder_id (final rw) in
      final r = final rm /\
      trace r = ta ++ trace rw ++ trace rm ++ [Sleep 20]
    else final r = w /\ trace r = ta ++ [Sleep 20]
  else final r = w /\ trace r = [].
Proof.
  intros r data ta. subst r data ta.
  destruct (analyze_transcript_with_gemini_spec E transcript member_name w)
    as (Hout & Hw & _).
  unfold after_transcription. destruct (truthy transcript); [|by repeat split].
  rewrite bind_run. unfold outcome, final, trace in *.
  destruct (analyze_transcript_with_gemini E transcript member_name w)
    as [[ra wa] ta]. simpl in *. subst ra wa.
  rewrite bind_run.
  destruct (truthy (analysis_of E transcript member_name)); [|by repeat split].
  pose proof (write_to_google_sheets_spec E gc
                (analysis_of E transcript member_name) w) as (Hwout & _).
  rewrite bind_run. unfold outcome in *.
  destruct (write_to_google_sheets E gc _ w) as [[rw ww] tw]. simpl in *. subst rw.
  pose proof (move_file_to_processed_spec E ds (file_id f) folder_id ww)
    as (Hmout & _).
  unfold outcome in Hmout.
  destruct (move_file_to_processed E ds (file_id f) folder_id ww)
    as [[rm wm] tm]. simpl in *. subst rm.
  split; [done|]. split; [done|]. by rewrite <- !app_assoc.
Qed.

End OneFile.

Lemma process_file_stages E ds gc member_name folder_id f w :
  let r := process_file E ds gc member_name folder_id f w in
  outcome r = Ok tt /\
  pipeline E member_name folder_id f (sheet w) (skeleton (trace r))
    (sheet (final r)).
Proof.
  intros r. subst r.
  split; [apply process_file_total|].
  pose proof (process_file_run E ds gc member_name folder_id f w) as Hrun.
  pose proof (fetch_transcript_skeleton E ds f w) as Hskel.
  pose proof (fetch_transcript_run E ds f w) as Hfetch.
  destruct (fetch_transcript_spec E ds f w) as (Hsheet & _).
  cbv zeta in Hrun.
  destruct (get_media E (file_id f)) as [chunks|e] eqn:Hmedia.
  - cbv zeta in Hfetch. destruct Hfetch as (Hout & _ & _).
    rewrite transcribe_audio_outcome in Hout.
    destruct (outcome (fetch_transcript E ds f w)) as [transcript|e].
    + destruct Hrun as (_ & -> & ->).
      pose proof (after_transcription_run E ds gc member_name folder_id f
                    transcript (final (fetch_transcript E ds f w))) as Hafter.
      cbv zeta in Hafter. destruct Hafter as (_ & Hafter).
      change (skeleton (?x :: ?t)) with (skeleton t).
      rewrite skeleton_app, Hskel.
      destruct (truthy transcript) eqn:Htranscript.
      * destruct (truthy (analysis_of E transcript member_name)) eqn:Hdata.
        -- destruct Hafter as (-> & ->).
           rewrite !skeleton_app.
           rewrite (analyze_transcript_with_gemini_skeleton E transcript member_name
                      (final (fetch_transcript E ds f w))).
           rewrite (write_to_google_sheets_skeleton E gc
                      (analysis_of E transcript member_name)
                      (final (fetch_transcript E ds f w))).
           destruct (write_to_google_sheets_spec E gc
                       (analysis_of E transcript member_name)
                       (final (fetch_transcript E ds f w)))
             as (_ & _ & _ & _ & Heffect).
           set (rw := write_to_google_sheets E gc _ _) in *.
           rewrite (move_file_to_processed_skeleton E ds (file_id f) folder_id
                      (final rw)).
           destruct (move_file_to_processed_spec E ds (file_id f) folder_id
                       (final rw)) as (_ & -> & _).
           rewrite Hsheet in Heffect.
           by apply (runs_through E member_name folder_id f (sheet w) chunks
                       transcript).
        -- destruct Hafter as (-> & ->). rewrite skeleton_app.
           rewrite (analyze_transcript_with_gemini_skeleton E transcript member_name
                      (final (fetch_transcript E ds f w))).
           rewrite Hsheet. by apply (stops_at_analysis _ _ _ _ _ chunks).
      * destruct Hafter as (-> & ->). rewrite Hsheet.
        by apply (stops_at_transcription _ _ _ _ _ chunks transcript).
    + destruct Hrun as (_ & -> & ->).
      change (skeleton (?x :: ?t)) with (skeleton t).
      rewrite skeleton_app, Hskel, Hsheet.
      by apply (stops_at_temp_file _ _ _ _ _ chunks e).
  - destruct Hfetch as (Hout & _ & _). rewrite Hout in Hrun.
    destruct Hrun as (_ & -> & ->).
    change (skeleton (?x :: ?t)) with (skeleton t).
    rewrite skeleton_app, Hskel, Hsheet. by apply (stops_at_download _ _ _ _ _ e).
Qed.

(** The order of the pipeline.  For every file, whatever the services
    answer, the loop body returns, and its calls and effects are those of
    the one run [pipeline] gives for these answers: the download alone when
    it raised; download and transcription when the Transcriber raised (the
    temporary file could not be created or written) or returned a falsy
    transcript; then the analysis and the wait when the analysis result is
    falsy; and else the Sheet Writer, directly followed by the Archiver,
    and the wait last.  The sheet is as before unless the Sheet Writer ran,
    and then it changed as one call of the Sheet Writer changes it. *)
Theorem process_file_pipeline E ds gc member_name folder_id f w :
  let r := process_file E ds gc member_name folder_id f w in
  outcome r = Ok tt /\
  pipeline E member_name folder_id f (sheet w) (skeleton (trace r))
    (sheet (final r)).
Proof. apply process_file_stages. Qed.

Section Accounting.

Variable E : env.
Variables (ds : drive_handle) (gc : sheets_handle).

(** What the runs of the pipeline add up to. *)
Lemma pipeline_tallies member_name folder_id f rows t rows' :
  pipeline E member_name folder_id f rows t rows' ->
  tallies t /\
  length rows' = length rows + count is_sheet_event t /\
  List.filter is_download t = [Download (file_id f)] /\
  List.filter is_files_list t = [].
Proof.
  intros [| | | |chunks transcript sheet_events rows'' _ _ _ _ Heffect];
    try (unfold tallies, count; simpl; split_and!; (done || lia)).
  destruct Heffect; unfold tallies, count; simpl; rewrite ?length_app; simpl;
    split_and!; (done || lia).
Qed.

Lemma write_to_google_sheets_evolves data w :
  evolves w (final (write_to_google_sheets E gc data w)).
Proof.
  destruct (write_to_google_sheets_spec E gc data w)
    as (_ & Hparents & Htmp & _ & Heffect).
  apply write_effect_grows in Heffect as (Hprefix & _).
  split_and!; [done|by rewrite Htmp|by rewrite Hparents|].
  intros fid ps ps' Hps Hps'. rewrite Hparents in Hps'. simplify_eq.
  intros x Hx. apply elem_of_union. by right.
Qed.

Lemma move_file_to_processed_evolves fid source_folder_id w :
  evolves w (final (move_file_to_processed E ds fid source_folder_id w)).
Proof.
  destruct (move_file_to_processed_spec E ds fid source_folder_id w)
    as (_ & Hsheet & Htmp & _ & _ & Hparents).
  assert (forall ps : gset string,
            ps ⊆ {[PROCESSED_FOLDER_ID]} ∪ ps) as Hsame.
  { intros ps x Hx. apply elem_of_union. by right. }
  split_and!; [by rewrite Hsheet|by rewrite Htmp| |].
  - rewrite Hparents. destruct (files_update_fault E fid source_folder_id); [done|].
    destruct (parents w !! fid) as [ps|] eqn:Hfid; [|done].
    rewrite dom_insert_L. apply elem_of_dom_2 in Hfid.
    by apply subseteq_union_1_L, singleton_subseteq_l.
  - intros fid' ps ps' Hps Hps'. rewrite Hparents in Hps'.
    destruct (files_update_fault E fid source_folder_id);
      [simplify_eq; apply Hsame|].
    destruct (parents w !! fid) as [ps0|] eqn:Hfid; [|simplify_eq; apply Hsame].
    destruct (decide (fid = fid')) as [<-|Hne].
    + rewrite lookup_insert_eq in Hps'. simplify_eq.
      intros x [Hx _]%elem_of_difference. done.
    + rewrite lookup_insert_ne in Hps' by done. simplify_eq. apply Hsame.
Qed.

Lemma after_transcription_evolves member_name folder_id f transcript w :
  evolves w (final (after_transcription E ds gc member_name folder_id f transcript w)).
Proof.
  pose proof (after_transcription_run E ds gc member_name folder_id f transcript w)
    as Hrun.
  cbv zeta in Hrun. destruct Hrun as (_ & Hrun).
  destruct (truthy transcript); [|destruct Hrun as [-> _]; apply evolves_refl].
  destruct (truthy (analysis_of E transcript member_name));
    [|destruct Hrun as [-> _]; apply evolves_refl].
  destruct Hrun as [-> _].
  eapply evolves_trans;
    [apply write_to_google_sheets_evolves|apply move_file_to_processed_evolves].
Qed.

Lemma process_file_evolves member_name folder_id f w :
  evolves w (final (process_file E ds gc member_name folder_id f w)).
Proof.
  pose proof (process_file_run E ds gc member_name folder_id f w) as Hrun.
  cbv zeta in Hrun.
  destruct (outcome (fetch_transcript E ds f w)) as [transcript|e];
    destruct Hrun as (_ & -> & _); [|apply fetch_transcript_evolves].
  eapply evolves_trans;
    [apply fetch_transcript_evolves|apply after_transcription_evolves].
Qed.

(** The loop body, as one step of the run. *)
Lemma process_file_in_order member_name folder_id f w :
  wp (process_file E ds gc member_name folder_id f) w (fun r w' t =>
    r = Ok tt /\ in_order w w' t).
Proof.
  destruct (process_file_stages E ds gc member_name folder_id f w)
    as [Hout Hpipe].
  apply pipeline_tallies in Hpipe as (Htallies & Hrows & _).
  split; [done|]. split_and!.
  - apply process_file_evolves.
  - by apply tallies_skeleton.
  - by rewrite count_skeleton in Hrows.
Qed.

Lemma process_file_filters member_name folder_id f w :
  List.filter is_download (trace (process_file E ds gc member_name folder_id f w))
  = [Download (file_id f)] /\
  List.filter is_files_list (trace (process_file E ds gc member_name folder_id f w))
  = [].
Proof.
  destruct (process_file_stages E ds gc member_name folder_id f w)
    as [_ Hpipe].
  apply pipeline_tallies in Hpipe as (_ & _ & Hdownload & Hlist).
  by rewrite !filter_skeleton in Hdownload, Hlist.
Qed.

(** Events that change no count and no world. *)
Lemma in_order_aside w t :
  Forall (fun ev => is_log ev || is_files_list ev
                    || match ev with Authenticate => true | _ => false end = true) t ->
  in_order w w t.
Proof.
  induction 1 as [|ev t Hev _ IH]; [apply in_order_refl|].
  change (ev :: t) with ([ev] ++ t). eapply in_order_trans; [|exact IH].
  split_and!; [apply evolves_refl| |]; destruct ev; try done;
    unfold tallies, count; simpl; lia.
Qed.

(** One team folder, as one step of the run: it never raises, and it asks
    Drive for the one listing of its own folder. *)
Lemma process_folder_in_order member w :
  wp (process_folder E ds gc member) w (fun r w' t =>
    r = Ok tt /\ in_order w w' t /\
    List.filter is_files_list t = [FilesList member.2]).
Proof.
  destruct member as [member_name folder_id]. unfold process_folder. wp_steps.
  destruct (files_list E (parents w) folder_id) as [files|e].
  - wp_steps.
    assert (wp (for_each files (process_file E ds gc member_name folder_id)) w
              (fun r w' t => r = Ok tt /\ in_order w w' t /\
                             List.filter is_files_list t = [])) as Hloop.
    { split_and!.
      - apply (wp_for_each files _ in_order in_order_refl in_order_trans
                 (process_file_in_order member_name folder_id) w).
      - apply (wp_for_each files _ in_order in_order_refl in_order_trans
                 (process_file_in_order member_name folder_id) w).
      - rewrite (for_each_filter is_files_list (fun _ => []) files).
        + by induction files.
        + intros f w0. split; [apply process_file_total|apply process_file_filters]. }
    destruct files as [|f0 files].
    + wp_steps. split_and!; [done| |done].
      apply in_order_aside. by repeat constructor.
    + eapply wp_mono; [exact Hloop|]. cbv beta.
      intros r w' t (-> & Horder & Hlist). split_and!; [done| |].
      * apply (in_order_trans w w w' [_; _; _; _]); [|done].
        apply in_order_aside. by repeat constructor.
      * simpl. by rewrite Hlist.
  - wp_steps. split_and!; [done| |done].
    apply in_order_aside. by repeat constructor.
Qed.

End Accounting.

Section WholeRun.

Variable E : env.

Lemma count_sheet_events t :
  count is_sheet_event t = count is_header_written t + count is_row_appended t.
Proof.
  unfold count. induction t as [|ev t IH]; [done|].
  destruct ev; simpl; lia.
Qed.

(** The whole run, as one step. *)
Lemma main_in_order w :
  wp (main E) w (fun r w' t =>
    r = Ok tt /\ in_order w w' t /\
    List.filter is_files_list t
    = match clients_of E with
      | (Some _, Some _) => map FilesList (map snd TEAM_FOLDERS)
      | _ => []
      end).
Proof.
  unfold main. wp_steps.
  change (negb (str_truthy GOOGLE_SHEET_ID) || negb (str_truthy PROCESSED_FOLDER_ID))
    with false. cbv iota. wp_step.
  eapply wp_mono; [apply authenticate_google_services_spec|]. cbv beta.
  intros r w' ta (-> & -> & Hta).
  assert (in_order w w ta /\ List.filter is_files_list ta = []) as [Horder Hnone].
  { split.
    - apply in_order_aside. eapply Forall_impl; [exact Hta|]. by intros [].
    - clear -Hta. induction Hta as [|ev t Hev _ IH]; [done|]. by destruct ev. }
  assert (forall ds gc,
    wp (for_each TEAM_FOLDERS (process_folder E ds gc)) w (fun r w' t =>
      r = Ok tt /\ in_order w w' t /\
      List.filter is_files_list t = map FilesList (map snd TEAM_FOLDERS)))
    as Hloop.
  { intros ds gc. split_and!.
    - apply (wp_for_each TEAM_FOLDERS _ in_order in_order_refl in_order_trans
               (fun member w0 =>
                  let H := process_folder_in_order E ds gc member w0 in
                  conj (proj1 H) (proj1 (proj2 H))) w).
    - apply (wp_for_each TEAM_FOLDERS _ in_order in_order_refl in_order_trans
               (fun member w0 =>
                  let H := process_folder_in_order E ds gc member w0 in
                  conj (proj1 H) (proj1 (proj2 H))) w).
    - rewrite (for_each_filter is_files_list (fun member => [FilesList member.2])
                 TEAM_FOLDERS); [done|].
      intros member w0.
      destruct (process_folder_in_order E ds gc member w0) as (Hout & _ & Hlist).
      by split. }
  assert (forall msg,
    in_order w w (Log INFO "--- Starting main execution ---"
                  :: ta ++ [Log ERROR msg]) /\
    List.filter is_files_list (Log INFO "--- Starting main execution ---"
                               :: ta ++ [Log ERROR msg]) = []) as Hstop.
  { intros msg. split.
    - apply (in_order_trans w w w [_] (ta ++ [_])).
      + apply in_order_aside. by repeat constructor.
      + apply (in_order_trans w w w ta [_]); [done|].
        apply in_order_aside. by repeat constructor.
    - simpl. by rewrite List.filter_app, Hnone. }
  destruct (clients_of E) as [[ds|] [gc|]];
    try (wp_steps; split; [done|]; apply Hstop).
  wp_steps. eapply wp_mono; [apply Hloop|]. cbv beta.
  intros r w' t (-> & Ht & Hlist). wp_steps. split; [done|]. split.
  - apply (in_order_trans w w w' [_] (ta ++ [_] ++ t ++ [_])).
    { apply in_order_aside. by repeat constructor. }
    apply (in_order_trans w w w' ta ([_] ++ t ++ [_])); [done|].
    apply (in_order_trans w w w' [_] (t ++ [_])).
    { apply in_order_aside. by repeat constructor. }
    rewrite <- (app_nil_r (t ++ [_])), <- app_assoc.
    apply (in_order_trans w w' w' t ([_] ++ [])); [done|].
    apply in_order_aside. by repeat constructor.
  - simpl. rewrite List.filter_app, Hnone. simpl.
    rewrite List.filter_app, Hlist. simpl. by rewrite ?app_nil_r.
Qed.

End WholeRun.

(** A run always ends normally, and it only ever adds: the rows the sheet
    had are still its first rows; every temporary file that was there is
    still there, unchanged; Drive holds the same files, none deleted and
    none created; and no file is in a folder it was not in before, the
    processed folder apart. *)
Theorem main_completes_and_preserves E w :
  outcome (main E w) = Ok tt /\ evolves w (final (main E w)).
Proof.
  destruct (main_in_order E w) as (Hout & (Hevolves & _) & _). by split.
Qed.

(** Over a whole run the events add up: there is one wait per call of the
    Analyzer and one call of the Archiver per call of the Sheet Writer, and
    no stage is entered more often than the one before it (download,
    transcription, analysis, Sheet Writer); headers and rows are written at
    most once per call of the Sheet Writer. *)
Theorem main_tallies E w : tallies (trace (main E w)).
Proof. by destruct (main_in_order E w) as (_ & (_ & Htallies & _) & _). Qed.

(** Every row a run adds to the sheet is a header row or a record's row the
    Sheet Writer appended: the sheet grows by exactly the number of those
    two events. *)
Theorem main_rows_accounted E w :
  length (sheet (final (main E w)))
  = length (sheet w)
    + count is_header_written (trace (main E w))
    + count is_row_appended (trace (main E w)).
Proof.
  destruct (main_in_order E w) as (_ & (_ & _ & Hrows) & _).
  rewrite count_sheet_events in Hrows. lia.
Qed.

(** When authentication returned both handles, a run asks Drive for the
    listing of every team folder exactly once, in the order of
    [TEAM_FOLDERS], whatever happens inside any folder; otherwise it asks
    for none. *)
Theorem main_lists_each_folder_once E w :
  List.filter is_files_list (trace (main E w))
  = match outcome (authenticate_google_services E w) with
    | Ok (Some _, Some _) => map FilesList (map snd TEAM_FOLDERS)
    | _ => []
    end.
Proof.
  destruct (main_in_order E w) as (_ & _ & Hlist).
  destruct (authenticate_google_services_spec E w) as (-> & _).
  exact Hlist.
Qed.

(** * Components, one by one *)

Lemma world_ext (a b : world) :
  sheet a = sheet b -> parents a = parents b -> tmpdir a = tmpdir b -> a = b.
Proof. destruct a, b. simpl. by intros -> -> ->. Qed.

(** The Credential Provider returns both handles or none, never one
    without the other, never raises and changes nothing.  It returns both
    exactly when the secret is set and not empty, parses, and is accepted
    when the clients are built. *)
Theorem authenticate_all_or_nothing E w :
  let r := authenticate_google_services E w in
  final r = w /\
  (outcome r = Ok (Some DriveService, Some GspreadClient) \/
   outcome r = Ok (None, None)) /\
  (outcome r = Ok (Some DriveService, Some GspreadClient) <->
   exists key creds_info,
     GCP_SERVICE_ACCOUNT_KEY E = Some key /\ key <> "" /\
     json_loads E key = Ok creds_info /\ build_clients E creds_info = Ok tt).
Proof.
  intros r. subst r.
  destruct (authenticate_google_services_spec E w) as (-> & -> & _).
  split; [done|]. unfold clients_of.
  destruct (GCP_SERVICE_ACCOUNT_KEY E) as [key|]; simpl.
  - unfold str_truthy. destruct (String.eqb_spec key "") as [->|Hkey]; simpl.
    + split; [by right|]. split; [done|]. by intros (? & ? & [= <-] & ? & _).
    + destruct (json_loads E key) as [creds_info|e] eqn:Hloads.
      * destruct (build_clients E creds_info) as [[]|e] eqn:Hbuild.
        -- split; [by left|]. split; [|done]. intros _. by exists key, creds_info.
        -- split; [by right|]. split; [done|].
           intros (? & ? & [= <-] & _ & ? & ?). congruence.
      * split; [by right|]. split; [done|].
        intros (? & ? & [= <-] & _ & ? & _). congruence.
  - split; [by right|]. split; [done|]. by intros (? & ? & ? & _).
Qed.

Section Archiver.

Variable E : env.
Variable ds : drive_handle.

(** Relabelling twice is relabelling once. *)
Lemma relabel_idempotent source_folder_id ps :
  relabel source_folder_id (relabel source_folder_id ps)
  = relabel source_folder_id ps.
Proof.
  unfold relabel. apply set_eq. intros x.
  rewrite !elem_of_difference, !elem_of_union, !elem_of_difference, !elem_of_union.
  tauto.
Qed.

Lemma move_file_to_processed_final fid source_folder_id w :
  final (move_file_to_processed E ds fid source_folder_id w)
  = match files_update_fault E fid source_folder_id, parents w !! fid with
    | None, Some ps =>
        World (sheet w) (<[fid := relabel source_folder_id ps]> (parents w))
          (tmpdir w)
    | _, _ => w
    end.
Proof.
  destruct (move_file_to_processed_spec E ds fid source_folder_id w)
    as (_ & Hsheet & Htmp & _ & _ & Hparents).
  apply world_ext;
    destruct (files_update_fault E fid source_folder_id);
    destruct (parents w !! fid); done.
Qed.

End Archiver.

(** What a successful move does.  When the Drive update goes through for a
    file that exists, the file's parents are the old ones with the
    processed folder added and the source folder removed; so, the source
    folder not being the processed folder, the file is in the processed
    folder and no longer in the source folder.  No other file changes, nor
    does the sheet or the temporary directory. *)
Theorem move_file_to_processed_moves E ds fid source_folder_id w ps :
  parents w !! fid = Some ps ->
  files_update_fault E fid source_folder_id = None ->
  let w' := final (move_file_to_processed E ds fid source_folder_id w) in
  parents w' !! fid = Some (relabel source_folder_id ps) /\
  (source_folder_id <> PROCESSED_FOLDER_ID ->
   PROCESSED_FOLDER_ID ∈ relabel source_folder_id ps /\
   source_folder_id ∉ relabel source_folder_id ps) /\
  (forall other, other <> fid -> parents w' !! other = parents w !! other) /\
  sheet w' = sheet w /\ tmpdir w' = tmpdir w.
Proof.
  intros Hps Hfault w'. subst w'.
  rewrite move_file_to_processed_final, Hfault, Hps. simpl. split_and!; try done.
  - apply lookup_insert_eq.
  - intros Hne. unfold relabel.
    rewrite elem_of_difference, not_elem_of_difference, elem_of_union,
      !elem_of_singleton.
    split; [split; [by left|congruence]|by right].
  - intros other Hother. by apply lookup_insert_ne.
Qed.

Lemma move_file_to_processed_moves_witness :
  let w' := final (move_file_to_processed Sample.E_ok DriveService "f1"
                     Sample.sharath_folder Sample.w_empty) in
  parents w' !! "f1" = Some (relabel Sample.sharath_folder {[Sample.sharath_folder]}) /\
  PROCESSED_FOLDER_ID ∈ relabel Sample.sharath_folder {[Sample.sharath_folder]} /\
  Sample.sharath_folder ∉ relabel Sample.sharath_folder {[Sample.sharath_folder]}.
Proof.
  destruct (move_file_to_processed_moves Sample.E_ok DriveService "f1"
              Sample.sharath_folder Sample.w_empty {[Sample.sharath_folder]}
              eq_refl eq_refl) as (Hparents & Hin & _).
  assert (Sample.sharath_folder <> PROCESSED_FOLDER_ID) as Hne by discriminate.
  exact (conj Hparents (Hin Hne)).
Defined.

(** What a failed move does: nothing.  When the Drive update raises, or the
    file is not there, the Archiver logs the failure and returns; the world
    is as it was, so the file is still in its source folder and the next run
    finds it again. *)
Theorem move_file_to_processed_failure E ds fid source_folder_id w :
  (exists e, files_update_fault E fid source_folder_id = Some e) \/
  parents w !! fid = None ->
  outcome (move_file_to_processed E ds fid source_folder_id w) = Ok tt /\
  final (move_file_to_processed E ds fid source_folder_id w) = w.
Proof.
  intros Hfail.
  split; [apply (move_file_to_processed_spec E ds fid source_folder_id w)|].
  rewrite move_file_to_processed_final.
  destruct Hfail as [[e ->]| ->]; [done|].
  by destruct (files_update_fault E fid source_folder_id).
Qed.

Lemma move_file_to_processed_failure_witness :
  (outcome (move_file_to_processed Cases.E_move_fails DriveService "f1"
              Sample.sharath_folder Sample.w_empty) = Ok tt /\
   final (move_file_to_processed Cases.E_move_fails DriveService "f1"
            Sample.sharath_folder Sample.w_empty) = Sample.w_empty) /\
  (outcome (move_file_to_processed Sample.E_ok DriveService "gone"
              Sample.sharath_folder Sample.w_empty) = Ok tt /\
   final (move_file_to_processed Sample.E_ok DriveService "gone"
            Sample.sharath_folder Sample.w_empty) = Sample.w_empty).
Proof.
  split.
  - exact (move_file_to_processed_failure Cases.E_move_fails DriveService "f1"
             Sample.sharath_folder Sample.w_empty
             (or_introl (ex_intro _ "HttpError 403" eq_refl))).
  - exact (move_file_to_processed_failure Sample.E_ok DriveService "gone"
             Sample.sharath_folder Sample.w_empty (or_intror eq_refl)).
Defined.

(** Moving a file again changes nothing more.  Once a move went through,
    a further attempt on the same file and source folder leaves the world as
    the first move left it, whether Drive accepts the second update or
    rejects it. *)
Theorem move_file_to_processed_idempotent E E' ds fid source_folder_id w ps :
  parents w !! fid = Some ps ->
  files_update_fault E fid source_folder_id = None ->
  let once := final (move_file_to_processed E ds fid source_folder_id w) in
  final (move_file_to_processed E' ds fid source_folder_id once) = once.
Proof.
  intros Hps Hfault once. subst once. rewrite !move_file_to_processed_final.
  rewrite Hfault, Hps. simpl. rewrite lookup_insert_eq.
  destruct (files_update_fault E' fid source_folder_id); [done|].
  by rewrite insert_insert_eq, relabel_idempotent.
Qed.

Lemma move_file_to_processed_idempotent_witness :
  let once := final (move_file_to_processed Sample.E_ok DriveService "f1"
                       Sample.sharath_folder Sample.w_empty) in
  final (move_file_to_processed Sample.E_ok DriveService "f1"
           Sample.sharath_folder once) = once /\
  final (move_file_to_processed Cases.E_move_fails DriveService "f1"
           Sample.sharath_folder once) = once.
Proof.
  split.
  - exact (move_file_to_processed_idempotent Sample.E_ok Sample.E_ok DriveService
             "f1" Sample.sharath_folder Sample.w_empty {[Sample.sharath_folder]}
             eq_refl eq_refl).
  - exact (move_file_to_processed_idempotent Sample.E_ok Cases.E_move_fails
             DriveService "f1" Sample.sharath_folder Sample.w_empty
             {[Sample.sharath_folder]} eq_refl eq_refl).
Defined.

Lemma transcribe_audio_written E content name w :
  tmp_create E (splitext_ext name) = None ->
  tmp_write E content = Ok tt ->
  let r := transcribe_audio E content name w in
  final r = w /\
  (exists v, outcome r = Ok v) /\
  (outcome r = Ok PNone <->
   (exists e, whisper_load E = Raise e) \/
   (exists e, whisper_transcribe E (splitext_ext name) content = Raise e)).
Proof.
  intros Hcreate Hwrite r. subst r.
  destruct (transcribe_audio_spec E content name w) as (Hsheet & Hparents & _ & H).
  rewrite Hcreate, Hwrite in H. destruct H as [-> Htmp].
  split; [by apply world_ext|]. split; [by eexists|].
  unfold transcript_of.
  destruct (whisper_load E) as [[]|e1].
  - destruct (whisper_transcribe E (splitext_ext name) content) as [segments|e2].
    + split; [done|]. by intros [[? ?]|[? ?]].
    + split; [|done]. intros _. right. by exists e2.
  - split; [|done]. intros _. left. by exists e1.
Qed.

(** When the temporary file could be created and written, the Transcriber
    returns rather than raises and leaves the whole world as it found it:
    the temporary file is gone again, on the successful path and on the
    failing one.  It returns [None] exactly when the speech model failed,
    at loading or while transcribing. *)
Theorem transcribe_audio_after_write E content name w :
  tmp_create E (splitext_ext name) = None ->
  tmp_write E content = Ok tt ->
  let r := transcribe_audio E content name w in
  final r = w /\
  (exists v, outcome r = Ok v) /\
  (outcome r = Ok PNone <->
   (exists e, whisper_load E = Raise e) \/
   (exists e, whisper_transcribe E (splitext_ext name) content = Raise e)).
Proof. apply transcribe_audio_written. Qed.

Lemma transcribe_audio_after_write_witness :
  (final (transcribe_audio Sample.E_ok [Byte.x49] "rec.mp3" Sample.w_empty)
   = Sample.w_empty /\
   outcome (transcribe_audio Sample.E_ok [Byte.x49] "rec.mp3" Sample.w_empty)
   <> Ok PNone) /\
  (final (transcribe_audio Sample.E_whisper_fails [Byte.x49] "rec.mp3"
            Sample.w_empty) = Sample.w_empty /\
   outcome (transcribe_audio Sample.E_whisper_fails [Byte.x49] "rec.mp3"
              Sample.w_empty) = Ok PNone).
Proof.
  destruct (transcribe_audio_after_write Sample.E_ok [Byte.x49] "rec.mp3"
              Sample.w_empty eq_refl eq_refl) as (Hok & _ & Hiff).
  destruct (transcribe_audio_after_write Sample.E_whisper_fails [Byte.x49]
              "rec.mp3" Sample.w_empty eq_refl eq_refl) as (Hfail & _ & Hiff').
  split; split; [exact Hok| |exact Hfail|].
  - intros Hnone. apply Hiff in Hnone as [[e He]|[e He]]; discriminate He.
  - apply Hiff'. right. by exists "RuntimeError".
Defined.


(** The two ways the temporary-file step fails, on the sample recording.
    A write that stops after two bytes leaves a file holding those two
    bytes; a file that cannot be created leaves nothing.  Either way the
    exception leaves the Transcriber, and the loop body catches it. *)
Lemma transcribe_audio_partial_write :
  let r := transcribe_audio Cases.E_partial_write [Byte.x49; Byte.x44; Byte.x33]
             "rec.mp3" Sample.w_empty in
  outcome r = Raise "OSError: [Errno 28] No space left on device" /\
  tmpdir (final r) !! 0 = Some (".mp3", [Byte.x49; Byte.x44]).
Proof. vm_compute. by split. Qed.

Lemma transcribe_audio_no_file_created :
  let r := transcribe_audio Cases.E_name_too_long [Byte.x49; Byte.x44; Byte.x33]
             "rec.mp3" Sample.w_empty in
  let r' := process_file Cases.E_name_too_long DriveService GspreadClient "Sharath"
              Sample.sharath_folder Sample.recording Sample.w_empty in
  outcome r = Raise "OSError: [Errno 36] File name too long" /\
  tmpdir (final r) = ∅ /\
  outcome r' = Ok tt /\
  skeleton (trace r') = [Download "f1"; Transcribe "rec.mp3"].
Proof. vm_compute. by split_and!. Qed.

Section Blank.

Import PyStr.

Lemma lstrip_all_space s : all_space s = true -> lstrip s = "".
Proof.
  induction s as [|c s IH]; simpl; [done|].
  intros [Hc Hs]%andb_prop. rewrite Hc. by apply IH.
Qed.

Lemma strip_all_space s : all_space s = true -> strip s = "".
Proof. intros Hs. unfold strip. by rewrite lstrip_all_space. Qed.

Lemma all_space_append a b :
  all_space a = true -> all_space b = true -> all_space (a ++ b)%string = true.
Proof.
  intros Ha Hb. induction a as [|c a IH]; [done|].
  rewrite append_cons. simpl in *. apply andb_prop in Ha as [-> Ha].
  by apply IH.
Qed.

Lemma all_space_join segments :
  Forall (fun s => all_space s = true) segments ->
  all_space (join " " segments) = true.
Proof.
  induction 1 as [|s segments Hs Hall IH]; [done|].
  destruct segments as [|s' segments]; [done|].
  change (join " " (s :: s' :: segments))
    with (s ++ " " ++ join " " (s' :: segments))%string.
  apply all_space_append; [done|]. by apply all_space_append.
Qed.

End Blank.

Section Skipped.

Variable E : env.
Variables (ds : drive_handle) (gc : sheets_handle).

(** A loop body that got no truthy transcript made two calls at most and
    left the world as fetching left it. *)
Lemma process_file_skipped member_name folder_id f w :
  match outcome (fetch_transcript E ds f w) with
  | Ok transcript => truthy transcript = false
  | Raise _ => True
  end ->
  let r := process_file E ds gc member_name folder_id f w in
  outcome r = Ok tt /\
  final r = final (fetch_transcript E ds f w) /\
  skeleton (trace r) = skeleton (trace (fetch_transcript E ds f w)).
Proof.
  intros Hfalsy r. subst r.
  destruct (process_file_without_transcript E ds gc member_name folder_id f w
              Hfalsy) as (Hout & _ & Hfinal & handled & -> & Hlogs).
  split_and!; [done..|].
  change (skeleton (?x :: ?t)) with (skeleton t).
  by rewrite skeleton_app, (skeleton_logs handled Hlogs), app_nil_r.
Qed.

(** A loop body whose Analyzer returned something falsy made four calls,
    the wait last, and left the world as fetching left it. *)
Lemma process_file_no_result member_name folder_id f w transcript :
  outcome (fetch_transcript E ds f w) = Ok transcript ->
  truthy transcript = true ->
  truthy (analysis_of E transcript member_name) = false ->
  let r := process_file E ds gc member_name folder_id f w in
  outcome r = Ok tt /\
  final r = final (fetch_transcript E ds f w) /\
  skeleton (trace r)
  = [Download (file_id f); Transcribe (file_name f);
     Analyze transcript member_name; Sleep 20].
Proof.
  intros Hfetch Htranscript Hdata r. subst r.
  pose proof (process_file_run E ds gc member_name folder_id f w) as Hrun.
  pose proof (fetch_transcript_skeleton E ds f w) as Hskel.
  pose proof (fetch_transcript_run E ds f w) as Hparts.
  cbv zeta in Hrun. rewrite Hfetch in Hrun. destruct Hrun as (-> & -> & ->).
  pose proof (after_transcription_run E ds gc member_name folder_id f transcript
                (final (fetch_transcript E ds f w))) as Hafter.
  cbv zeta in Hafter. rewrite Htranscript, Hdata in Hafter.
  destruct Hafter as (_ & -> & ->). split_and!; [done..|].
  change (skeleton (?x :: ?t)) with (skeleton t).
  rewrite !skeleton_app, Hskel.
  rewrite (analyze_transcript_with_gemini_skeleton E transcript member_name
             (final (fetch_transcript E ds f w))).
  destruct (get_media E (file_id f)); [done|].
  destruct Hparts as (Hout & _). congruence.
Qed.

End Skipped.

(** A failed download.  When the download of a file raises, the loop body
    logs the error and returns: nothing was transcribed, analysed, written,
    moved or waited for, no temporary file was created, and the world is
    exactly as before, so the file is found again by the next run. *)
Theorem download_failure_skips_file E ds gc member_name folder_id f w e :
  get_media E (file_id f) = Raise e ->
  let r := process_file E ds gc member_name folder_id f w in
  outcome r = Ok tt /\ final r = w /\
  skeleton (trace r) = [Download (file_id f)].
Proof.
  intros Hfail r. subst r.
  destruct (fetch_transcript_download_fails E ds f w e Hfail) as [Hout Hfinal].
  pose proof (process_file_skipped E ds gc member_name folder_id f w) as Hskip.
  pose proof (fetch_transcript_skeleton E ds f w) as Hskel.
  cbv zeta in Hskip. rewrite Hout, Hfinal, Hskel, Hfail in Hskip. by apply Hskip.
Qed.

Lemma download_failure_skips_file_witness :
  let r := process_file Cases.E_download_fails DriveService GspreadClient
             "Sharath" Sample.sharath_folder Sample.recording Sample.w_empty in
  outcome r = Ok tt /\ final r = Sample.w_empty /\
  skeleton (trace r) = [Download "f1"].
Proof.
  exact (download_failure_skips_file Cases.E_download_fails DriveService
           GspreadClient "Sharath" Sample.sharath_folder Sample.recording
           Sample.w_empty "HttpError 500" eq_refl).
Defined.

(** A recording without speech.  When every segment the speech model
    returns holds whitespace only (or there is no segment at all), the
    transcript is the empty string and the file is skipped: the loop body
    stops after transcription, performs no wait, and leaves the world
    exactly as before, the file still in its source folder. *)
Theorem blank_recording_is_skipped
    E ds gc member_name folder_id f w chunks segments :
  get_media E (file_id f) = Ok chunks ->
  tmp_create E (splitext_ext (file_name f)) = None ->
  tmp_write E (concat chunks) = Ok tt ->
  whisper_load E = Ok tt ->
  whisper_transcribe E (splitext_ext (file_name f)) (concat chunks) = Ok segments ->
  Forall (fun s => PyStr.all_space s = true) segments ->
  let r := process_file E ds gc member_name folder_id f w in
  outcome (fetch_transcript E ds f w) = Ok (PStr "") /\
  outcome r = Ok tt /\ final r = w /\
  skeleton (trace r) = [Download (file_id f); Transcribe (file_name f)].
Proof.
  intros Hmedia Hcreate Hwrite Hload Hsegments Hblank r. subst r.
  pose proof (fetch_transcript_run E ds f w) as Hparts.
  pose proof (fetch_transcript_skeleton E ds f w) as Hskel.
  rewrite Hmedia in Hparts, Hskel. cbv zeta in Hparts.
  destruct Hparts as (Hout & Hfinal & _).
  destruct (transcribe_audio_written E (concat chunks) (file_name f) w
              Hcreate Hwrite) as (Hsame & _).
  destruct (transcribe_audio_cleans_up E (concat chunks) (file_name f) w
              Hcreate Hwrite) as (Hvalue & _).
  rewrite Hvalue in Hout. unfold transcript_of in Hout.
  rewrite Hload, Hsegments, (strip_all_space _ (all_space_join _ Hblank)) in Hout.
  rewrite Hsame in Hfinal.
  pose proof (process_file_skipped E ds gc member_name folder_id f w) as Hskip.
  cbv zeta in Hskip. rewrite Hout, Hfinal, Hskel in Hskip.
  split; [done|]. by apply Hskip.
Qed.

Lemma blank_recording_is_skipped_witness :
  let r := process_file Cases.E_blank DriveService GspreadClient "Sharath"
             Sample.sharath_folder Sample.recording Sample.w_empty in
  outcome r = Ok tt /\ final r = Sample.w_empty /\
  skeleton (trace r) = [Download "f1"; Transcribe "rec.mp3"].
Proof.
  assert (Forall (fun s => PyStr.all_space s = true) ["  "; " "]) as Hblank
    by (repeat constructor).
  exact (proj2 (blank_recording_is_skipped Cases.E_blank DriveService GspreadClient
                  "Sharath" Sample.sharath_folder Sample.recording Sample.w_empty
                  [[Byte.x49; Byte.x44]; [Byte.x33]] ["  "; " "]
                  eq_refl eq_refl eq_refl eq_refl eq_refl Hblank)).
Defined.

(** No analysis to be had.  When the model key is not set (or is empty), or
    the call of the model raises, the Analyzer returns [None].  For a file
    that has a transcript the loop body then stops after the analysis:
    no Sheet Writer, no Archiver, the world as transcription left it (sheet
    and Drive as before, the file still in its source folder), and the
    20-second wait is performed all the same. *)
Theorem analysis_unavailable E ds gc member_name folder_id f w transcript :
  opt_str_truthy (GEMINI_API_KEY E) = false \/
  (exists e, generate_content E transcript member_name = Raise e) ->
  outcome (fetch_transcript E ds f w) = Ok transcript ->
  truthy transcript = true ->
  let r := process_file E ds gc member_name folder_id f w in
  outcome (analyze_transcript_with_gemini E transcript member_name
             (final (fetch_transcript E ds f w))) = Ok PNone /\
  outcome r = Ok tt /\
  sheet (final r) = sheet w /\ parents (final r) = parents w /\
  skeleton (trace r)
  = [Download (file_id f); Transcribe (file_name f);
     Analyze transcript member_name; Sleep 20].
Proof.
  intros Hnone Hfetch Htranscript r. subst r.
  assert (analysis_of E transcript member_name = PNone) as Hdata.
  { unfold analysis_of. destruct Hnone as [->|[e ->]]; [done|].
    by destruct (negb (opt_str_truthy (GEMINI_API_KEY E))). }
  destruct (analyze_transcript_with_gemini_spec E transcript member_name
              (final (fetch_transcript E ds f w))) as (-> & _).
  destruct (fetch_transcript_spec E ds f w) as (Hsheet & Hparents & _).
  destruct (process_file_no_result E ds gc member_name folder_id f w transcript
              Hfetch Htranscript) as (Hout & -> & Hskel); [by rewrite Hdata|].
  by rewrite Hdata.
Qed.

Lemma analysis_unavailable_witness :
  (let r := process_file Cases.E_no_model_key DriveService GspreadClient
              "Sharath" Sample.sharath_folder Sample.recording Sample.w_empty in
   sheet (final r) = [] /\ parents (final r) = Sample.drive0 /\
   skeleton (trace r)
   = [Download "f1"; Transcribe "rec.mp3";
      Analyze (PStr "hello world") "Sharath"; Sleep 20]) /\
  (let r := process_file Cases.E_model_fails DriveService GspreadClient
              "Sharath" Sample.sharath_folder Sample.recording Sample.w_empty in
   sheet (final r) = [] /\ parents (final r) = Sample.drive0 /\
   skeleton (trace r)
   = [Download "f1"; Transcribe "rec.mp3";
      Analyze (PStr "hello world") "Sharath"; Sleep 20]).
Proof.
  assert (outcome (fetch_transcript Cases.E_no_model_key DriveService
                     Sample.recording Sample.w_empty) = Ok (PStr "hello world"))
    as Hfetch1 by (vm_compute; reflexivity).
  assert (outcome (fetch_transcript Cases.E_model_fails DriveService
                     Sample.recording Sample.w_empty) = Ok (PStr "hello world"))
    as Hfetch2 by (vm_compute; reflexivity).
  split.
  - exact (proj2 (proj2 (analysis_unavailable Cases.E_no_model_key DriveService
             GspreadClient "Sharath" Sample.sharath_folder Sample.recording
             Sample.w_empty (PStr "hello world") (or_introl eq_refl)
             Hfetch1 eq_refl))).
  - exact (proj2 (proj2 (analysis_unavailable Cases.E_model_fails DriveService
             GspreadClient "Sharath" Sample.sharath_folder Sample.recording
             Sample.w_empty (PStr "hello world")
             (or_intror (ex_intro _ "ResourceExhausted" eq_refl))
             Hfetch2 eq_refl))).
Defined.

(** An answer that parses but is falsy.  When the model's text parses to a
    value Python takes for false (the empty object, the empty list, zero,
    the empty string, [false], [null]), the Analyzer returns that value, and
    the loop body treats it as no analysis: no Sheet Writer, no Archiver,
    sheet and Drive as before; the wait is performed. *)
Theorem falsy_analysis_is_dropped
    E ds gc member_name folder_id f w transcript text v :
  opt_str_truthy (GEMINI_API_KEY E) = true ->
  generate_content E transcript member_name = Ok text ->
  json_loads E text = Ok v ->
  truthy v = false ->
  outcome (fetch_transcript E ds f w) = Ok transcript ->
  truthy transcript = true ->
  let r := process_file E ds gc member_name folder_id f w in
  outcome (analyze_transcript_with_gemini E transcript member_name
             (final (fetch_transcript E ds f w))) = Ok v /\
  outcome r = Ok tt /\
  sheet (final r) = sheet w /\ parents (final r) = parents w /\
  skeleton (trace r)
  = [Download (file_id f); Transcribe (file_name f);
     Analyze transcript member_name; Sleep 20].
Proof.
  intros Hkey Htext Hloads Hfalsy Hfetch Htranscript r. subst r.
  assert (analysis_of E transcript member_name = v) as Hdata.
  { unfold analysis_of. by rewrite Hkey, Htext, Hloads. }
  destruct (analyze_transcript_with_gemini_spec E transcript member_name
              (final (fetch_transcript E ds f w))) as (-> & _).
  destruct (fetch_transcript_spec E ds f w) as (Hsheet & Hparents & _).
  destruct (process_file_no_result E ds gc member_name folder_id f w transcript
              Hfetch Htranscript) as (Hout & -> & Hskel); [by rewrite Hdata|].
  by rewrite Hdata.
Qed.

Lemma falsy_analysis_is_dropped_witness :
  let r := process_file Cases.E_empty_object DriveService GspreadClient
             "Sharath" Sample.sharath_folder Sample.recording Sample.w_empty in
  outcome (analyze_transcript_with_gemini Cases.E_empty_object
             (PStr "hello world") "Sharath"
             (final (fetch_transcript Cases.E_empty_object DriveService
                       Sample.recording Sample.w_empty))) = Ok (PDict ∅) /\
  outcome r = Ok tt /\
  sheet (final r) = [] /\ parents (final r) = Sample.drive0 /\
  skeleton (trace r)
  = [Download "f1"; Transcribe "rec.mp3";
     Analyze (PStr "hello world") "Sharath"; Sleep 20].
Proof.
  assert (outcome (fetch_transcript Cases.E_empty_object DriveService
                     Sample.recording Sample.w_empty) = Ok (PStr "hello world"))
    as Hfetch by (vm_compute; reflexivity).
  exact (falsy_analysis_is_dropped Cases.E_empty_object DriveService
           GspreadClient "Sharath" Sample.sharath_folder Sample.recording
           Sample.w_empty (PStr "hello world") "{}" (PDict ∅)
           eq_refl eq_refl eq_refl eq_refl Hfetch eq_refl).
Defined.

(** The row the Sheet Writer builds for a dict. *)
Lemma row_for_headers_in_use (d : gmap string pyval) w :
  row_for (PDict d) (headers_in_use w)
  = Ok (map (fun header => default (PStr "N/A") (d !! header)) (headers_in_use w)).
Proof. apply row_for_dict. Qed.

Lemma write_to_google_sheets_appends E gc (d : gmap string pyval) w :
  sheets_up E ->
  let r := write_to_google_sheets E gc (PDict d) w in
  let row := map (fun header => default (PStr "N/A") (d !! header))
               (headers_in_use w) in
  let first := bool_decide (row1 (sheet w) = []) in
  sheet (final r)
  = sheet w ++ (if first then [header_row E] else []) ++ [map (cell_text E) row] /\
  List.filter is_sheet_event (trace r)
  = (if first then [HeaderWritten header_keys] else []) ++ [RowAppended row].
Proof.
  intros Hup r row first. subst r row first.
  change (wp (write_to_google_sheets E gc (PDict d)) w (fun _ w' t =>
    sheet w'
    = sheet w ++ (if bool_decide (row1 (sheet w) = []) then [header_row E] else [])
        ++ [map (cell_text E)
              (map (fun header => default (PStr "N/A") (d !! header))
                 (headers_in_use w))] /\
    List.filter is_sheet_event t
    = (if bool_decide (row1 (sheet w) = []) then [HeaderWritten header_keys] else [])
        ++ [RowAppended (map (fun header => default (PStr "N/A") (d !! header))
                           (headers_in_use w))])).
  unfold write_to_google_sheets, headers_in_use. wp_steps.
  apply wp_sheets_call. rewrite Hup. wp_step.
  apply wp_sheets_call. rewrite Hup. wp_steps.
  apply wp_row_values_1. rewrite Hup. wp_step.
  case_bool_decide as Hrow.
  - wp_steps. apply wp_append_row. rewrite Hup. wp_steps.
    rewrite row_for_dict. wp_steps. apply wp_append_row. rewrite Hup. wp_steps.
    cbn [sheet]. split; [|done]. by rewrite <- app_assoc.
  - wp_steps. rewrite row_for_dict. wp_steps.
    apply wp_append_row. rewrite Hup. by wp_steps.
Qed.

(** The Sheet Writer with the service up.  When no spreadsheet call fails
    and the data is a dict, the record's row is appended, after the
    canonical header row if row 1 read empty; nothing else is added, and
    no row that was there is changed. *)
Theorem write_to_google_sheets_succeeds E gc (d : gmap string pyval) w :
  sheets_up E ->
  let r := write_to_google_sheets E gc (PDict d) w in
  let row := map (fun header => default (PStr "N/A") (d !! header))
               (headers_in_use w) in
  let first := bool_decide (row1 (sheet w) = []) in
  sheet (final r)
  = sheet w ++ (if first then [header_row E] else []) ++ [map (cell_text E) row] /\
  List.filter is_sheet_event (trace r)
  = (if first then [HeaderWritten header_keys] else []) ++ [RowAppended row].
Proof. apply write_to_google_sheets_appends. Qed.

Lemma write_to_google_sheets_succeeds_witness :
  sheet (final (write_to_google_sheets Sample.E_ok GspreadClient
                  (PDict Sample.acme) Sample.w_headed))
  = [["Society Name"; "Owner"]; ["Acme"; "N/A"]].
Proof.
  assert (sheets_up Sample.E_ok) as Hup by (intros op rows; reflexivity).
  exact (proj1 (write_to_google_sheets_succeeds Sample.E_ok GspreadClient
                  Sample.acme Sample.w_headed Hup)).
Defined.

Lemma write_to_google_sheets_no_keys E gc data w :
  is_dict data = false ->
  let r := write_to_google_sheets E gc data w in
  outcome r = Ok tt /\
  none is_row_appended (trace r) /\
  (row1 (sheet w) <> [] -> sheet (final r) = sheet w) /\
  (sheets_up E -> row1 (sheet w) = [] -> sheet (final r) = sheet w ++ [header_row E]).
Proof.
  intros Hdata r. subst r.
  assert (forall header headers row,
            row_for data (header :: headers) <> Ok row) as Hraise.
  { intros header headers row. by destruct data. }
  destruct (write_to_google_sheets_spec E gc data w)
    as (Hout & _ & _ & _ & Heffect).
  split; [done|].
  assert (forall t, List.filter is_row_appended (List.filter is_sheet_event t)
                    = List.filter is_row_appended t) as Hfilter.
  { intros t. induction t as [|ev t IH]; [done|]. destruct ev; simpl; congruence. }
  split; [|split].
  - apply none_count. unfold count. rewrite <- Hfilter.
    inversion Heffect as [Ht|Hrow Ht|row Hrow Hfor Ht|row Hrow Hfor Ht]; try done.
    + by apply Hraise in Hfor.
    + destruct (row1 (sheet w)); [done|]. by apply Hraise in Hfor.
  - intros Hrow1.
    inversion Heffect as [Ht Hs|Hrow Ht|row Hrow Hfor Ht|row Hrow Hfor Ht];
      try done.
    destruct (row1 (sheet w)); [done|]. by apply Hraise in Hfor.
  - intros Hup Hrow1.
    pose proof (write_to_google_sheets_up E gc data w Hup Hrow1) as Hcount.
    unfold wp in Hcount. rewrite <- count_header_sheet_events in Hcount.
    inversion Heffect as [Ht Hs|Hrow Ht Hs|row Hrow Hfor Ht|row Hrow Hfor Ht];
      try done.
    + by rewrite <- Ht in Hcount.
    + by apply Hraise in Hfor.
Qed.

(** Data that is not a dict.  Whatever the services answer, the Sheet
    Writer appends no record row for it: building the row fails and the
    failure is logged.  The header row is not held back by that: with the
    service up it is written to a sheet whose row 1 reads empty, and stands
    alone; a sheet with a non-empty row 1 stays as it is. *)
Theorem write_to_google_sheets_not_a_dict E gc data w :
  is_dict data = false ->
  let r := write_to_google_sheets E gc data w in
  outcome r = Ok tt /\
  none is_row_appended (trace r) /\
  (row1 (sheet w) <> [] -> sheet (final r) = sheet w) /\
  (sheets_up E -> row1 (sheet w) = [] -> sheet (final r) = sheet w ++ [header_row E]).
Proof. apply write_to_google_sheets_no_keys. Qed.

Lemma write_to_google_sheets_not_a_dict_witness :
  let r := write_to_google_sheets Sample.E_ok GspreadClient (PList [PInt 1])
             Sample.w_empty in
  let r' := write_to_google_sheets Sample.E_ok GspreadClient (PList [PInt 1])
              Sample.w_headed in
  none is_row_appended (trace r) /\
  sheet (final r) = [header_row Sample.E_ok] /\
  sheet (final r') = [["Society Name"; "Owner"]].
Proof.
  assert (sheets_up Sample.E_ok) as Hup by (intros op rows; reflexivity).
  assert (row1 (sheet Sample.w_headed) <> []) as Hrow by discriminate.
  destruct (write_to_google_sheets_not_a_dict Sample.E_ok GspreadClient
              (PList [PInt 1]) Sample.w_empty eq_refl) as (_ & Hnone & _ & Hhead).
  destruct (write_to_google_sheets_not_a_dict Sample.E_ok GspreadClient
              (PList [PInt 1]) Sample.w_headed eq_refl) as (_ & _ & Hsame & _).
  exact (conj Hnone (conj (Hhead Hup eq_refl) (Hsame Hrow))).
Defined.

Section Sequences.

Variable gc : sheets_handle.

Lemma write_all_cons E data calls w :
  let r1 := write_to_google_sheets E gc data w in
  final (write_all gc ((E, data) :: calls) w) = final (write_all gc calls (final r1)).
Proof.
  cbv zeta. unfold write_all. simpl. rewrite bind_run.
  destruct (write_to_google_sheets_spec E gc data w) as (Hout & _).
  unfold outcome, final in *.
  destruct (write_to_google_sheets E gc data w) as [[r1 w1] t1]. simpl in *.
  subst r1. by destruct (for_each calls _ w1) as [[r2 w2] t2].
Qed.

(** On a sheet with a non-empty first row, calls that go through add one
    row each and leave row 1 alone. *)
Lemma write_all_headed_rows calls : forall w,
  Forall (fun c => sheets_up c.1 /\ is_dict c.2 = true) calls ->
  row1 (sheet w) <> [] ->
  length (sheet (final (write_all gc calls w))) = length (sheet w) + length calls /\
  row1 (sheet (final (write_all gc calls w))) = row1 (sheet w).
Proof.
  induction calls as [|[E data] calls IH]; intros w Hcalls Hrow.
  - change (final (write_all gc [] w)) with w. simpl. split; [lia|done].
  - apply Forall_cons in Hcalls as [[Hup Hdict] Hcalls]. simpl in Hup, Hdict.
    destruct data as [| | | | | |d]; try done.
    rewrite write_all_cons.
    destruct (write_to_google_sheets_appends E gc d w Hup) as [Hsheet _].
    rewrite bool_decide_eq_false_2 in Hsheet by done. simpl in Hsheet.
    destruct (IH (final (write_to_google_sheets E gc (PDict d) w)) Hcalls)
      as [Hlen Hrow1].
    { rewrite Hsheet. by rewrite row1_app. }
    rewrite Hlen, Hrow1, Hsheet, length_app, row1_app by done. simpl.
    split; [lia|done].
Qed.

End Sequences.

(** Records one after the other.  When every call goes through and every
    record is a dict, a sequence of calls of the Sheet Writer on an entirely
    empty sheet leaves the header row followed by one row per record: as
    many rows as records, plus one.  On a sheet that has its headers it adds
    one row per record and leaves row 1 alone. *)
Theorem write_all_one_row_per_record gc E data calls w :
  Forall (fun c => sheets_up c.1 /\ is_dict c.2 = true) ((E, data) :: calls) ->
  (sheet w = [] ->
   length (sheet (final (write_all gc ((E, data) :: calls) w)))
   = S (S (length calls)) /\
   row1 (sheet (final (write_all gc ((E, data) :: calls) w))) = header_row E) /\
  (row1 (sheet w) <> [] ->
   length (sheet (final (write_all gc ((E, data) :: calls) w)))
   = length (sheet w) + S (length calls) /\
   row1 (sheet (final (write_all gc ((E, data) :: calls) w))) = row1 (sheet w)).
Proof.
  intros Hcalls. split; [|by apply write_all_headed_rows].
  intros Hempty.
  apply Forall_cons in Hcalls as [[Hup Hdict] Hcalls]. simpl in Hup, Hdict.
  destruct data as [| | | | | |d]; try done.
  rewrite write_all_cons.
  destruct (write_to_google_sheets_appends E gc d w Hup) as [Hsheet _].
  rewrite Hempty in Hsheet. simpl in Hsheet.
  destruct (write_all_headed_rows gc calls
              (final (write_to_google_sheets E gc (PDict d) w)) Hcalls)
    as [Hlen Hrow1].
  { by rewrite Hsheet. }
  rewrite Hlen, Hrow1, Hsheet. simpl. split; [lia|done].
Qed.

Lemma write_all_one_row_per_record_witness :
  length (sheet (final (write_all GspreadClient
                          [(Sample.E_ok, PDict Sample.acme);
                           (Sample.E_ok, PDict ∅);
                           (Sample.E_ok, PDict Sample.acme)] Sample.w_empty)))
  = 4 /\
  length (sheet (final (write_all GspreadClient
                          [(Sample.E_ok, PDict Sample.acme);
                           (Sample.E_ok, PDict ∅)] Sample.w_headed)))
  = 3.
Proof.
  assert (sheets_up Sample.E_ok) as Hup by (intros op rows; reflexivity).
  assert (row1 (sheet Sample.w_headed) <> []) as Hrow by discriminate.
  split.
  - refine (proj1 (proj1 (write_all_one_row_per_record GspreadClient Sample.E_ok
                     (PDict Sample.acme)
                     [(Sample.E_ok, PDict ∅); (Sample.E_ok, PDict Sample.acme)]
                     Sample.w_empty _) eq_refl)).
    by repeat constructor.
  - refine (proj1 (proj2 (write_all_one_row_per_record GspreadClient Sample.E_ok
                     (PDict Sample.acme) [(Sample.E_ok, PDict ∅)]
                     Sample.w_headed _) Hrow)).
    by repeat constructor.
Defined.

Section Through.

Variable E : env.
Variables (ds : drive_handle) (gc : sheets_handle).

(** A loop body whose Analyzer returned something truthy: the Sheet Writer
    ran from the world fetching left, the Archiver from the world the Sheet
    Writer left, and the skeleton is made of theirs. *)
Lemma process_file_through member_name folder_id f w transcript :
  outcome (fetch_transcript E ds f w) = Ok transcript ->
  truthy transcript = true ->
  truthy (analysis_of E transcript member_name) = true ->
  let r := process_file E ds gc member_name folder_id f w in
  let w1 := final (fetch_transcript E ds f w) in
  let rw := write_to_google_sheets E gc (analysis_of E transcript member_name) w1 in
  final r = final (move_file_to_processed E ds (file_id f) folder_id (final rw)) /\
  skeleton (trace r)
  = [Download (file_id f); Transcribe (file_name f);
     Analyze transcript member_name;
     WriteSheet (analysis_of E transcript member_name)]
    ++ List.filter is_sheet_event (trace rw)
    ++ [MoveFile (file_id f) folder_id; Sleep 20].
Proof.
  intros Hfetch Htranscript Hdata r w1 rw. subst r w1 rw.
  pose proof (process_file_run E ds gc member_name folder_id f w) as Hrun.
  pose proof (fetch_transcript_skeleton E ds f w) as Hskel.
  pose proof (fetch_transcript_run E ds f w) as Hparts.
  cbv zeta in Hrun. rewrite Hfetch in Hrun. destruct Hrun as (_ & -> & ->).
  pose proof (after_transcription_run E ds gc member_name folder_id f transcript
                (final (fetch_transcript E ds f w))) as Hafter.
  cbv zeta in Hafter. rewrite Htranscript, Hdata in Hafter.
  destruct Hafter as (_ & -> & ->). split; [done|].
  change (skeleton (?x :: ?t)) with (skeleton t).
  rewrite !skeleton_app, Hskel.
  rewrite (analyze_transcript_with_gemini_skeleton E transcript member_name
             (final (fetch_transcript E ds f w))).
  rewrite (write_to_google_sheets_skeleton E gc
             (analysis_of E transcript member_name)
             (final (fetch_transcript E ds f w))).
  rewrite (move_file_to_processed_skeleton E ds (file_id f) folder_id).
  destruct (get_media E (file_id f)).
  - done.
  - destruct Hparts as (Hout & _). congruence.
Qed.

End Through.

(** A file for which everything works.  The download returns, the
    temporary file can be created and written, the speech model returns segments that
    give a non-empty transcript, the model key is set and the model's text
    parses to a non-empty dict, no spreadsheet call fails and the Drive
    update goes through for a file that exists.  Then the record's row is
    the last row of the sheet, after the header row if row 1 read empty;
    the file's parents are relabelled and no other file's; the temporary
    directory is as before; and the calls are those of the full pipeline,
    in order. *)
Theorem process_file_succeeds
    E ds gc member_name folder_id f w chunks segments text d ps :
  get_media E (file_id f) = Ok chunks ->
  tmp_create E (splitext_ext (file_name f)) = None ->
  tmp_write E (concat chunks) = Ok tt ->
  whisper_load E = Ok tt ->
  whisper_transcribe E (splitext_ext (file_name f)) (concat chunks) = Ok segments ->
  let transcript := PStr (PyStr.strip (PyStr.join " " segments)) in
  truthy transcript = true ->
  opt_str_truthy (GEMINI_API_KEY E) = true ->
  generate_content E transcript member_name = Ok text ->
  json_loads E text = Ok (PDict d) ->
  truthy (PDict d) = true ->
  sheets_up E ->
  files_update_fault E (file_id f) folder_id = None ->
  parents w !! file_id f = Some ps ->
  let r := process_file E ds gc member_name folder_id f w in
  let row := map (fun header => default (PStr "N/A") (d !! header))
               (headers_in_use w) in
  let first := bool_decide (row1 (sheet w) = []) in
  outcome r = Ok tt /\
  sheet (final r)
  = sheet w ++ (if first then [header_row E] else []) ++ [map (cell_text E) row] /\
  parents (final r) = <[file_id f := relabel folder_id ps]> (parents w) /\
  tmpdir (final r) = tmpdir w /\
  skeleton (trace r)
  = [Download (file_id f); Transcribe (file_name f);
     Analyze transcript member_name; WriteSheet (PDict d)]
    ++ (if first then [HeaderWritten header_keys] else [])
    ++ [RowAppended row; MoveFile (file_id f) folder_id; Sleep 20].
Proof.
  intros Hmedia Hcreate Hwrite Hload Hsegments transcript Htranscript Hkey Htext Hloads
    Hdict Hup Hupdate Hps r row first. subst r row first.
  split; [apply process_file_total|].
  pose proof (fetch_transcript_run E ds f w) as Hparts.
  rewrite Hmedia in Hparts. cbv zeta in Hparts.
  destruct Hparts as (Hout & Hfinal & _).
  destruct (transcribe_audio_written E (concat chunks) (file_name f) w
              Hcreate Hwrite) as (Hsame & _).
  destruct (transcribe_audio_cleans_up E (concat chunks) (file_name f) w
              Hcreate Hwrite) as (Hvalue & _).
  rewrite Hvalue in Hout. unfold transcript_of in Hout.
  rewrite Hload, Hsegments in Hout. fold transcript in Hout.
  rewrite Hsame in Hfinal.
  assert (analysis_of E transcript member_name = PDict d) as Hdata.
  { unfold analysis_of. by rewrite Hkey, Htext, Hloads. }
  destruct (process_file_through E ds gc member_name folder_id f w transcript
              Hout Htranscript) as [-> ->]; [by rewrite Hdata|].
  rewrite Hdata, Hfinal.
  destruct (write_to_google_sheets_appends E gc d w Hup) as [Hsheet Hevents].
  destruct (write_to_google_sheets_spec E gc (PDict d) w)
    as (_ & Hparents & Htmp & _).
  rewrite move_file_to_processed_final, Hupdate, Hparents, Hps. simpl.
  rewrite Hsheet, Hevents, Htmp. split_and!; [done..|].
  simpl. by rewrite <- app_assoc.
Qed.

Lemma process_file_succeeds_witness :
  let r := process_file Sample.E_ok DriveService GspreadClient "Sharath"
             Sample.sharath_folder Sample.recording Sample.w_headed in
  outcome r = Ok tt /\
  sheet (final r) = [["Society Name"; "Owner"]; ["Acme"; "N/A"]] /\
  parents (final r)
  = <["f1" := relabel Sample.sharath_folder {[Sample.sharath_folder]}]> Sample.drive0 /\
  tmpdir (final r) = ∅ /\
  skeleton (trace r)
  = [Download "f1"; Transcribe "rec.mp3"; Analyze (PStr "hello world") "Sharath";
     WriteSheet (PDict Sample.acme); RowAppended [PStr "Acme"; PStr "N/A"];
     MoveFile "f1" Sample.sharath_folder; Sleep 20].
Proof.
  assert (sheets_up Sample.E_ok) as Hup by (intros op rows; reflexivity).
  exact (process_file_succeeds Sample.E_ok DriveService GspreadClient "Sharath"
           Sample.sharath_folder Sample.recording Sample.w_headed
           [[Byte.x49; Byte.x44]; [Byte.x33]] [" hello"; "world "]
           Sample.acme_json Sample.acme {[Sample.sharath_folder]}
           eq_refl eq_refl eq_refl eq_refl eq_refl eq_refl eq_refl eq_refl eq_refl
           eq_refl Hup eq_refl eq_refl).
Defined.

(** An answer that is JSON but not an object.  When the Analyzer returns a
    truthy value that is not a dict (a list, a number, a string, [true]),
    the Sheet Writer records no row for the file, and the Archiver moves it
    all the same: with the Drive update going through, the file leaves its
    source folder although the sheet holds no row for it. *)
Theorem non_object_answer_is_archived_unrecorded
    E ds gc member_name folder_id f w transcript ps :
  outcome (fetch_transcript E ds f w) = Ok transcript ->
  truthy transcript = true ->
  truthy (analysis_of E transcript member_name) = true ->
  is_dict (analysis_of E transcript member_name) = false ->
  files_update_fault E (file_id f) folder_id = None ->
  parents w !! file_id f = Some ps ->
  let r := process_file E ds gc member_name folder_id f w in
  count is_row_appended (trace r) = 0 /\
  count is_move_file (trace r) = 1 /\
  parents (final r) !! file_id f = Some (relabel folder_id ps).
Proof.
  intros Hfetch Htranscript Hdata Hdict Hupdate Hps r. subst r.
  destruct (process_file_through E ds gc member_name folder_id f w transcript
              Hfetch Htranscript Hdata) as [-> Hskel].
  destruct (fetch_transcript_spec E ds f w) as (_ & Hparents & _).
  set (w1 := final (fetch_transcript E ds f w)) in *.
  destruct (write_to_google_sheets_no_keys E gc
              (analysis_of E transcript member_name) w1 Hdict)
    as (_ & Hnone & _).
  destruct (write_to_google_sheets_spec E gc
              (analysis_of E transcript member_name) w1)
    as (_ & Hparents' & _ & _ & Heffect).
  assert (List.filter is_sheet_event
            (trace (write_to_google_sheets E gc
                      (analysis_of E transcript member_name) w1))
          = [] \/
          List.filter is_sheet_event
            (trace (write_to_google_sheets E gc
                      (analysis_of E transcript member_name) w1))
          = [HeaderWritten header_keys]) as Hevents.
  { apply none_count in Hnone. unfold count in Hnone.
    inversion Heffect as [Ht|Hrow Ht|row Hrow Hfor Ht|row Hrow Hfor Ht];
      [by left|by right|exfalso..].
    - assert (In (RowAppended row)
                (List.filter is_sheet_event
                   (trace (write_to_google_sheets E gc
                             (analysis_of E transcript member_name) w1)))) as Hin
        by (rewrite <- Ht; right; by left).
      apply filter_In in Hin as [Hin _].
      assert (In (RowAppended row)
                (List.filter is_row_appended
                   (trace (write_to_google_sheets E gc
                             (analysis_of E transcript member_name) w1)))) as Hin'
        by (by apply filter_In).
      by destruct (List.filter is_row_appended _).
    - assert (In (RowAppended row)
                (List.filter is_sheet_event
                   (trace (write_to_google_sheets E gc
                             (analysis_of E transcript member_name) w1)))) as Hin
        by (rewrite <- Ht; by left).
      apply filter_In in Hin as [Hin _].
      assert (In (RowAppended row)
                (List.filter is_row_appended
                   (trace (write_to_google_sheets E gc
                             (analysis_of E transcript member_name) w1)))) as Hin'
        by (by apply filter_In).
      by destruct (List.filter is_row_appended _). }
  rewrite <- (count_skeleton is_row_appended), <- (count_skeleton is_move_file)
    by done.
  rewrite Hskel. split_and!.
  - by destruct Hevents as [-> | ->].
  - by destruct Hevents as [-> | ->].
  - rewrite move_file_to_processed_final, Hupdate, Hparents', Hparents, Hps.
    apply lookup_insert_eq.
Qed.

Lemma non_object_answer_is_archived_unrecorded_witness :
  let r := process_file Cases.E_json_list DriveService GspreadClient "Sharath"
             Sample.sharath_folder Sample.recording Sample.w_headed in
  count is_row_appended (trace r) = 0 /\
  count is_move_file (trace r) = 1 /\
  parents (final r) !! "f1"
  = Some (relabel Sample.sharath_folder {[Sample.sharath_folder]}).
Proof.
  assert (outcome (fetch_transcript Cases.E_json_list DriveService
                     Sample.recording Sample.w_headed) = Ok (PStr "hello world"))
    as Hfetch by (vm_compute; reflexivity).
  exact (non_object_answer_is_archived_unrecorded Cases.E_json_list DriveService
           GspreadClient "Sharath" Sample.sharath_folder Sample.recording
           Sample.w_headed (PStr "hello world") {[Sample.sharath_folder]}
           Hfetch eq_refl eq_refl eq_refl eq_refl eq_refl).
Defined.

(** A folder with nothing to process.  When the listing returns no file,
    or the listing call itself fails, the folder's turn ends without
    raising, the world is as it was, and the listing is the only call made:
    nothing is downloaded, transcribed, analysed, written or moved. *)
Theorem process_folder_nothing_listed E ds gc member_name folder_id w :
  listed E w folder_id = [] ->
  let r := process_folder E ds gc (member_name, folder_id) w in
  outcome r = Ok tt /\ final r = w /\ skeleton (trace r) = [FilesList folder_id].
Proof.
  intros Hnone r. subst r. unfold listed in Hnone.
  change (wp (process_folder E ds gc (member_name, folder_id)) w
            (fun r w' t => r = Ok tt /\ w' = w /\ skeleton t = [FilesList folder_id])).
  unfold process_folder. wp_steps.
  destruct (files_list E (parents w) folder_id) as [files|e].
  - subst files. by wp_steps.
  - by wp_steps.
Qed.

Lemma process_folder_nothing_listed_witness :
  (let r := process_folder Cases.E_no_files DriveService GspreadClient
              ("Sharath", Sample.sharath_folder) Sample.w_headed in
   outcome r = Ok tt /\ final r = Sample.w_headed /\
   skeleton (trace r) = [FilesList Sample.sharath_folder]) /\
  (let r := process_folder Cases.E_listing_fails DriveService GspreadClient
              ("Sharath", Sample.sharath_folder) Sample.w_headed in
   outcome r = Ok tt /\ final r = Sample.w_headed /\
   skeleton (trace r) = [FilesList Sample.sharath_folder]).
Proof.
  split.
  - exact (process_folder_nothing_listed Cases.E_no_files DriveService
             GspreadClient "Sharath" Sample.sharath_folder Sample.w_headed eq_refl).
  - exact (process_folder_nothing_listed Cases.E_listing_fails DriveService
             GspreadClient "Sharath" Sample.sharath_folder Sample.w_headed eq_refl).
Defined.

(** Every listed file is fetched once.  Over one folder's turn the
    downloads are those of the listed files, one each, in the order of the
    listing, whatever happens to each file afterwards: a file that fails
    does not stop the ones after it. *)
Theorem process_folder_downloads_each_listed E ds gc member_name folder_id w :
  List.filter is_download
    (trace (process_folder E ds gc (member_name, folder_id) w))
  = map (fun f => Download (file_id f)) (listed E w folder_id).
Proof.
  unfold listed.
  change (wp (process_folder E ds gc (member_name, folder_id)) w
            (fun _ _ t =>
               List.filter is_download t
               = map (fun f => Download (file_id f))
                   match files_list E (parents w) folder_id with
                   | Ok files => files
                   | Raise _ => []
                   end)).
  unfold process_folder. wp_steps.
  destruct (files_list E (parents w) folder_id) as [files|e]; [|by wp_steps].
  wp_steps.
  assert (wp (for_each files (process_file E ds gc member_name folder_id)) w
            (fun r _ t => r = Ok tt /\
               List.filter is_download t
               = map (fun f => Download (file_id f)) files)) as Hloop.
  { split.
    - apply (wp_for_each files _ (fun _ _ _ => True)); [done..|].
      intros f w0. split; [apply process_file_total|done].
    - rewrite (for_each_filter is_download (fun f => [Download (file_id f)]) files).
      + clear. induction files as [|f files IH]; [done|]. simpl. by rewrite IH.
      + intros f w0. split; [apply process_file_total|apply process_file_filters]. }
  destruct files as [|f0 files]; [by wp_steps|].
  eapply wp_mono; [exact Hloop|]. cbv beta. by intros r w' t [-> Ht].
Qed.

(** A recorded file whose move fails.  When the record is written and the
    Drive update then raises, the loop body still ends normally: the row
    stays as the last row of the sheet, and every file has the parents it
    had, so the file is still in its source folder and the next run finds
    it, and records it, again. *)
Theorem recorded_file_stays_when_move_fails
    E ds gc member_name folder_id f w transcript d e :
  outcome (fetch_transcript E ds f w) = Ok transcript ->
  truthy transcript = true ->
  analysis_of E transcript member_name = PDict d ->
  truthy (PDict d) = true ->
  sheets_up E ->
  files_update_fault E (file_id f) folder_id = Some e ->
  let r := process_file E ds gc member_name folder_id f w in
  let row := map (fun header => default (PStr "N/A") (d !! header))
               (headers_in_use w) in
  outcome r = Ok tt /\
  parents (final r) = parents w /\
  last (sheet (final r)) = Some (map (cell_text E) row) /\
  count is_row_appended (trace r) = 1 /\
  count is_move_file (trace r) = 1.
Proof.
  intros Hfetch Htranscript Hdata Hdict Hup Hupdate r row. subst r row.
  split; [apply process_file_total|].
  destruct (process_file_through E ds gc member_name folder_id f w transcript
              Hfetch Htranscript) as [-> Hskel]; [by rewrite Hdata|].
  rewrite <- (count_skeleton is_row_appended), <- (count_skeleton is_move_file)
    by done.
  rewrite Hskel, Hdata. clear Hskel.
  destruct (fetch_transcript_spec E ds f w) as (Hsheet1 & Hparents1 & _).
  set (w1 := final (fetch_transcript E ds f w)) in *.
  destruct (write_to_google_sheets_appends E gc d w1 Hup) as [Hsheet Hevents].
  destruct (write_to_google_sheets_spec E gc (PDict d) w1)
    as (_ & Hparents & _).
  assert (headers_in_use w1 = headers_in_use w) as Hheaders
    by (unfold headers_in_use; by rewrite Hsheet1).
  rewrite Hheaders in Hsheet, Hevents.
  rewrite move_file_to_processed_final, Hupdate, Hevents, Hparents, Hparents1.
  split_and!; [done| |by destruct (bool_decide _)..].
  rewrite Hsheet, !app_assoc. apply last_snoc.
Qed.

Lemma recorded_file_stays_when_move_fails_witness :
  let r := process_file Cases.E_move_fails DriveService GspreadClient "Sharath"
             Sample.sharath_folder Sample.recording Sample.w_headed in
  outcome r = Ok tt /\
  parents (final r) = Sample.drive0 /\
  last (sheet (final r)) = Some ["Acme"; "N/A"] /\
  count is_row_appended (trace r) = 1 /\
  count is_move_file (trace r) = 1.
Proof.
  assert (sheets_up Cases.E_move_fails) as Hup by (intros op rows; reflexivity).
  assert (outcome (fetch_transcript Cases.E_move_fails DriveService
                     Sample.recording Sample.w_headed) = Ok (PStr "hello world"))
    as Hfetch by (vm_compute; reflexivity).
  exact (recorded_file_stays_when_move_fails Cases.E_move_fails DriveService
           GspreadClient "Sharath" Sample.sharath_folder Sample.recording
           Sample.w_headed (PStr "hello world") Sample.acme "HttpError 403"
           Hfetch eq_refl eq_refl eq_refl Hup eq_refl).
Defined.
